(** * Auto Time Logger: the log store, the duplicate guard, the Gemini
      fallback clients and the commands of the extension, embedded from
      [utils/fsHelper.ts], [utils/geminiHelper.ts],
      [commands/generateTimesheet.ts], [commands/logActivity.ts],
      [commands/captureAIPrompt.ts] and [extension.ts].

    Text is a sequence of UTF-16 code units, as a JavaScript string is.
    A completion is either normal or abrupt (a thrown value).  The file
    system, the clock and the generation service are explicit state; so
    are, for the commands, the messages shown, the texts the clipboard
    will give and the timers awaited.

    What is left out: a JSON number is kept as its literal, so two
    literals of one double are two values (what [JSON.stringify] writes
    for it is the text of the double, computed from the literal); the
    file system fails only because a node is missing or
    is of the wrong kind (no permissions, no full disk); the engine's limit
    on the nesting of JSON text is not modelled.  What the editor supplies
    (the selection, the document, the lines up to the cursor, the answer of
    an input box, the settings) is an input of a command, and so is the
    timestamp of [getISTTimestamp], whose code is not part of the sources.
    The clock does not advance during one run of a command. *)

From Stdlib Require Import ZArith NArith List Lia Bool Ascii String.
From stdpp Require Import base option list gmap.
Import ListNotations.

Set Default Proof Using "Type".
Set Warnings "-register-all".
Local Open Scope N_scope.

(** ** Text *)

(** A JavaScript string: its UTF-16 code units. *)
Abbreviation str := (list N).

(** An ASCII literal as text. *)
Definition lit (s : string) : str :=
  List.map N_of_ascii (list_ascii_of_string s).

(** A literal written with apostrophes where the text has double quotes. *)
Definition qlit (s : string) : str :=
  List.map (fun c => if N.eqb c 39 then 34%N else c) (lit s).

(** WhiteSpace and LineTerminator of ECMA-262: what [String.prototype.trim]
    removes and what the regular expression class [\s] matches. *)
Definition is_js_space (c : N) : bool :=
  (N.leb 9 c && N.leb c 13) || N.eqb c 32 || N.eqb c 160 || N.eqb c 5760
  || (N.leb 8192 c && N.leb c 8202) || N.eqb c 8232 || N.eqb c 8233
  || N.eqb c 8239 || N.eqb c 8287 || N.eqb c 12288 || N.eqb c 65279.

Fixpoint trimStart (s : str) : str :=
  match s with
  | c :: s' => if is_js_space c then trimStart s' else s
  | [] => []
  end.

Definition trimEnd (s : str) : str := rev (trimStart (rev s)).

Definition trim (s : str) : str := trimEnd (trimStart s).

Definition str_eqb (a b : str) : bool := bool_decide (a = b).

(** ** JSON values *)

(** The values [JSON.parse] builds.  A number keeps the spelling of its
    literal: the double it denotes is computed where [JSON.stringify]
    writes it (see [number_text]); the other numeric coercions of the
    engine are parameters of the development (see [Engine]). *)
Inductive json : Type :=
| JNull
| JBool (b : bool)
| JNum (literal : str)
| JStr (s : str)
| JArr (items : list json)
| JObj (members : list (str * json)).

(** A possibly undefined value: [None] is [undefined]. *)
Abbreviation jsval := (option json).

(** *** Property order of an ordinary object *)

Definition is_digit (c : N) : bool := N.leb 48 c && N.leb c 57.

Fixpoint digits_value (acc : N) (s : str) : N :=
  match s with
  | c :: s' => digits_value (acc * 10 + (c - 48)) s'
  | [] => acc
  end.

(** An array index: the canonical decimal spelling of an integer below
    2^32 - 1.  Such keys come first, in ascending order. *)
Definition array_index (k : str) : option N :=
  match k with
  | [] => None
  | c :: k' =>
      if forallb is_digit k
         && (negb (N.eqb c 48) || match k' with [] => true | _ => false end)
         && Nat.leb (length k) 10
         && N.ltb (digits_value 0 k) 4294967295
      then Some (digits_value 0 k) else None
  end.

Fixpoint insert_index (i : N) (k : str) (v : json) (ms : list (str * json))
  : list (str * json) :=
  match ms with
  | [] => [(k, v)]
  | (k', v') :: ms' =>
      match array_index k' with
      | Some j => if N.ltb i j then (k, v) :: ms
                  else (k', v') :: insert_index i k v ms'
      | None => (k, v) :: ms
      end
  end.

Fixpoint replace_member (k : str) (v : json) (ms : list (str * json))
  : option (list (str * json)) :=
  match ms with
  | [] => None
  | (k', v') :: ms' =>
      if str_eqb k' k then Some ((k', v) :: ms')
      else match replace_member k v ms' with
           | Some r => Some ((k', v') :: r)
           | None => None
           end
  end.

(** CreateDataProperty on an ordinary object: an existing key keeps its
    place and takes the new value; a new key is ordered after the keys
    already there, array indices first. *)
Definition define_member (ms : list (str * json)) (kv : str * json)
  : list (str * json) :=
  let (k, v) := kv in
  match replace_member k v ms with
  | Some r => r
  | None =>
      match array_index k with
      | Some i => insert_index i k v ms
      | None => ms ++ [(k, v)]
      end
  end.

Definition build_object (ms : list (str * json)) : list (str * json) :=
  fold_left define_member ms [].

Fixpoint get_member (k : str) (ms : list (str * json)) : jsval :=
  match ms with
  | [] => None
  | (k', v) :: ms' => if str_eqb k' k then Some v else get_member k ms'
  end.

(** ** JSON.parse *)

Definition is_json_space (c : N) : bool :=
  N.eqb c 9 || N.eqb c 10 || N.eqb c 13 || N.eqb c 32.

Fixpoint skip_ws (s : str) : str :=
  match s with
  | c :: s' => if is_json_space c then skip_ws s' else s
  | [] => []
  end.

Definition hex_value (c : N) : option N :=
  if is_digit c then Some (c - 48)
  else if N.leb 97 c && N.leb c 102 then Some (c - 87)
  else if N.leb 65 c && N.leb c 70 then Some (c - 55)
  else None.

Definition hex4 (a b c d : N) : option N :=
  match hex_value a, hex_value b, hex_value c, hex_value d with
  | Some x, Some y, Some z, Some w => Some (((x * 16 + y) * 16 + z) * 16 + w)
  | _, _, _, _ => None
  end.

Definition simple_escape (e : N) : option N :=
  if N.eqb e 34 then Some 34
  else if N.eqb e 92 then Some 92
  else if N.eqb e 47 then Some 47
  else if N.eqb e 98 then Some 8
  else if N.eqb e 102 then Some 12
  else if N.eqb e 110 then Some 10
  else if N.eqb e 114 then Some 13
  else if N.eqb e 116 then Some 9
  else None.

(** The characters of a string literal after its opening quote, up to and
    including the closing quote. *)
Fixpoint lex_string (s : str) : option (str * str) :=
  match s with
  | [] => None
  | c :: s' =>
      if N.eqb c 34 then Some ([], s')
      else if N.eqb c 92 then
        match s' with
        | [] => None
        | e :: s'' =>
            if N.eqb e 117 then
              match s'' with
              | a :: b :: c' :: d :: s5 =>
                  match hex4 a b c' d with
                  | Some u =>
                      match lex_string s5 with
                      | Some (t, r) => Some (u :: t, r)
                      | None => None
                      end
                  | None => None
                  end
              | _ => None
              end
            else
              match simple_escape e with
              | Some u =>
                  match lex_string s'' with
                  | Some (t, r) => Some (u :: t, r)
                  | None => None
                  end
              | None => None
              end
        end
      else if N.ltb c 32 then None
      else match lex_string s' with
           | Some (t, r) => Some (c :: t, r)
           | None => None
           end
  end.

Fixpoint span_digits (s : str) : str * str :=
  match s with
  | c :: s' => if is_digit c then let (d, r) := span_digits s' in (c :: d, r)
               else ([], s)
  | [] => ([], [])
  end.

(** The integer part: a single zero, or a non-zero digit and more digits. *)
Definition lex_int (s : str) : option (str * str) :=
  match s with
  | c :: s' =>
      if N.eqb c 48 then Some ([c], s')
      else if is_digit c then let (d, r) := span_digits s' in Some (c :: d, r)
      else None
  | [] => None
  end.

(** The text after the character [c], when the text starts with it. *)
Definition expect (c : N) (s : str) : option str :=
  match s with
  | c' :: s' => if N.eqb c c' then Some s' else None
  | [] => None
  end.

Definition lex_frac (s : str) : option (str * str) :=
  match expect 46 s with
  | Some s' =>
      match span_digits s' with
      | ([], _) => None
      | (d, r) => Some (46 :: d, r)
      end
  | None => Some ([], s)
  end.

Definition lex_exp (s : str) : option (str * str) :=
  match s with
  | e :: s' =>
      if N.eqb e 101 || N.eqb e 69 then
        let (sign, s'') :=
          match s' with
          | g :: t => if N.eqb g 43 || N.eqb g 45 then ([g], t) else ([], s')
          | [] => ([], s')
          end in
        match span_digits s'' with
        | ([], _) => None
        | (d, r) => Some (e :: sign ++ d, r)
        end
      else Some ([], s)
  | [] => Some ([], s)
  end.

(** A number literal and the text after it. *)
Definition lex_number (s : str) : option (str * str) :=
  let (sign, s1) :=
    match expect 45 s with
    | Some t => ([45], t)
    | None => ([], s)
    end in
  match lex_int s1 with
  | Some (i, s2) =>
      match lex_frac s2 with
      | Some (f, s3) =>
          match lex_exp s3 with
          | Some (e, s4) => Some (sign ++ i ++ f ++ e, s4)
          | None => None
          end
      | None => None
      end
  | None => None
  end.

Fixpoint strip_prefix (p s : str) : option str :=
  match p, s with
  | [], _ => Some s
  | a :: p', b :: s' => if N.eqb a b then strip_prefix p' s' else None
  | _ :: _, [] => None
  end.

(** The outcome of parsing a prefix of the text: a value and the rest, a
    syntax error, or not enough fuel. *)
Inductive presult (A : Type) : Type :=
| POk (a : A) (rest : str)
| PErr
| PFuel.
Arguments POk {A} a rest.
Arguments PErr {A}.
Arguments PFuel {A}.

Fixpoint parse_value (fuel : nat) (s : str) : presult json :=
  match fuel with
  | O => PFuel
  | S fuel =>
      match skip_ws s with
      | [] => PErr
      | c :: r =>
          if N.eqb c 123 then
            match expect 125 (skip_ws r) with
            | Some r' => POk (JObj []) r'
            | None =>
                match parse_members fuel r with
                | POk ms r' => POk (JObj (build_object ms)) r'
                | PErr => PErr
                | PFuel => PFuel
                end
            end
          else if N.eqb c 91 then
            match expect 93 (skip_ws r) with
            | Some r' => POk (JArr []) r'
            | None =>
                match parse_elements fuel r with
                | POk vs r' => POk (JArr vs) r'
                | PErr => PErr
                | PFuel => PFuel
                end
            end
          else if N.eqb c 34 then
            match lex_string r with
            | Some (t, r') => POk (JStr t) r'
            | None => PErr
            end
          else if N.eqb c 116 then
            match strip_prefix (lit "rue") r with
            | Some r' => POk (JBool true) r'
            | None => PErr
            end
          else if N.eqb c 102 then
            match strip_prefix (lit "alse") r with
            | Some r' => POk (JBool false) r'
            | None => PErr
            end
          else if N.eqb c 110 then
            match strip_prefix (lit "ull") r with
            | Some r' => POk JNull r'
            | None => PErr
            end
          else
            match lex_number (c :: r) with
            | Some (n, r') => POk (JNum n) r'
            | None => PErr
            end
      end
  end

(** The elements of an array after its opening bracket or a comma, up to
    and including the closing bracket. *)
with parse_elements (fuel : nat) (s : str) : presult (list json) :=
  match fuel with
  | O => PFuel
  | S fuel =>
      match parse_value fuel s with
      | POk v r =>
          match skip_ws r with
          | c :: r' =>
              if N.eqb c 44 then
                match parse_elements fuel r' with
                | POk vs r'' => POk (v :: vs) r''
                | PErr => PErr
                | PFuel => PFuel
                end
              else if N.eqb c 93 then POk [v] r'
              else PErr
          | [] => PErr
          end
      | PErr => PErr
      | PFuel => PFuel
      end
  end

(** The members of an object after its opening brace or a comma, up to and
    including the closing brace, in the order of the text. *)
with parse_members (fuel : nat) (s : str) : presult (list (str * json)) :=
  match fuel with
  | O => PFuel
  | S fuel =>
      match expect 34 (skip_ws s) with
      | Some r =>
          match lex_string r with
          | Some (k, r1) =>
              match expect 58 (skip_ws r1) with
              | Some r2 =>
                  match parse_value fuel r2 with
                  | POk v r3 =>
                      match skip_ws r3 with
                      | c :: r4 =>
                          if N.eqb c 44 then
                            match parse_members fuel r4 with
                            | POk ms r5 => POk ((k, v) :: ms) r5
                            | PErr => PErr
                            | PFuel => PFuel
                            end
                          else if N.eqb c 125 then POk [(k, v)] r4
                          else PErr
                      | [] => PErr
                      end
                  | PErr => PErr
                  | PFuel => PFuel
                  end
              | None => PErr
              end
          | None => PErr
          end
      | None => PErr
      end
  end.

Definition parse_fuel (s : str) : nat := (2 * length s + 2)%nat.

(** [JSON.parse text]: [None] is a SyntaxError. *)
Definition JSON_parse (s : str) : option json :=
  match parse_value (parse_fuel s) s with
  | POk v r => match skip_ws r with [] => Some v | _ => None end
  | _ => None
  end.

(** ** JSON.stringify(value, null, 2) *)

Definition hex_digit (n : N) : N := if N.ltb n 10 then 48 + n else 87 + n.

(** [\uXXXX] with lower-case digits. *)
Definition unicode_escape (c : N) : str :=
  [92; 117; hex_digit (c / 4096 mod 16); hex_digit (c / 256 mod 16);
   hex_digit (c / 16 mod 16); hex_digit (c mod 16)].

Definition is_high_surrogate (c : N) : bool := N.leb 55296 c && N.leb c 56319.
Definition is_low_surrogate (c : N) : bool := N.leb 56320 c && N.leb c 57343.

Definition quote_unit (c : N) : str :=
  if N.eqb c 8 then [92; 98]
  else if N.eqb c 9 then [92; 116]
  else if N.eqb c 10 then [92; 110]
  else if N.eqb c 12 then [92; 102]
  else if N.eqb c 13 then [92; 114]
  else if N.eqb c 34 then [92; 34]
  else if N.eqb c 92 then [92; 92]
  else if N.ltb c 32 || is_high_surrogate c || is_low_surrogate c
       then unicode_escape c
  else [c].

(** QuoteJSONString walks the code points of the string: a surrogate pair
    is copied, a lone surrogate is escaped. *)
Fixpoint quote_body (s : str) : str :=
  match s with
  | [] => []
  | c :: s' =>
      if is_high_surrogate c then
        match s' with
        | d :: s'' =>
            if is_low_surrogate d then c :: d :: quote_body s''
            else unicode_escape c ++ quote_body s'
        | [] => unicode_escape c
        end
      else quote_unit c ++ quote_body s'
  end.

Definition QuoteJSONString (s : str) : str := 34 :: quote_body s ++ [34].

Definition indent_text (n : nat) : str := repeat 32 n.

Fixpoint join (sep : str) (parts : list str) : str :=
  match parts with
  | [] => []
  | p :: ps =>
      match ps with
      | [] => p
      | _ :: _ => p ++ sep ++ join sep ps
      end
  end.

(** *** Number::toString *)

(** What a number literal denotes: [m * 10 ^ e], negated when the flag is
    set. *)
Definition decimal_of_literal (n : str) : bool * N * Z :=
  let (negative, body) :=
    match n with
    | c :: r => if N.eqb c 45 then (true, r) else (false, n)
    | [] => (false, n)
    end in
  let (int, r1) := span_digits body in
  let (frac, r2) :=
    match r1 with
    | c :: r => if N.eqb c 46 then span_digits r else ([], r1)
    | [] => ([], r1)
    end in
  let e :=
    match r2 with
    | c :: r =>
        if N.eqb c 101 || N.eqb c 69 then
          match r with
          | g :: ds =>
              if N.eqb g 45 then (- Z.of_N (digits_value 0 ds))%Z
              else if N.eqb g 43 then Z.of_N (digits_value 0 ds)
              else Z.of_N (digits_value 0 r)
          | [] => 0%Z
          end
        else 0%Z
    | [] => 0%Z
    end in
  (negative, digits_value 0 (int ++ frac), (e - Z.of_nat (List.length frac))%Z).

(** The fraction [num / den] multiplied by [b ^ k], for any integer [k]. *)
Definition scaled (b : N) (k : Z) (num den : N) : N * N :=
  if Z.leb 0 k then (num * b ^ Z.to_N k, den)
  else (num, den * b ^ Z.to_N (- k)).

(** The integer nearest to [num / den], the even one of two. *)
Definition round_half_even (num den : N) : N :=
  let q := num / den in
  match 2 * (num mod den) ?= den with
  | Lt => q
  | Gt => q + 1
  | Eq => if N.even q then q else q + 1
  end.

(** The double nearest to the positive fraction [num / den], as [(q, k)]
    for [q * 2 ^ k]: [2^52 <= q < 2^53], or [q < 2^52] and [k = -1074];
    [None] is Infinity. *)
Definition to_double (num den : N) : option (N * Z) :=
  if N.eqb num 0 then Some (0, (-1074)%Z) else
  let k0 := (Z.of_N (N.log2 num) - Z.of_N (N.log2 den) - 52)%Z in
  let (n0, d0) := scaled 2 (- k0) num den in
  let k1 := if N.ltb n0 (d0 * 2 ^ 52) then (k0 - 1)%Z else k0 in
  let k := Z.max k1 (-1074) in
  let (n1, d1) := scaled 2 (- k) num den in
  let q := round_half_even n1 d1 in
  let (q', k') := if N.eqb q (2 ^ 53) then (2 ^ 52, (k + 1)%Z) else (q, k) in
  if Z.ltb 971 k' then None else Some (q', k').

(** Whether [10 ^ e <= num / den]. *)
Definition at_least_pow10 (e : Z) (num den : N) : bool :=
  let (n, d) := scaled 10 (- e) num den in N.leb d n.

(** The [n] with [10 ^ (n - 1) <= num / den < 10 ^ n], for a positive
    fraction, from an estimate by the binary logarithm. *)
Definition decimal_exponent (num den : N) : Z :=
  let est :=
    ((Z.of_N (N.log2 num) - Z.of_N (N.log2 den)) * 30103 / 100000)%Z in
  let fix up (fuel : nat) (e : Z) : Z :=
    match fuel with
    | O => e
    | S fuel' => if at_least_pow10 (e + 1) num den then up fuel' (e + 1)%Z else e
    end in
  (up 6%nat (est - 2) + 1)%Z.

(** The decimal digits of [s], [k] of them. *)
Definition decimal_digits (k : nat) (s : N) : str :=
  List.map (fun i => 48 + (s / 10 ^ N.of_nat (k - 1 - i)) mod 10) (seq 0 k).

(** The number of decimal digits of [m]; none for zero. *)
Definition decimal_length (m : N) : nat :=
  (fix count (fuel : nat) (m : N) : nat :=
     match fuel with
     | O => O
     | S fuel' => if N.eqb m 0 then O else S (count fuel' (m / 10))
     end) (N.size_nat m) m.

(** The [k]-digit decimals next to the double [x = q * 2 ^ e2], below and
    above, with their decimal exponents; [n] is the exponent of [x]. *)
Definition neighbours (k : nat) (n : Z) (num den : N) : (N * Z) * (N * Z) * bool :=
  let (yn, yd) := scaled 10 (Z.of_nat k - n) num den in
  let lo := yn / yd in
  let hi := if N.eqb (lo + 1) (10 ^ N.of_nat k)
            then (10 ^ N.of_nat (k - 1), (n + 1)%Z) else (lo + 1, n) in
  let nearer_lo :=
    match 2 * yn ?= (2 * lo + 1) * yd with
    | Lt => true
    | Gt => false
    | Eq => N.even lo
    end in
  ((lo, n), hi, nearer_lo).

(** Whether the decimal [s * 10 ^ (n - k)] denotes the double [x]. *)
Definition denotes (x : N * Z) (k : nat) (sn : N * Z) : bool :=
  let (num, den) := scaled 10 (snd sn - Z.of_nat k) (fst sn) 1 in
  match to_double num den with
  | Some y => N.eqb (fst y) (fst x) && Z.eqb (snd y) (snd x)
  | None => false
  end.

(** The digits [s], their number [k] and the exponent [n] of
    Number::toString: [k] as small as possible, [s] as near to the double
    as possible. *)
Definition shortest (x : N * Z) : nat * N * Z :=
  let (num, den) := scaled 2 (snd x) (fst x) 1 in
  let n := decimal_exponent num den in
  let fix search (ks : list nat) : nat * N * Z :=
    match ks with
    | [] => (17%nat, fst (fst (fst (neighbours 17 n num den))), n)
    | k :: ks' =>
        let '(lo, hi, nearer_lo) := neighbours k n num den in
        match denotes x k lo, denotes x k hi with
        | true, true => if nearer_lo then (k, fst lo, snd lo) else (k, fst hi, snd hi)
        | true, false => (k, fst lo, snd lo)
        | false, true => (k, fst hi, snd hi)
        | false, false => search ks'
        end
    end in
  search (seq 1 17).

(** The decimal text of an integer that is not negative. *)
Definition integer_text (z : Z) : str :=
  match Z.to_N z with
  | 0 => [48]
  | m => decimal_digits (decimal_length m) m
  end.

(** Number::toString for a positive finite double, from its digits. *)
Definition layout (k : nat) (s : N) (n : Z) : str :=
  let digits := decimal_digits k s in
  let kz := Z.of_nat k in
  if Z.leb kz n && Z.leb n 21 then digits ++ repeat 48 (Z.to_nat (n - kz))
  else if Z.ltb 0 n && Z.leb n 21 then
    firstn (Z.to_nat n) digits ++ [46] ++ skipn (Z.to_nat n) digits
  else if Z.ltb (-6) n && Z.leb n 0 then
    [48; 46] ++ repeat 48 (Z.to_nat (- n)) ++ digits
  else
    firstn 1 digits
    ++ match skipn 1 digits with
       | [] => []
       | more => 46 :: more
       end
    ++ [101; (if Z.ltb 0 (n - 1) then 43 else 45)]
    ++ integer_text (Z.abs (n - 1)).

(** What [JSON.stringify] writes for the number a literal denotes: the
    shortest decimal that denotes the same double, [0] for both zeros and
    [null] for a number that is not finite. *)
Definition number_text (literal : str) : str :=
  let '(negative, m, e) := decimal_of_literal literal in
  let size := (e + Z.of_nat (decimal_length m))%Z in
  if N.eqb m 0 || Z.ltb size (-330) then [48]
  else if Z.ltb 310 size then [110; 117; 108; 108]
  else
    let (num, den) := scaled 10 e m 1 in
    match to_double num den with
    | None => [110; 117; 108; 108]
    | Some (q, k2) =>
        if N.eqb q 0 then [48]
        else
          let '(k, s, n) := shortest (q, k2) in
          (if negative then [45] else []) ++ layout k s n
    end.

(** A non-empty array or object at indentation [indent]: the parts one per
    line, two spaces deeper, between the brackets [o] and [c]. *)
Definition block (o c : N) (indent : nat) (parts : list str) : str :=
  match parts with
  | [] => [o; c]
  | _ :: _ =>
      o :: 10 :: indent_text (indent + 2)
        ++ join (44 :: 10 :: indent_text (indent + 2)) parts
        ++ 10 :: indent_text indent ++ [c]
  end.

(** SerializeJSONProperty with gap of two spaces. *)
Fixpoint serialize (indent : nat) (v : json) : str :=
  match v with
  | JNull => lit "null"
  | JBool true => lit "true"
  | JBool false => lit "false"
  | JNum n => number_text n
  | JStr s => QuoteJSONString s
  | JArr items =>
      block 91 93 indent (List.map (serialize (indent + 2)) items)
  | JObj members =>
      block 123 125 indent
        (List.map (fun kv => QuoteJSONString (fst kv) ++ [58; 32]
                             ++ serialize (indent + 2) (snd kv)) members)
  end.

Definition JSON_stringify (v : json) : str := serialize 0 v.

(** ** Records and timesheets as the callers build them *)

Inductive LogSource : Type := manual | clipboard | activeInputCapture.

Definition LogSource_text (s : LogSource) : str :=
  match s with
  | manual => lit "manual"
  | clipboard => lit "clipboard"
  | activeInputCapture => lit "activeInputCapture"
  end.

Record LogEntry : Type := {
  timestamp : str;
  description : str;
  aiPrompt : str;
  file : str;
  method : str;
  codeContextSnippetHash : str;
  summary : str;
  source : LogSource
}.

(** The object the object literal of [logActivity] and
    [captureAIPromptAndLog] creates, properties in the order written. *)
Definition LogEntry_value (e : LogEntry) : json :=
  JObj [ (lit "timestamp", JStr (timestamp e));
         (lit "description", JStr (description e));
         (lit "aiPrompt", JStr (aiPrompt e));
         (lit "file", JStr (file e));
         (lit "method", JStr (method e));
         (lit "codeContextSnippetHash", JStr (codeContextSnippetHash e));
         (lit "summary", JStr (summary e));
         (lit "source", JStr (LogSource_text (source e))) ].

Definition LogEntries_value (es : list LogEntry) : json :=
  JArr (List.map LogEntry_value es).

Record TimesheetEntry : Type := { task : str; start : str; end_ : str }.
Record TimesheetCategory : Type :=
  { category : str; entries : list TimesheetEntry }.
Record Timesheet : Type := { date : str; tasks : list TimesheetCategory }.

Definition TimesheetEntry_value (e : TimesheetEntry) : json :=
  JObj [ (lit "task", JStr (task e)); (lit "start", JStr (start e));
         (lit "end", JStr (end_ e)) ].

Definition TimesheetCategory_value (c : TimesheetCategory) : json :=
  JObj [ (lit "category", JStr (category c));
         (lit "entries", JArr (List.map TimesheetEntry_value (entries c))) ].

Definition Timesheet_value (t : Timesheet) : json :=
  JObj [ (lit "date", JStr (date t));
         (lit "tasks", JArr (List.map TimesheetCategory_value (tasks t))) ].

(** ** Thrown values *)

(** A path is the list of its components below the root;
    [path.dirname] drops the last one. *)
Abbreviation path := (list str).

Definition dirname (p : path) : path := removelast p.

Inductive errno : Type := ENOENT | ENOTDIR | EISDIR | EEXIST.

(** The Error objects the program can see.  The two wrappers stand for the
    [new Error] of [readLogFile] and of [generateTimesheetFromLogs], whose
    message embeds the text of the error caught. *)
Inductive exn : Type :=
| SyntaxError
| TypeError
| SystemError (code : errno) (p : path)
| ServiceError (message : str)
| AllModelsFailed
| LogParseError (filePath : path) (cause : exn)
| TimesheetError (cause : exn).

Inductive completion (A : Type) : Type :=
| Normal (a : A)
| Throw (e : exn).
Arguments Normal {A} a.
Arguments Throw {A} e.

(** ** The file system *)

Inductive node : Type := File (content : str) | Dir.

(** The root is always a directory. *)
Definition node_at (d : gmap path node) (p : path) : option node :=
  match p with
  | [] => Some Dir
  | _ :: _ => d !! p
  end.

(** What a string becomes when it is encoded as UTF-8 and decoded again:
    a surrogate that is not part of a pair is replaced by U+FFFD. *)
Fixpoint toWellFormed (s : str) : str :=
  match s with
  | [] => []
  | c :: s' =>
      if is_high_surrogate c then
        match s' with
        | d :: s'' =>
            if is_low_surrogate d then c :: d :: toWellFormed s''
            else 65533 :: toWellFormed s'
        | [] => [65533]
        end
      else if is_low_surrogate c then 65533 :: toWellFormed s'
      else c :: toWellFormed s'
  end.

(** [fs.mkdirSync(p, { recursive: true })], one component at a time from
    the directory [base].  A file in the way is an error that names the
    path asked for, [base ++ todo]. *)
Fixpoint mkdir_from (d : gmap path node) (base todo : path)
  : completion unit * gmap path node :=
  match todo with
  | [] => (Normal tt, d)
  | c :: todo' =>
      let p := base ++ [c] in
      match node_at d p with
      | Some (File _) =>
          (Throw (SystemError (match todo' with [] => EEXIST | _ => ENOTDIR end)
                              (base ++ todo)), d)
      | Some Dir => mkdir_from d p todo'
      | None => mkdir_from (<[p := Dir]> d) p todo'
      end
  end.

(** ** The interfaces the program is run against *)

(** The engine's builtins that depend on the double a value denotes:
    [new Date(v).getTime()] for a defined [v] ([None] is NaN), [n === 0]
    for a number literal [n], and the property key
    [ToString(ToNumber(v) - 1)]. *)
Class Engine : Type := {
  Date_time : json -> option Z;
  Number_is_zero : str -> bool;
  Number_pred_key : json -> str
}.

(** The generation service: one [generateContent] request of the model
    [modelName] built for [apiKey], followed by [result.response.text()].
    It answers with a text or throws, and may change its own state. *)
Class Service : Type := {
  Remote : Type;
  generateContent : str -> str -> str -> Remote -> (exn + str) * Remote
}.

(** ** The program *)

Section Program.

Context {engine : Engine} {service : Service}.

Record Request : Type :=
  { req_apiKey : str; req_model : str; req_prompt : str }.

Inductive ConsoleLine : Type :=
| warn_model_failed (modelName : str) (err : exn)
| error_summarizeCode (err : exn)
| error_generateTimesheetFromLogs (err : exn).

Inductive Notification : Type :=
| ErrNoWorkspace
| ErrNoLogFile (dateStr : str)
| ErrCouldNotRead (err : exn)
| WarnEmptyLog (dateStr : str)
| InfoKeySaved
| ErrKeyRequired
| ErrGenerationFailed (err : exn)
| ErrNoOutputPath
| ErrSaveFailed (err : exn)
| InfoSaved (basename : str)
| OpenedDocument (p : path).

(** Everything the program reads or changes.  [requests], [console] and
    [notifications] are kept oldest first. *)
Record World : Type := {
  disk : gmap path node;
  clock : Z;
  remote : Remote;
  requests : list Request;
  console : list ConsoleLine;
  secret : option str;
  notifications : list Notification
}.

Definition set_disk (f : gmap path node -> gmap path node) (w : World) :=
  {| disk := f (disk w); clock := clock w; remote := remote w;
     requests := requests w; console := console w; secret := secret w;
     notifications := notifications w |}.

Definition set_remote (r : Remote) (q : Request) (w : World) :=
  {| disk := disk w; clock := clock w; remote := r;
     requests := requests w ++ [q]; console := console w;
     secret := secret w; notifications := notifications w |}.

Definition add_console (l : ConsoleLine) (w : World) :=
  {| disk := disk w; clock := clock w; remote := remote w;
     requests := requests w; console := console w ++ [l];
     secret := secret w; notifications := notifications w |}.

Definition set_secret (k : str) (w : World) :=
  {| disk := disk w; clock := clock w; remote := remote w;
     requests := requests w; console := console w; secret := Some k;
     notifications := notifications w |}.

Definition add_notification (n : Notification) (w : World) :=
  {| disk := disk w; clock := clock w; remote := remote w;
     requests := requests w; console := console w; secret := secret w;
     notifications := notifications w ++ [n] |}.

(** A computation: a completion and the world it leaves. *)
Definition M (A : Type) : Type := World -> completion A * World.

Definition ret {A} (a : A) : M A := fun w => (Normal a, w).
Definition throw {A} (e : exn) : M A := fun w => (Throw e, w).
Definition bind {A B} (m : M A) (k : A -> M B) : M B :=
  fun w => match m w with
           | (Normal a, w') => k a w'
           | (Throw e, w') => (Throw e, w')
           end.
Definition try_catch {A} (m : M A) (h : exn -> M A) : M A :=
  fun w => match m w with
           | (Normal a, w') => (Normal a, w')
           | (Throw e, w') => h e w'
           end.
Definition lift {A} (c : completion A) : M A := fun w => (c, w).

Notation "x <- m ;; k" := (bind m (fun x => k))
  (at level 100, m at next level, right associativity).
Notation "m ;;; k" := (bind m (fun _ => k))
  (at level 100, right associativity).

(** *** The engine and the host *)

Definition JSON_parse_or_throw (text : str) : M json :=
  match JSON_parse text with
  | Some v => ret v
  | None => throw SyntaxError
  end.

Definition existsSync (p : path) : M bool :=
  fun w => (Normal (bool_decide (is_Some (node_at (disk w) p))), w).

Definition readFileSync (p : path) : M str :=
  fun w => match node_at (disk w) p with
           | Some (File content) => (Normal content, w)
           | Some Dir => (Throw (SystemError EISDIR p), w)
           | None => (Throw (SystemError ENOENT p), w)
           end.

(** Writing needs the parent to be a directory; it creates or replaces
    the file and nothing else. *)
Definition writeFileSync (p : path) (data : str) : M unit :=
  fun w => match node_at (disk w) p with
           | Some Dir => (Throw (SystemError EISDIR p), w)
           | _ =>
               match node_at (disk w) (dirname p) with
               | Some Dir =>
                   (Normal tt, set_disk (fun d => <[p := File (toWellFormed data)]> d) w)
               | Some (File _) => (Throw (SystemError ENOTDIR p), w)
               | None => (Throw (SystemError ENOENT p), w)
               end
           end.

Definition mkdirSync_recursive (p : path) : M unit :=
  fun w => let (r, d) := mkdir_from (disk w) [] p in
           (r, set_disk (fun _ => d) w).

Definition Date_now : M Z := fun w => (Normal (clock w), w).

Definition console_log (l : ConsoleLine) : M unit :=
  fun w => (Normal tt, add_console l w).

Definition notify (n : Notification) : M unit :=
  fun w => (Normal tt, add_notification n w).

(** [x.k] for a key [k] that no prototype defines. *)
Definition get_prop (x : jsval) (k : str) : completion jsval :=
  match x with
  | None | Some JNull => Throw TypeError
  | Some (JObj ms) => Normal (get_member k ms)
  | Some _ => Normal None
  end.

(** [v.length === 0]. *)
Definition length_is_zero (v : json) : completion bool :=
  match v with
  | JNull => Throw TypeError
  | JArr items => Normal (match items with [] => true | _ => false end)
  | JStr s => Normal (match s with [] => true | _ => false end)
  | JObj ms =>
      Normal (match get_member (lit "length") ms with
              | Some (JNum n) => Number_is_zero n
              | _ => false
              end)
  | JBool _ | JNum _ => Normal false
  end.

(** [v[v.length - 1]] for a [v] that has a [length] to read. *)
Definition last_element (v : json) : jsval :=
  match v with
  | JArr items => last items
  | JStr s => match last s with Some c => Some (JStr [c]) | None => None end
  | JObj ms =>
      match get_member (lit "length") ms with
      | Some l => get_member (Number_pred_key l) ms
      | None => get_member (lit "NaN") ms
      end
  | JNull | JBool _ | JNum _ => None
  end.

(** [a ?? b]. *)
Definition nullish_or (a b : jsval) : jsval :=
  match a with
  | None | Some JNull => b
  | Some _ => a
  end.

(** [x !== s] for a string [s]. *)
Definition strict_ne_string (x : jsval) (s : str) : bool :=
  match x with
  | Some (JStr t) => negb (str_eqb t s)
  | _ => true
  end.

(** [new Date(x).getTime()]; [None] is NaN. *)
Definition Date_getTime (x : jsval) : option Z :=
  match x with
  | Some v => Date_time v
  | None => None
  end.

(** *** utils/fsHelper.ts *)

Definition ensureDir (dirPath : path) : M unit :=
  mkdirSync_recursive dirPath.

Definition readLogFile (filePath : path) : M json :=
  ex <- existsSync filePath ;;
  if negb ex then ret (JArr [])
  else
    try_catch
      (content <- readFileSync filePath ;;
       let raw := trim content in
       match raw with
       | [] => ret (JArr [])
       | _ :: _ => JSON_parse_or_throw raw
       end)
      (fun err => throw (LogParseError filePath err)).

Definition writeLogFile (filePath : path) (entries : json) : M unit :=
  writeFileSync filePath (JSON_stringify entries).

(** [entries.push(entry)]. *)
Definition push (entries entry : json) : completion json :=
  match entries with
  | JArr items => Normal (JArr (items ++ [entry]))
  | _ => Throw TypeError
  end.

Definition appendLogEntry (filePath : path) (entry : LogEntry) : M unit :=
  ensureDir (dirname filePath) ;;;
  entries <- readLogFile filePath ;;
  entries' <- lift (push entries (LogEntry_value entry)) ;;
  writeLogFile filePath entries'.

Definition writeTimesheetFile (filePath : path) (timesheet : json) : M unit :=
  ensureDir (dirname filePath) ;;;
  writeFileSync filePath (JSON_stringify timesheet).

Definition fileExists (filePath : path) : M bool := existsSync filePath.

Definition TWO_MINUTES_MS : Z := 2 * 60 * 1000.

Definition isDuplicateEntry (filePath : path) (aiPrompt : str) : M bool :=
  entries <- readLogFile filePath ;;
  empty <- lift (length_is_zero entries) ;;
  if (empty : bool) then ret false
  else
    let last := last_element entries in
    p <- lift (get_prop last (lit "aiPrompt")) ;;
    d <- lift (match p with
               | None | Some JNull => get_prop last (lit "description")
               | Some _ => Normal p
               end) ;;
    let lastPrompt := nullish_or d (Some (JStr [])) in
    if strict_ne_string lastPrompt aiPrompt then ret false
    else
      t <- lift (get_prop last (lit "timestamp")) ;;
      let lastTime := Date_getTime t in
      now <- Date_now ;;
      ret (match lastTime with
           | Some lt => Z.ltb (now - lt) TWO_MINUTES_MS
           | None => false
           end).

(** *** utils/geminiHelper.ts *)

Definition FALLBACK_MODELS : list str :=
  [lit "gemini-3-flash-preview"; lit "gemini-2.5-pro"; lit "gemini-2.5-flash"].

(** [await getModel(apiKey, modelName).generateContent(prompt)] and
    [result.response.text()]; the request is recorded. *)
Definition model_generateContent (apiKey modelName prompt : str) : M str :=
  fun w =>
    let (r, rem) := generateContent apiKey modelName prompt (remote w) in
    let w' := set_remote rem {| req_apiKey := apiKey; req_model := modelName;
                                req_prompt := prompt |} w in
    match r with
    | inr text => (Normal text, w')
    | inl err => (Throw err, w')
    end.

(** The [for] loop of [generateContentWithFallback] over the models still
    to try, and the [throw] after it. *)
Fixpoint fallback_loop (apiKey prompt : str) (models : list str)
    (lastError : option exn) : M str :=
  match models with
  | [] =>
      throw (match lastError with
             | Some err => err
             | None => AllModelsFailed
             end)
  | modelName :: models' =>
      try_catch
        (text <- model_generateContent apiKey modelName prompt ;;
         ret (trim text))
        (fun err =>
           console_log (warn_model_failed modelName err) ;;;
           fallback_loop apiKey prompt models' (Some err))
  end.

Definition generateContentWithFallback (apiKey prompt : str)
    (models : list str) : M str :=
  fallback_loop apiKey prompt models None.

Definition NO_CONTEXT : str := lit "(no code context available)".
Definition SUMMARY_UNAVAILABLE : str := lit "(AI summary unavailable)".

Definition contextInstruction (taskDescription : option str) : str :=
  match taskDescription with
  | Some (c :: t) =>
      qlit "The user is currently executing the following task: '"
      ++ (c :: t)
      ++ qlit "'. Summarize how this code snippet relates to or facilitates this task in 1-2 concise sentences. If the code seems unrelated to the task, just summarize what the code does."
  | _ =>
      lit "Summarize the following code snippet in 1-2 concise sentences, focusing on what it does and any notable patterns."
  end.

Definition summary_prompt (codeSnippet : str) (taskDescription : option str)
  : str :=
  lit "You are a developer assistant. " ++ contextInstruction taskDescription
  ++ lit " Do not include code in your reply." ++ [10; 10]
  ++ lit "```" ++ [10] ++ codeSnippet ++ [10] ++ lit "```".

Definition summarizeCode (apiKey codeSnippet : str)
    (taskDescription : option str) : M str :=
  match trim codeSnippet with
  | [] => ret NO_CONTEXT
  | _ :: _ =>
      try_catch
        (generateContentWithFallback apiKey
           (summary_prompt codeSnippet taskDescription) FALLBACK_MODELS)
        (fun err =>
           console_log (error_summarizeCode err) ;;;
           ret SUMMARY_UNAVAILABLE)
  end.

Definition unlines (ls : list str) : str := join [10] ls.

Definition timesheet_prompt (logsText dateStr : str) : str :=
  unlines [
    lit "You are a project manager assistant. Given the following development activity log entries for "
      ++ dateStr ++ lit ", produce a structured daily timesheet in strict JSON format.";
    [];
    lit "Rules:";
    lit "1. Group entries into continuous task blocks. Each block should be under 1 hour.";
    lit "2. Merge repeated tasks (e.g. Task A " ++ [8594] ++ lit " Task B "
      ++ [8594] ++ lit " Task A merges into a single Task A block).";
    qlit "3. Assign a descriptive category to each group (e.g. 'Coding: Auth Feature', 'Debugging', 'Code Review').";
    lit "4. Infer start/end times from the timestamps of the log entries.";
    lit "5. Output ONLY valid JSON matching this exact schema " ++ [8212]
      ++ lit " no markdown, no explanation:";
    [];
    lit "{";
    qlit "  'date': 'YYYY-MM-DD',";
    qlit "  'tasks': [";
    lit "    {";
    qlit "      'category': 'string',";
    qlit "      'entries': [";
    qlit "        { 'task': 'string', 'start': 'HH:MM', 'end': 'HH:MM' }";
    lit "      ]";
    lit "    }";
    lit "  ]";
    lit "}";
    [];
    lit "Log entries:";
    logsText ].

Definition to_lower_ascii (c : N) : N :=
  if N.leb 65 c && N.leb c 90 then c + 32 else c.

(** [text.replace(/^```(?:json)?\s*/i, '')]. *)
Definition strip_open_fence (text : str) : str :=
  match strip_prefix (lit "```") text with
  | Some r =>
      trimStart
        (match strip_prefix (lit "json") (List.map to_lower_ascii (firstn 4 r)) with
         | Some _ => skipn 4 r
         | None => r
         end)
  | None => text
  end.

(** [text.replace(/\s*```$/i, '')]. *)
Definition strip_close_fence (text : str) : str :=
  match strip_prefix (lit "```") (rev text) with
  | Some r => rev (trimStart r)
  | None => text
  end.

Definition strip_fences (text : str) : str :=
  trim (strip_close_fence (strip_open_fence text)).

Definition generateTimesheetFromLogs (apiKey : str) (entries : json)
    (dateStr : str) : M json :=
  let logsText := JSON_stringify entries in
  let prompt := timesheet_prompt logsText dateStr in
  try_catch
    (text <- generateContentWithFallback apiKey prompt FALLBACK_MODELS ;;
     JSON_parse_or_throw (strip_fences text))
    (fun err =>
       console_log (error_generateTimesheetFromLogs err) ;;;
       throw (TimesheetError err)).

(** *** commands/generateTimesheet.ts *)

(** What the editor supplies to one run of the command. *)
Record Host : Type := {
  workspaceFolder : option path;
  logsPath_setting : option path;
  today : str;
  apiKey_input : option str;
  picks_open_file : bool
}.

Definition falsy (s : option str) : bool :=
  match s with
  | Some (_ :: _) => false
  | _ => true
  end.

Definition getOrPromptApiKey (h : Host) : M (option str) :=
  fun w =>
    if falsy (secret w) then
      if falsy (apiKey_input h) then (Normal None, w)
      else
        match apiKey_input h with
        | Some k => (Normal (Some k), add_notification InfoKeySaved (set_secret k w))
        | None => (Normal None, w)
        end
    else (Normal (secret w), w).

Definition resolveDayFilePath (h : Host) (dateStr suffix : str) : option path :=
  match workspaceFolder h with
  | None => None
  | Some root =>
      let logsPath := match logsPath_setting h with
                      | Some p => p
                      | None => [lit ".project-logs"]
                      end in
      Some (root ++ logsPath ++ [dateStr ++ lit "." ++ suffix ++ lit ".json"])
  end.

Definition basename (p : path) : str :=
  match last p with
  | Some c => c
  | None => []
  end.

(** A [try] block whose [catch] ends the command: the completion is handed
    to the continuation. *)
Definition attempt {A} (m : M A) : M (exn + A) :=
  fun w => match m w with
           | (Normal a, w') => (Normal (inr a), w')
           | (Throw e, w') => (Normal (inl e), w')
           end.

Definition generateTimesheet (h : Host) : M unit :=
  let dateStr := today h in
  match resolveDayFilePath h dateStr (lit "logs") with
  | None => notify ErrNoWorkspace
  | Some logFilePath =>
      ex <- fileExists logFilePath ;;
      if negb ex then notify (ErrNoLogFile dateStr)
      else
        r <- attempt (readLogFile logFilePath) ;;
        match r with
        | inl err => notify (ErrCouldNotRead err)
        | inr entries =>
            empty <- lift (length_is_zero entries) ;;
            if (empty : bool) then notify (WarnEmptyLog dateStr)
            else
              k <- getOrPromptApiKey h ;;
              if falsy k then notify ErrKeyRequired
              else
                let apiKey := default [] k in
                t <- attempt (generateTimesheetFromLogs apiKey entries dateStr) ;;
                match t with
                | inl err => notify (ErrGenerationFailed err)
                | inr timesheet =>
                    match resolveDayFilePath h dateStr (lit "timesheet") with
                    | None => notify ErrNoOutputPath
                    | Some timesheetPath =>
                        s <- attempt (writeTimesheetFile timesheetPath timesheet) ;;
                        match s with
                        | inl err => notify (ErrSaveFailed err)
                        | inr _ =>
                            notify (InfoSaved (basename timesheetPath)) ;;;
                            if picks_open_file h
                            then notify (OpenedDocument timesheetPath)
                            else ret tt
                        end
                    end
                end
        end
  end.

End Program.

(** ** The editor's side of the logging commands *)

(** *** Regular expressions *)

(** The patterns of [inferMethodName] use classes, sequences, ordered
    alternatives, greedy repetition and one capture group. *)
Inductive regex : Type :=
| Empty
| Class (p : N -> bool)
| Seq (a b : regex)
| Alt (a b : regex)
| Star (a : regex)
| Group (a : regex).

Fixpoint Word (s : str) : regex :=
  match s with
  | [] => Empty
  | c :: s' => Seq (Class (N.eqb c)) (Word s')
  end.

Definition Opt (a : regex) : regex := Alt a Empty.
Definition Plus (a : regex) : regex := Seq a (Star a).

(** The backtracking matcher of the engine: [a] is matched at the front of
    [s] and the continuation [k] is given the rest and the capture; an
    alternative or one repetition less is tried when [k] fails.  A
    repetition that consumes nothing is refused. *)
Fixpoint matcher {R : Type} (r : regex) (s : str) (cap : option str)
    (k : str -> option str -> option R) {struct r} : option R :=
  match r with
  | Empty => k s cap
  | Class p =>
      match s with
      | c :: s' => if p c then k s' cap else None
      | [] => None
      end
  | Seq a b => matcher a s cap (fun s' cap' => matcher b s' cap' k)
  | Alt a b =>
      match matcher a s cap k with
      | Some x => Some x
      | None => matcher b s cap k
      end
  | Star a =>
      (fix loop (n : nat) (s : str) (cap : option str) {struct n} : option R :=
         match n with
         | O => k s cap
         | S n' =>
             match matcher a s cap
                     (fun s' cap' =>
                        if Nat.ltb (length s') (length s)
                        then loop n' s' cap' else None) with
             | Some x => Some x
             | None => k s cap
             end
         end) (length s) s cap
  | Group a =>
      matcher a s cap
        (fun s' _ => k s' (Some (firstn (length s - length s') s)))
  end.

(** [pattern.exec(text)] without flags: the first position from which the
    pattern matches; the result is what group 1 captured. *)
Fixpoint exec (r : regex) (text : str) : option (option str) :=
  match matcher r text None (fun _ cap => Some cap) with
  | Some cap => Some cap
  | None =>
      match text with
      | [] => None
      | _ :: text' => exec r text'
      end
  end.

Definition is_upper (c : N) : bool := N.leb 65 c && N.leb c 90.
Definition is_lower (c : N) : bool := N.leb 97 c && N.leb c 122.

(** The first character of a name and the ones after it. *)
Definition ident_start (c : N) : bool :=
  is_upper c || is_lower c || N.eqb c 95 || N.eqb c 36.
Definition ident_part (c : N) : bool :=
  is_upper c || is_lower c || is_digit c || N.eqb c 95 || N.eqb c 36.

Definition space : regex := Class is_js_space.
Definition nonspace : regex := Class (fun c => negb (is_js_space c)).
Definition identifier : regex := Seq (Class ident_start) (Star (Class ident_part)).
Definition chr (c : N) : regex := Class (N.eqb c).
Definition word (s : string) : regex := Word (lit s).

Fixpoint sequence (rs : list regex) : regex :=
  match rs with
  | [] => Empty
  | [r] => r
  | r :: rs' => Seq r (sequence rs')
  end.

Fixpoint one_of (rs : list regex) : regex :=
  match rs with
  | [] => Class (fun _ => false)
  | [r] => r
  | r :: rs' => Alt r (one_of rs')
  end.

(** The first pattern: an optional [async] and white space, [function],
    white space, the name (group 1), optional white space and an opening
    parenthesis. *)
Definition pattern_function : regex :=
  sequence [ Opt (Seq (word "async") (Plus space));
        word "function"; Plus space; Group identifier; Star space; chr 40 ].

(** The second pattern: [const], [let] or [var], white space, the name
    (group 1), an equals sign with optional white space around it, an
    optional [async] with optional white space, and an opening
    parenthesis. *)
Definition pattern_binding : regex :=
  sequence [ one_of [word "const"; word "let"; word "var"]; Plus space;
        Group identifier; Star space; chr 61; Star space;
        Opt (Seq (word "async") (Star space)); chr 40 ].

(** The third pattern: any number of modifiers or white space, the name
    (group 1), optional white space, a parenthesized list without closing
    parenthesis inside, optional white space, an optional colon with a
    type that has no white space inside, and an opening brace. *)
Definition pattern_method : regex :=
  sequence [ Star (one_of [word "public"; word "private"; word "protected";
                   word "static"; word "async"; space]);
        Group identifier; Star space; chr 40;
        Star (Class (fun c => negb (N.eqb c 41))); chr 41; Star space;
        Opt (sequence [chr 58; Star space; Plus nonspace; Star space]);
        chr 123 ].

Definition patterns : list regex :=
  [pattern_function; pattern_binding; pattern_method].

(** The inner loop: the first pattern that matches with a group 1 that is
    not empty. *)
Fixpoint first_capture (ps : list regex) (text : str) : option str :=
  match ps with
  | [] => None
  | p :: ps' =>
      match exec p text with
      | Some (Some (c :: name)) => Some (c :: name)
      | _ => first_capture ps' text
      end
  end.

(** The outer loop, over the lines from the cursor's upwards. *)
Fixpoint scan_lines (upwards : list str) : str :=
  match upwards with
  | [] => []
  | text :: above =>
      match first_capture patterns text with
      | Some name => name
      | None => scan_lines above
      end
  end.

(** *** UTF-8 and SHA-256 *)

(** The bytes of one code point. *)
Definition utf8_code_point (n : N) : list N :=
  if N.ltb n 128 then [n]
  else if N.ltb n 2048 then [192 + n / 64; 128 + n mod 64]
  else if N.ltb n 65536 then
    [224 + n / 4096; 128 + (n / 64) mod 64; 128 + n mod 64]
  else [240 + n / 262144; 128 + (n / 4096) mod 64;
        128 + (n / 64) mod 64; 128 + n mod 64].

(** [Buffer.from(text, 'utf-8')]: a surrogate pair is one code point, a
    surrogate that is not part of a pair is written as U+FFFD. *)
Fixpoint utf8_encode (s : str) : list N :=
  match s with
  | [] => []
  | c :: s' =>
      if is_high_surrogate c then
        match s' with
        | d :: s'' =>
            if is_low_surrogate d
            then utf8_code_point (65536 + (c - 55296) * 1024 + (d - 56320))
                   ++ utf8_encode s''
            else [239; 191; 189] ++ utf8_encode s'
        | [] => [239; 191; 189]
        end
      else if is_low_surrogate c then [239; 191; 189] ++ utf8_encode s'
      else utf8_code_point c ++ utf8_encode s'
  end.

Definition word32 (n : N) : N := n mod 4294967296.

Definition rotr (k x : N) : N :=
  N.lor (N.shiftr x k) (word32 (N.shiftl x (32 - k))).

Definition Ch (x y z : N) : N :=
  N.lxor (N.land x y) (N.land (N.lxor x 4294967295) z).
Definition Maj (x y z : N) : N :=
  N.lxor (N.lxor (N.land x y) (N.land x z)) (N.land y z).
Definition Sigma0 (x : N) : N :=
  N.lxor (N.lxor (rotr 2 x) (rotr 13 x)) (rotr 22 x).
Definition Sigma1 (x : N) : N :=
  N.lxor (N.lxor (rotr 6 x) (rotr 11 x)) (rotr 25 x).
Definition sigma0 (x : N) : N :=
  N.lxor (N.lxor (rotr 7 x) (rotr 18 x)) (N.shiftr x 3).
Definition sigma1 (x : N) : N :=
  N.lxor (N.lxor (rotr 17 x) (rotr 19 x)) (N.shiftr x 10).

(** The round constants and the initial hash value of FIPS 180-4. *)
Definition sha256_K : list N :=
  [1116352408; 1899447441; 3049323471; 3921009573; 961987163; 1508970993;
   2453635748; 2870763221; 3624381080; 310598401; 607225278; 1426881987;
   1925078388; 2162078206; 2614888103; 3248222580; 3835390401; 4022224774;
   264347078; 604807628; 770255983; 1249150122; 1555081692; 1996064986;
   2554220882; 2821834349; 2952996808; 3210313671; 3336571891; 3584528711;
   113926993; 338241895; 666307205; 773529912; 1294757372; 1396182291;
   1695183700; 1986661051; 2177026350; 2456956037; 2730485921; 2820302411;
   3259730800; 3345764771; 3516065817; 3600352804; 4094571909; 275423344;
   430227734; 506948616; 659060556; 883997877; 958139571; 1322822218;
   1537002063; 1747873779; 1955562222; 2024104815; 2227730452; 2361852424;
   2428436474; 2756734187; 3204031479; 3329325298].

Record sha256_state : Type := {
  h_a : N; h_b : N; h_c : N; h_d : N; h_e : N; h_f : N; h_g : N; h_h : N
}.

Definition sha256_H0 : sha256_state :=
  {| h_a := 1779033703; h_b := 3144134277; h_c := 1013904242;
     h_d := 2773480762; h_e := 1359893119; h_f := 2600822924;
     h_g := 528734635; h_h := 1541459225 |}.

(** The message padded to a multiple of 64 bytes: a byte 128, zeros, and
    the length in bits as eight bytes, most significant first. *)
Definition big_endian (width : nat) (n : N) : list N :=
  List.map (fun i => (n / 256 ^ N.of_nat (width - 1 - i)) mod 256) (seq 0 width).

Definition sha256_pad (msg : list N) : list N :=
  let len := length msg in
  let zeros := ((119 - len mod 64) mod 64)%nat in
  msg ++ 128 :: repeat 0 zeros ++ big_endian 8 (8 * N.of_nat len).

(** The sixteen words of a block of 64 bytes. *)
Fixpoint words_of (n : nat) (bytes : list N) : list N :=
  match n with
  | O => []
  | S n' =>
      match bytes with
      | b0 :: b1 :: b2 :: b3 :: rest =>
          (((b0 * 256 + b1) * 256 + b2) * 256 + b3) :: words_of n' rest
      | _ => []
      end
  end.

(** The words 16 to 63 of the message schedule, from the sixteen before. *)
Fixpoint schedule (n : nat) (window : list N) : list N :=
  match n with
  | O => []
  | S n' =>
      let w := word32 (sigma1 (nth 14 window 0) + nth 9 window 0
                       + sigma0 (nth 1 window 0) + nth 0 window 0) in
      w :: schedule n' (tl window ++ [w])
  end.

Definition sha256_round (s : sha256_state) (kw : N * N) : sha256_state :=
  let t1 := h_h s + Sigma1 (h_e s) + Ch (h_e s) (h_f s) (h_g s)
            + fst kw + snd kw in
  let t2 := Sigma0 (h_a s) + Maj (h_a s) (h_b s) (h_c s) in
  {| h_a := word32 (t1 + t2); h_b := h_a s; h_c := h_b s; h_d := h_c s;
     h_e := word32 (h_d s + t1); h_f := h_e s; h_g := h_f s; h_h := h_g s |}.

Definition sha256_block (s : sha256_state) (block : list N) : sha256_state :=
  let w16 := words_of 16 block in
  let w := w16 ++ schedule 48 w16 in
  let t := fold_left sha256_round (combine sha256_K w) s in
  {| h_a := word32 (h_a s + h_a t); h_b := word32 (h_b s + h_b t);
     h_c := word32 (h_c s + h_c t); h_d := word32 (h_d s + h_d t);
     h_e := word32 (h_e s + h_e t); h_f := word32 (h_f s + h_f t);
     h_g := word32 (h_g s + h_g t); h_h := word32 (h_h s + h_h t) |}.

Fixpoint sha256_blocks (n : nat) (s : sha256_state) (bytes : list N)
  : sha256_state :=
  match n with
  | O => s
  | S n' => sha256_blocks n' (sha256_block s (firstn 64 bytes)) (skipn 64 bytes)
  end.

Definition sha256 (msg : list N) : sha256_state :=
  let padded := sha256_pad msg in
  sha256_blocks (length padded / 64) sha256_H0 padded.

(** The eight lower-case hexadecimal digits of a word. *)
Definition hex_word (x : N) : str :=
  List.map (fun i => hex_digit ((x / 16 ^ N.of_nat (7 - i)) mod 16)) (seq 0 8).

Definition digest_hex (s : sha256_state) : str :=
  hex_word (h_a s) ++ hex_word (h_b s) ++ hex_word (h_c s) ++ hex_word (h_d s)
  ++ hex_word (h_e s) ++ hex_word (h_f s) ++ hex_word (h_g s) ++ hex_word (h_h s).

(** [crypto.createHash('sha256').update(text, 'utf-8').digest('hex')]. *)
Definition hashSnippet (text : str) : str :=
  digest_hex (sha256 (utf8_encode text)).

(** *** The editor *)

(** [s.slice(start, end)]. *)
Definition slice (s : str) (start end_ : Z) : str :=
  let len := Z.of_nat (length s) in
  let from := if Z.ltb start 0 then Z.max (len + start) 0 else Z.min start len in
  let to := if Z.ltb end_ 0 then Z.max (len + end_) 0 else Z.min end_ len in
  firstn (Z.to_nat (to - from)) (skipn (Z.to_nat from) s).

(** What the active editor shows to one run of a command: the path of
    its document, whether the selection is empty, the text of the
    selection and of the document, the offset of the cursor in that text,
    and the text of the lines from the first to the one of the cursor. *)
Record Editor : Type := {
  fsPath : str;
  selection_isEmpty : bool;
  selection_text : str;
  document_text : str;
  cursor_offset : nat;
  lines_to_cursor : list str
}.

Definition inferMethodName (editor : Editor) : str :=
  scan_lines (rev (lines_to_cursor editor)).

Definition getCodeSnippet (editor : Editor) : str :=
  if negb (selection_isEmpty editor) then selection_text editor
  else
    let fullText := document_text editor in
    let offset := Z.of_nat (cursor_offset editor) in
    let start := Z.max 0 (offset - 1000) in
    let end_ := Z.min (Z.of_nat (length fullText)) (offset + 1000) in
    slice fullText start end_.

(** What the editor supplies to one run of [logActivity] or of
    [captureAIPromptAndLog], besides the clipboard: the workspace and the
    key typed in (as for [generateTimesheet]), the active editor, the text
    typed into the input box, the configured capture mode and the string
    [getISTTimestamp] returns. *)
Record Desk : Type := {
  host : Host;
  activeTextEditor : option Editor;
  text_input : option str;
  promptCaptureMode : option str;
  ist_timestamp : str
}.

Section Commands.

Context {engine : Engine} {service : Service}.

(** The messages of the two logging commands and of the key command. *)
Inductive Message : Type :=
| InfoNoActiveEditor
| ErrKeyRequiredToLog
| ErrNoWorkspaceFolder
| ErrWriteFailed (err : exn)
| InfoActivityLogged (timestamp : str)
| WarnClipboardEmpty
| WarnNothingSelected
| InfoDuplicateSkipped
| InfoPromptLogged (source : LogSource) (timestamp : str)
| InfoKeyUpdated.

(** The world, the messages shown (oldest first), what the next reads of
    the clipboard give (the empty string once the list is used up), and
    the number of 100 ms timers awaited. *)
Record Session : Type := {
  world : World;
  shown : list Message;
  clipboard_reads : list str;
  timers : nat
}.

Definition Task (A : Type) : Type := Session -> completion A * Session.

Definition task_ret {A} (a : A) : Task A := fun s => (Normal a, s).
Definition task_bind {A B} (m : Task A) (k : A -> Task B) : Task B :=
  fun s => match m s with
           | (Normal a, s') => k a s'
           | (Throw e, s') => (Throw e, s')
           end.
Definition task_attempt {A} (m : Task A) : Task (exn + A) :=
  fun s => match m s with
           | (Normal a, s') => (Normal (inr a), s')
           | (Throw e, s') => (Normal (inl e), s')
           end.

Notation "x <- m ;; k" := (task_bind m (fun x => k))
  (at level 100, m at next level, right associativity).
Notation "m ;;; k" := (task_bind m (fun _ => k))
  (at level 100, right associativity).

(** A computation on the world, run in the session. *)
Definition run {A} (m : M A) : Task A :=
  fun s => let (r, w) := m (world s) in
           (r, {| world := w; shown := shown s;
                  clipboard_reads := clipboard_reads s; timers := timers s |}).

Definition show_message (m : Message) : Task unit :=
  fun s => (Normal tt, {| world := world s; shown := shown s ++ [m];
                          clipboard_reads := clipboard_reads s;
                          timers := timers s |}).

(** [await vscode.env.clipboard.readText()]. *)
Definition readText : Task str :=
  fun s => match clipboard_reads s with
           | [] => (Normal [], s)
           | text :: later =>
               (Normal text, {| world := world s; shown := shown s;
                                clipboard_reads := later; timers := timers s |})
           end.

(** [await new Promise(resolve => setTimeout(resolve, 100))]. *)
Definition wait_100ms : Task unit :=
  fun s => (Normal tt, {| world := world s; shown := shown s;
                          clipboard_reads := clipboard_reads s;
                          timers := S (timers s) |}).

(** *** commands/logActivity.ts *)

Definition resolveLogFilePath (h : Host) (dateStr : str) : option path :=
  match workspaceFolder h with
  | None => None
  | Some root =>
      let logsPath := match logsPath_setting h with
                      | Some p => p
                      | None => [lit ".project-logs"]
                      end in
      Some (root ++ logsPath ++ [dateStr ++ lit ".logs.json"])
  end.

Definition logActivity (d : Desk) : Task unit :=
  match text_input d with
  | None | Some [] => task_ret tt
  | Some description =>
      let editor := activeTextEditor d in
      let timestamp := ist_timestamp d in
      ctx <- match editor with
             | Some e => task_ret (fsPath e, inferMethodName e, getCodeSnippet e)
             | None => show_message InfoNoActiveEditor ;;; task_ret ([], [], [])
             end ;;
      let '(file, method, codeSnippet) := ctx in
      let codeContextSnippetHash := hashSnippet codeSnippet in
      k <- run (getOrPromptApiKey (host d)) ;;
      if falsy k then show_message ErrKeyRequiredToLog
      else
        let apiKey := default [] k in
        r <- task_attempt (run (summarizeCode apiKey codeSnippet (Some description))) ;;
        let summary := match r with
                       | inr text => text
                       | inl _ => SUMMARY_UNAVAILABLE
                       end in
        let dateStr := slice timestamp 0 10 in
        match resolveLogFilePath (host d) dateStr with
        | None => show_message ErrNoWorkspaceFolder
        | Some logFilePath =>
            let entry := {| timestamp := timestamp;
                            description := description;
                            aiPrompt := description;
                            file := file;
                            method := method;
                            codeContextSnippetHash := codeContextSnippetHash;
                            summary := summary;
                            source := manual |} in
            a <- task_attempt (run (appendLogEntry logFilePath entry)) ;;
            match a with
            | inl err => show_message (ErrWriteFailed err)
            | inr _ => show_message (InfoActivityLogged timestamp)
            end
        end
  end.

(** *** commands/captureAIPrompt.ts *)

Fixpoint captureFromClipboard (retries : nat) : Task (option str) :=
  text <- readText ;;
  let text := trim text in
  match text, retries with
  | [], S retries' => wait_100ms ;;; captureFromClipboard retries'
  | [], O => task_ret None
  | _ :: _, _ => task_ret (Some text)
  end.

Definition captureFromActiveInput (editor : option Editor) : Task (option str) :=
  match editor with
  | Some e =>
      if negb (selection_isEmpty e) then
        match trim (selection_text e) with
        | [] => captureFromClipboard 3
        | selectedText => task_ret (Some selectedText)
        end
      else captureFromClipboard 3
  | None => captureFromClipboard 3
  end.

Definition resolvePrompt (d : Desk) (mode : str) (editor : option Editor)
  : Task (option (str * LogSource)) :=
  if str_eqb mode (lit "clipboard") then
    text <- captureFromClipboard 3 ;;
    if falsy text then show_message WarnClipboardEmpty ;;; task_ret None
    else task_ret (Some (default [] text, clipboard))
  else if str_eqb mode (lit "activeInputCapture") then
    text <- captureFromActiveInput editor ;;
    if falsy text then show_message WarnNothingSelected ;;; task_ret None
    else
      let hasSelectionText :=
        match editor with
        | Some e => negb (selection_isEmpty e)
                    && negb (Nat.eqb (length (trim (selection_text e))) 0)
        | None => false
        end in
      let source := if hasSelectionText then activeInputCapture else clipboard in
      task_ret (Some (default [] text, source))
  else
    let text := text_input d in
    if falsy text then task_ret None
    else task_ret (Some (default [] text, manual)).

Definition captureAIPromptAndLog (d : Desk) : Task unit :=
  let mode := match promptCaptureMode d with
              | Some m => m
              | None => lit "clipboard"
              end in
  let editor := activeTextEditor d in
  let timestamp := ist_timestamp d in
  let dateStr := slice timestamp 0 10 in
  match resolveLogFilePath (host d) dateStr with
  | None => show_message ErrNoWorkspaceFolder
  | Some logFilePath =>
      resolved <- resolvePrompt d mode editor ;;
      match resolved with
      | None => task_ret tt
      | Some (aiPrompt, source) =>
          dup <- run (isDuplicateEntry logFilePath aiPrompt) ;;
          if (dup : bool) then show_message InfoDuplicateSkipped
          else
            let '(file, method, codeSnippet) :=
              match editor with
              | Some e => (fsPath e, inferMethodName e, getCodeSnippet e)
              | None => ([], [], [])
              end in
            let codeContextSnippetHash := hashSnippet codeSnippet in
            k <- run (getOrPromptApiKey (host d)) ;;
            if falsy k then show_message ErrKeyRequiredToLog
            else
              let summary := SUMMARY_UNAVAILABLE in
              let entry := {| timestamp := timestamp;
                              description := aiPrompt;
                              aiPrompt := aiPrompt;
                              file := file;
                              method := method;
                              codeContextSnippetHash := codeContextSnippetHash;
                              summary := summary;
                              source := source |} in
              a <- task_attempt (run (appendLogEntry logFilePath entry)) ;;
              match a with
              | inl err => show_message (ErrWriteFailed err)
              | inr _ => show_message (InfoPromptLogged source timestamp)
              end
      end
  end.

(** *** extension.ts: the handler of [extension.setGeminiApiKey] *)

Definition setGeminiApiKey (newKey : option str) : Task unit :=
  if falsy newKey then task_ret tt
  else
    run (fun w => (Normal tt, set_secret (default [] newKey) w)) ;;;
    show_message InfoKeyUpdated.

End Commands.

(** [new Date(t).toISOString()] for a time value [t] in range. *)
Class Calendar : Type := {
  Date_toISOString : Z -> str
}.

(** ** The earlier revision of the capture command and of the clients *)

Module Earlier.

Section EarlierClients.

Context {engine : Engine} {service : Service}.

Notation "x <- m ;; k" := (bind m (fun x => k))
  (at level 100, m at next level, right associativity).
Notation "m ;;; k" := (bind m (fun _ => k))
  (at level 100, right associativity).

(** *** utils/geminiHelper.ts, with one model *)

Definition MODEL_NAME : str := lit "gemini-2.0-flash-preview".

Definition summary_prompt (codeSnippet : str) : str :=
  lit "You are a developer assistant. Summarize the following code snippet in 1-2 concise sentences, focusing on what it does and any notable patterns. Do not include code in your reply."
  ++ [10; 10] ++ lit "```" ++ [10] ++ codeSnippet ++ [10] ++ lit "```".

Definition summarizeCode (apiKey codeSnippet : str) : M str :=
  match trim codeSnippet with
  | [] => ret NO_CONTEXT
  | _ :: _ =>
      try_catch
        (text <- model_generateContent apiKey MODEL_NAME
                   (summary_prompt codeSnippet) ;;
         ret (trim text))
        (fun err =>
           console_log (error_summarizeCode err) ;;;
           ret SUMMARY_UNAVAILABLE)
  end.

End EarlierClients.

Section EarlierCapture.

Context {engine : Engine} {service : Service} {calendar : Calendar}.

Notation "x <- m ;; k" := (task_bind m (fun x => k))
  (at level 100, m at next level, right associativity).
Notation "m ;;; k" := (task_bind m (fun _ => k))
  (at level 100, right associativity).

(** *** commands/captureAIPrompt.ts, without retries *)

Definition captureFromClipboard : Task (option str) :=
  text <- readText ;;
  match trim text with
  | [] => task_ret None
  | t => task_ret (Some t)
  end.

Definition captureFromActiveInput (editor : option Editor) : Task (option str) :=
  match editor with
  | Some e =>
      if negb (selection_isEmpty e) then
        match trim (selection_text e) with
        | [] => task_ret None
        | t => task_ret (Some t)
        end
      else captureFromClipboard
  | None => captureFromClipboard
  end.

Definition resolvePrompt (d : Desk) (mode : str) (editor : option Editor)
  : Task (option (str * LogSource)) :=
  if str_eqb mode (lit "clipboard") then
    text <- captureFromClipboard ;;
    if falsy text then show_message WarnClipboardEmpty ;;; task_ret None
    else task_ret (Some (default [] text, clipboard))
  else if str_eqb mode (lit "activeInputCapture") then
    text <- captureFromActiveInput editor ;;
    if falsy text then show_message WarnNothingSelected ;;; task_ret None
    else
      let source := match editor with
                    | Some e => if negb (selection_isEmpty e)
                                then activeInputCapture else clipboard
                    | None => clipboard
                    end in
      task_ret (Some (default [] text, source))
  else
    let text := text_input d in
    if falsy text then task_ret None
    else task_ret (Some (default [] text, manual)).

Definition captureAIPromptAndLog (d : Desk) : Task unit :=
  let mode := match promptCaptureMode d with
              | Some m => m
              | None => lit "clipboard"
              end in
  let editor := activeTextEditor d in
  now <- run Date_now ;;
  let timestamp := Date_toISOString now in
  let dateStr := slice timestamp 0 10 in
  match resolveLogFilePath (host d) dateStr with
  | None => show_message ErrNoWorkspaceFolder
  | Some logFilePath =>
      resolved <- resolvePrompt d mode editor ;;
      match resolved with
      | None => task_ret tt
      | Some (aiPrompt, source) =>
          dup <- run (isDuplicateEntry logFilePath aiPrompt) ;;
          if (dup : bool) then show_message InfoDuplicateSkipped
          else
            let '(file, method, codeSnippet) :=
              match editor with
              | Some e => (fsPath e, inferMethodName e, getCodeSnippet e)
              | None => ([], [], [])
              end in
            let codeContextSnippetHash := hashSnippet codeSnippet in
            k <- run (getOrPromptApiKey (host d)) ;;
            if falsy k then show_message ErrKeyRequiredToLog
            else
              let apiKey := default [] k in
              r <- task_attempt
                     (run (summarizeCode apiKey codeSnippet)) ;;
              let summary := match r with
                             | inr text => text
                             | inl _ => SUMMARY_UNAVAILABLE
                             end in
              let entry := {| timestamp := timestamp;
                              description := aiPrompt;
                              aiPrompt := aiPrompt;
                              file := file;
                              method := method;
                              codeContextSnippetHash := codeContextSnippetHash;
                              summary := summary;
                              source := source |} in
              a <- task_attempt (run (appendLogEntry logFilePath entry)) ;;
              match a with
              | inl err => show_message (ErrWriteFailed err)
              | inr _ => show_message (InfoPromptLogged source timestamp)
              end
      end
  end.

End EarlierCapture.

End Earlier.

(** ** The vocabulary of the statements *)

(** The text of a file is the serialization of some sequence of records. *)
Definition serialized_records (content : str) : Prop :=
  exists es, JSON_parse (trim content) = Some (LogEntries_value es).

(** No proper ancestor of the path is a file. *)
Definition ancestors_clear (d : gmap path node) (p : path) : Prop :=
  forall k c, (k < length p)%nat -> node_at d (firstn k p) <> Some (File c).

(** What [readLogFile] makes of the node it finds at the path. *)
Definition log_of_node (filePath : path) (n : option node) : completion json :=
  match n with
  | None => Normal (JArr [])
  | Some Dir => Throw (LogParseError filePath (SystemError EISDIR filePath))
  | Some (File content) =>
      match trim content with
      | [] => Normal (JArr [])
      | c :: raw =>
          match JSON_parse (c :: raw) with
          | Some v => Normal v
          | None => Throw (LogParseError filePath SyntaxError)
          end
      end
  end.

(** The prompt of a record: its [aiPrompt], or its [description] when it
    has no [aiPrompt]. *)
Definition prompt_of (ms : list (str * json)) : jsval :=
  match get_member (lit "aiPrompt") ms with
  | Some v => Some v
  | None => get_member (lit "description") ms
  end.

(** The instant [now] is less than [window] milliseconds after [t]. *)
Definition elapsed_below (window : Z) (t : option Z) (now : Z) : bool :=
  match t with
  | Some lt => Z.ltb (now - lt) window
  | None => false
  end.


(** The request [generateContent] makes of the model [modelName]. *)
Definition request_of (apiKey prompt modelName : str) : Request :=
  {| req_apiKey := apiKey; req_model := modelName; req_prompt := prompt |}.

(** The code-fence marker. *)
Definition FENCE : str := lit "```".

(** The text is [body], or [body] between code fences, the opening one
    possibly tagged [json], with any white space inside the fences. *)
Definition optionally_fenced (body text : str) : Prop :=
  text = body
  \/ exists tag ws1 ws2,
       (tag = [] \/ tag = lit "json")
       /\ forallb is_js_space ws1 = true /\ forallb is_js_space ws2 = true
       /\ text = FENCE ++ tag ++ ws1 ++ body ++ ws2 ++ FENCE.

(** The response of the example in the specification. *)
Definition example_response : str :=
  qlit "{'date':'2026-02-28','tasks':[{'category':'Debugging','entries':[{'task':'Fix null check','start':'09:00','end':'09:30'}]}]}".

(** The timesheet the example response denotes. *)
Definition example_timesheet : Timesheet :=
  {| date := lit "2026-02-28";
     tasks := [ {| category := lit "Debugging";
                   entries := [ {| task := lit "Fix null check";
                                   start := lit "09:00";
                                   end_ := lit "09:30" |} ] |} ] |}.

(** Values that [JSON.parse] gives back as they are: no number (a number
    is written in the engine's spelling, not its literal's), and objects
    whose members are in the engine's property order. *)
Fixpoint canonical (v : json) : Prop :=
  match v with
  | JNull | JBool _ | JStr _ => True
  | JNum _ => False
  | JArr items =>
      (fix all (l : list json) : Prop :=
         match l with
         | [] => True
         | x :: l' => canonical x /\ all l'
         end) items
  | JObj ms =>
      build_object ms = ms
      /\ (fix all (l : list (str * json)) : Prop :=
            match l with
            | [] => True
            | kv :: l' => canonical (snd kv) /\ all l'
            end) ms
  end.

(** The fuel one value takes. *)
Fixpoint fuel_of (v : json) : nat :=
  match v with
  | JArr items =>
      S ((fix sum (l : list json) : nat :=
            match l with
            | [] => O
            | x :: l' => S (fuel_of x + sum l')
            end) items)
  | JObj ms =>
      S ((fix sum (l : list (str * json)) : nat :=
            match l with
            | [] => O
            | kv :: l' => S (fuel_of (snd kv) + sum l')
            end) ms)
  | _ => 1%nat
  end.

(** The fuel the elements of an array, and the members of an object, take. *)
Definition fuel_of_items (l : list json) : nat :=
  fold_right (fun x n => S (fuel_of x + n)) O l.

Definition fuel_of_members (l : list (str * json)) : nat :=
  fold_right (fun kv n => S (fuel_of (snd kv) + n)) O l.

(** The text of the elements after the opening bracket or a comma. *)
Fixpoint elements_text (d : nat) (items : list json) (rest : str) : str :=
  match items with
  | [] => []
  | x :: xs =>
      10 :: indent_text (d + 2) ++ serialize (d + 2) x
        ++ match xs with
           | [] => 10 :: indent_text d ++ 93 :: rest
           | _ :: _ => 44 :: elements_text d xs rest
           end
  end.

(** The text of the members after the opening brace or a comma. *)
Fixpoint members_text (d : nat) (ms : list (str * json)) (rest : str) : str :=
  match ms with
  | [] => []
  | kv :: xs =>
      10 :: indent_text (d + 2) ++ QuoteJSONString (fst kv) ++ 58 :: 32
        :: serialize (d + 2) (snd kv)
        ++ match xs with
           | [] => 10 :: indent_text d ++ 125 :: rest
           | _ :: _ => 44 :: members_text d xs rest
           end
  end.

(** One more code unit in front of what the lexer read. *)
Definition cons_result (c : N) (o : option (str * str)) : option (str * str) :=
  match o with
  | Some (t, r) => Some (c :: t, r)
  | None => None
  end.

(** A code unit that is not a surrogate. *)
Definition plain (c : N) : Prop :=
  is_high_surrogate c = false /\ is_low_surrogate c = false.

Section Statements.

Context {service : Service}.

(** The answers of the service to the models asked one after the other,
    each exactly once, from the state [r], and the state it is left in. *)
Fixpoint answers (apiKey prompt : str) (models : list str) (r : Remote)
  : list (exn + str) * Remote :=
  match models with
  | [] => ([], r)
  | m :: ms =>
      let (a, r1) := generateContent apiKey m prompt r in
      let (rest, r2) := answers apiKey prompt ms r1 in
      (a :: rest, r2)
  end.

(** The world after the models [failed] were each asked once and threw
    [errs]: one request and one warning per model, in order. *)
Definition after_failures (apiKey prompt : str) (failed : list str)
    (errs : list exn) (r : Remote) (w : World) : World :=
  {| disk := disk w; clock := clock w; remote := r;
     requests := requests w ++ List.map (request_of apiKey prompt) failed;
     console := console w
                ++ List.map (fun me => warn_model_failed (fst me) (snd me))
                            (combine failed errs);
     secret := secret w; notifications := notifications w |}.

(** [lastError] after the errors [errs] were caught one after the other. *)
Definition last_or (errs : list exn) (lastError : option exn) : option exn :=
  match last errs with
  | Some e => Some e
  | None => lastError
  end.

End Statements.

Section StoreStatements.
Context {engine : Engine} {service : Service}.

(** The records [es] appended one after the other. *)
Fixpoint appendLogEntries (filePath : path) (es : list LogEntry) : M unit :=
  match es with
  | [] => ret tt
  | e :: es' =>
      bind (appendLogEntry filePath e) (fun _ => appendLogEntries filePath es')
  end.

(** Two worlds that differ at most in their disks. *)
Definition same_but_disk (w w' : World) : Prop :=
  clock w' = clock w /\ remote w' = remote w /\ requests w' = requests w
  /\ console w' = console w /\ secret w' = secret w
  /\ notifications w' = notifications w.

(** From [d] to [d'] nothing is removed, and apart from the path [p]
    nothing is changed and no file is created. *)
Definition kept_but (p : path) (d d' : gmap path node) : Prop :=
  (forall q x, q <> p -> d !! q = Some x -> d' !! q = Some x)
  /\ (forall q c, q <> p -> d' !! q = Some (File c) -> d !! q = Some (File c))
  /\ (forall x, d !! p = Some x -> is_Some (d' !! p)).

(** Every proper ancestor of the path is a directory. *)
Definition ancestors_exist (d : gmap path node) (p : path) : Prop :=
  forall k, (k < length p)%nat -> node_at d (firstn k p) = Some Dir.

End StoreStatements.

(** What the first [replace] of the aggregation removes: nothing, or a
    fence, tagged [json] in any letter case or not, and white space. *)
Definition opening_fence (o : str) : Prop :=
  o = []
  \/ exists tag ws,
       (tag = [] \/ List.map to_lower_ascii tag = lit "json")
       /\ forallb is_js_space ws = true /\ o = FENCE ++ tag ++ ws.

(** What the second one removes: nothing, or white space and a fence. *)
Definition closing_fence (c : str) : Prop :=
  c = [] \/ exists ws, forallb is_js_space ws = true /\ c = ws ++ FENCE.

(** A text that starts and ends like a JSON text: no white space around
    it, no backquote at either end, no letter j in front. *)
Definition json_like (body : str) : Prop :=
  exists c mid c',
    body = c :: mid ++ [c']
    /\ is_js_space c = false /\ is_js_space c' = false
    /\ to_lower_ascii c <> 106 /\ c <> 96 /\ c' <> 96.

Section CommandStatements.
Context {engine : Engine} {service : Service}.
(** Today's log file holds the JSON text [null]. *)
Definition log_is_null (h : Host) (w : World) : Prop :=
  exists logFilePath content,
    resolveDayFilePath h (today h) (lit "logs") = Some logFilePath
    /\ node_at (disk w) logFilePath = Some (File content)
    /\ JSON_parse (trim content) = Some JNull.
End CommandStatements.

(** The texts a pattern matches. *)
Inductive matches : regex -> str -> Prop :=
| matches_Empty : matches Empty []
| matches_Class p c : p c = true -> matches (Class p) [c]
| matches_Seq a b x y : matches a x -> matches b y -> matches (Seq a b) (x ++ y)
| matches_Alt_l a b x : matches a x -> matches (Alt a b) x
| matches_Alt_r a b x : matches b x -> matches (Alt a b) x
| matches_Star_nil a : matches (Star a) []
| matches_Star_cons a x y :
    matches a x -> matches (Star a) y -> matches (Star a) (x ++ y)
| matches_Group a x : matches a x -> matches (Group a) x.

(** The texts a group of the pattern can capture. *)
Fixpoint captures (r : regex) (g : str) : Prop :=
  match r with
  | Empty | Class _ => False
  | Seq a b | Alt a b => captures a g \/ captures b g
  | Star a => captures a g
  | Group a => matches a g \/ captures a g
  end.

(** The capture after a match of [r] at the front of [s]: the one before,
    or a text of a group of [r] that occurs in [s]. *)
Definition capture_of (r : regex) (s : str) (cap cap' : option str) : Prop :=
  cap' = cap
  \/ exists g before after,
       cap' = Some g /\ captures r g /\ s = before ++ g ++ after.

(** The bodies of the groups of a pattern. *)
Fixpoint groups (r : regex) : list regex :=
  match r with
  | Empty | Class _ => []
  | Seq a b | Alt a b => groups a ++ groups b
  | Star a => groups a
  | Group a => a :: groups a
  end.

(** A name: a letter, underscore or dollar sign, then letters, digits,
    underscores and dollar signs. *)
Definition is_identifier (name : str) : bool :=
  match name with
  | c :: rest => ident_start c && forallb ident_part rest
  | [] => false
  end.

(** A lower-case hexadecimal digit. *)
Definition is_hex_lower (c : N) : bool :=
  is_digit c || (N.leb 97 c && N.leb c 102).

(** The file, the method and the snippet the commands take from the
    editor, and the record they build. *)
Definition code_context (editor : option Editor) : str * str * str :=
  match editor with
  | Some e => (fsPath e, inferMethodName e, getCodeSnippet e)
  | None => ([], [], [])
  end.

Definition logged_entry (timestamp prompt : str) (editor : option Editor)
    (summary : str) (source : LogSource) : LogEntry :=
  {| timestamp := timestamp; description := prompt; aiPrompt := prompt;
     file := fst (fst (code_context editor));
     method := snd (fst (code_context editor));
     codeContextSnippetHash := hashSnippet (snd (code_context editor));
     summary := summary; source := source |}.

Section SessionStatements.
Context {engine : Engine} {service : Service}.
(** The session with another world, and with one more message. *)
Definition with_world (w : World) (s : Session) : Session :=
  {| world := w; shown := shown s; clipboard_reads := clipboard_reads s;
     timers := timers s |}.
Definition with_message (m : Message) (s : Session) : Session :=
  {| world := world s; shown := shown s ++ [m];
     clipboard_reads := clipboard_reads s; timers := timers s |}.
End SessionStatements.

(** ** An engine, a service and a disk for the examples *)

(** Exactly [n] decimal digits and the text after them. *)
Definition read_digits (n : nat) (s : str) : option (Z * str) :=
  let d := firstn n s in
  if Nat.eqb (length d) n && forallb is_digit d
  then Some (Z.of_N (digits_value 0 d), skipn n s) else None.

(** The days from 1970-01-01 to the day [d] of month [m] of year [y]. *)
Definition days_from_civil (y m d : Z) : Z :=
  (let y' := if Z.leb m 2 then y - 1 else y in
   let era := y' / 400 in
   let yoe := y' - era * 400 in
   let doy := (153 * (if Z.ltb 2 m then m - 3 else m + 9) + 2) / 5 + d - 1 in
   let doe := yoe * 365 + yoe / 4 - yoe / 100 + doy in
   era * 146097 + doe - 719468)%Z.

Definition days_in_month (y m : Z) : Z :=
  (if Z.eqb m 2 then
     if (Z.eqb (y mod 4) 0 && negb (Z.eqb (y mod 100) 0)) || Z.eqb (y mod 400) 0
     then 29 else 28
   else if Z.eqb m 4 || Z.eqb m 6 || Z.eqb m 9 || Z.eqb m 11 then 30
   else 31)%Z.

(** The time value of [YYYY-MM-DDTHH:mm:ss.sssZ], the form
    [Date.prototype.toISOString] writes. *)
Definition iso_time (s : str) : option Z :=
  '(y, s) ← read_digits 4 s; s ← expect 45 s;
  '(m, s) ← read_digits 2 s; s ← expect 45 s;
  '(d, s) ← read_digits 2 s; s ← expect 84 s;
  '(h, s) ← read_digits 2 s; s ← expect 58 s;
  '(mi, s) ← read_digits 2 s; s ← expect 58 s;
  '(sec, s) ← read_digits 2 s; s ← expect 46 s;
  '(ms, s) ← read_digits 3 s; s ← expect 90 s;
  match s with
  | [] =>
      if (Z.leb 1 m && Z.leb m 12 && Z.leb 1 d && Z.leb d (days_in_month y m)
          && Z.leb h 23 && Z.leb mi 59 && Z.leb sec 59)%Z
      then Some ((((days_from_civil y m d * 24 + h) * 60 + mi) * 60 + sec) * 1000 + ms)%Z
      else None
  | _ :: _ => None
  end.

(** The decimal digits of [n], most significant first. *)
Fixpoint decimal (fuel : nat) (n : N) (acc : str) : str :=
  match fuel with
  | O => acc
  | S fuel =>
      if N.ltb n 10 then (48 + n) :: acc
      else decimal fuel (n / 10) ((48 + n mod 10) :: acc)
  end.

Definition Z_text (z : Z) : str :=
  match z with
  | Zneg p => 45 :: decimal 20 (Npos p) []
  | _ => decimal 20 (Z.to_N z) []
  end.

(** The integer a literal of at most fifteen digits, without fraction or
    exponent, denotes. *)
Definition integer_literal (n : str) : option Z :=
  let (neg, d) := match expect 45 n with
                  | Some d => (true, d)
                  | None => (false, n)
                  end in
  if forallb is_digit d && Nat.leb 1 (length d) && Nat.leb (length d) 15
  then Some (if neg then - Z.of_N (digits_value 0 d) else Z.of_N (digits_value 0 d))%Z
  else None.

(** An engine for the examples: it reads ISO timestamps, and numbers that
    are integer literals of at most fifteen digits; every other timestamp
    or number is NaN to it. *)
Definition example_engine : Engine := {|
  Date_time v := match v with
                 | JStr s => iso_time s
                 | JNull | JBool false => Some 0%Z
                 | JBool true => Some 1%Z
                 | JNum n => integer_literal n
                 | _ => None
                 end;
  Number_is_zero n := match integer_literal n with
                      | Some z => Z.eqb z 0
                      | None => false
                      end;
  Number_pred_key v := match v with
                       | JNum n => match integer_literal n with
                                   | Some z => Z_text (z - 1)
                                   | None => lit "NaN"
                                   end
                       | JNull | JBool false => lit "-1"
                       | JBool true => lit "0"
                       | _ => lit "NaN"
                       end
|}.

(** A service that answers by a table: the model name decides. *)
Definition table_service (answer : str -> exn + str) : Service := {|
  Remote := unit;
  generateContent _ modelName _ r := (answer modelName, r)
|}.

(** A world in which nothing has been asked or shown yet. *)
Definition world0 (service : Service) (r : @Remote service)
    (d : gmap path node) (now : Z) : @World service :=
  {| disk := d; clock := now; remote := r; requests := []; console := [];
     secret := None; notifications := [] |}.

(** Services: every model throws; only the third model answers; every
    model answers with the example between fences, with prose, with an
    empty object. *)
Definition svc_down : Service :=
  table_service (fun _ => inl (ServiceError (lit "503 Service Unavailable"))).

Definition svc_third : Service :=
  table_service (fun m =>
    if str_eqb m (lit "gemini-2.5-flash") then inr (lit "  Adds a null check.  ")
    else inl (ServiceError (m ++ lit " is overloaded"))).

Definition svc_fenced : Service :=
  table_service (fun _ =>
    inr (FENCE ++ lit "json" ++ [10] ++ example_response ++ [10] ++ FENCE)).



(** The workspace, its log directory and the files of 2026-02-28. *)
Definition ws_dir : path := [lit "ws"].
Definition logs_dir : path := [lit "ws"; lit ".project-logs"].
Definition log_path : path :=
  [lit "ws"; lit ".project-logs"; lit "2026-02-28.logs.json"].
Definition timesheet_path : path :=
  [lit "ws"; lit ".project-logs"; lit "2026-02-28.timesheet.json"].

(** A record logged at 2026-02-28T16:30:00.000Z. *)
Definition fix_bug : LogEntry :=
  {| timestamp := lit "2026-02-28T16:30:00.000Z";
     description := lit "fix bug"; aiPrompt := lit "fix bug";
     file := lit "/ws/src/user.ts"; method := lit "authenticate";
     codeContextSnippetHash := lit "e3b0c44298fc1c14";
     summary := SUMMARY_UNAVAILABLE; source := clipboard |}.

(** The time value of that instant. *)
Definition T_fix_bug : Z := 1772296200000.

(** Disks: the two directories alone; with a log of the given content;
    with the log of the one record; and with a timesheet beside it. *)
Definition disk_dirs : gmap path node :=
  <[logs_dir := Dir]> (<[ws_dir := Dir]> ∅).

Definition disk_with (content : str) : gmap path node :=
  <[log_path := File content]> disk_dirs.

Definition disk_logged : gmap path node :=
  disk_with (JSON_stringify (LogEntries_value [fix_bug])).


(** The editor with the workspace open and a key to type in. *)
Definition host0 : Host :=
  {| workspaceFolder := Some ws_dir; logsPath_setting := None;
     today := lit "2026-02-28"; apiKey_input := Some (lit "AIza-example");
     picks_open_file := false |}.


(** The year, month and day of the day [z] days after 1970-01-01. *)
Definition civil_from_days (z : Z) : Z * Z * Z :=
  (let z := z + 719468 in
   let era := z / 146097 in
   let doe := z - era * 146097 in
   let yoe := (doe - doe / 1460 + doe / 36524 - doe / 146096) / 365 in
   let doy := doe - (365 * yoe + yoe / 4 - yoe / 100) in
   let mp := (5 * doy + 2) / 153 in
   let d := doy - (153 * mp + 2) / 5 + 1 in
   let m := if Z.ltb mp 10 then mp + 3 else mp - 9 in
   (if Z.leb m 2 then yoe + era * 400 + 1 else yoe + era * 400, m, d))%Z.

(** The last [n] decimal digits of [z]. *)
Definition padded (n : nat) (z : Z) : str :=
  List.map (fun i => 48 + Z.to_N ((z / 10 ^ Z.of_nat (n - 1 - i)) mod 10)%Z)
           (seq 0 n).

(** [YYYY-MM-DDTHH:mm:ss.sssZ] for a time value of the years 0 to 9999. *)
Definition iso_text (t : Z) : str :=
  (let day := t / 86400000 in
   let ms := t mod 86400000 in
   let '(y, m, d) := civil_from_days day in
   padded 4 y ++ [45%N] ++ padded 2 m ++ [45%N] ++ padded 2 d ++ [84%N]
   ++ padded 2 (ms / 3600000) ++ [58%N] ++ padded 2 ((ms / 60000) mod 60)
   ++ [58%N] ++ padded 2 ((ms / 1000) mod 60) ++ [46%N] ++ padded 3 (ms mod 1000)
   ++ [90%N])%Z.

Definition example_calendar : Calendar := {| Date_toISOString := iso_text |}.

(** A service of which every model answers with a summary. *)
Definition svc_up : Service :=
  table_service (fun _ => inr (lit "  Adds a null check.  ")).

(** A service that answers with the example timesheet, indented, between
    fences tagged in upper case. *)
Definition svc_upper_fence : Service :=
  table_service (fun _ =>
    inr (FENCE ++ lit "JSON" ++ [10]
         ++ JSON_stringify (Timesheet_value example_timesheet) ++ [10] ++ FENCE)).

(** A second record, logged a minute after the first. *)
Definition add_test : LogEntry :=
  {| timestamp := lit "2026-02-28T16:31:00.000Z";
     description := lit "add test"; aiPrompt := lit "add test";
     file := lit "/ws/src/user.test.ts"; method := [];
     codeContextSnippetHash := hashSnippet [];
     summary := NO_CONTEXT; source := manual |}.

(** An editor on a small file, the cursor in the body of its function;
    and one with a selection that is blank. *)
Definition example_editor : Editor :=
  {| fsPath := lit "/ws/src/user.ts";
     selection_isEmpty := true;
     selection_text := [];
     document_text := lit "function authenticate(user) {" ++ [10]
                      ++ lit "  if (!user) return;" ++ [10] ++ lit "}";
     cursor_offset := 40;
     lines_to_cursor := [lit "function authenticate(user) {";
                         lit "  if (!user) return;"] |}.

Definition blank_selection_editor : Editor :=
  {| fsPath := lit "/ws/src/user.ts";
     selection_isEmpty := false;
     selection_text := lit "   ";
     document_text := lit "const limit = 3;" ++ [10] ++ lit "   " ++ [10];
     cursor_offset := 20;
     lines_to_cursor := [lit "const limit = 3;"; lit "   "] |}.

(** An editor on the given lines, the cursor on the last of them. *)
Definition editor_on (lines : list str) : Editor :=
  {| fsPath := lit "/ws/src/user.ts";
     selection_isEmpty := true;
     selection_text := [];
     document_text := join [10] lines;
     cursor_offset := length (join [10] lines);
     lines_to_cursor := lines |}.

(** The editor's side of a run at 2026-02-28T16:30:00.000Z: the task typed
    in is "fix bug", the capture mode is the default one. *)
Definition desk0 : Desk :=
  {| host := host0; activeTextEditor := Some example_editor;
     text_input := Some (lit "fix bug"); promptCaptureMode := None;
     ist_timestamp := lit "2026-02-28T16:30:00.000Z" |}.

(** The same without a workspace folder. *)
Definition desk_without_workspace : Desk :=
  {| host := {| workspaceFolder := None; logsPath_setting := None;
                today := lit "2026-02-28";
                apiKey_input := Some (lit "AIza-example");
                picks_open_file := false |};
     activeTextEditor := Some example_editor;
     text_input := Some (lit "fix bug"); promptCaptureMode := None;
     ist_timestamp := lit "2026-02-28T16:30:00.000Z" |}.

(** A session in which nothing has been shown, with the given clipboard. *)
Definition session0 (service : Service) (w : @World service)
    (clip : list str) : @Session service :=
  {| world := w; shown := []; clipboard_reads := clip; timers := O |}.

(** The capture of the clipboard text "add test" a minute after the first
    record, and again ninety seconds later. *)
Definition desk_capture : Desk :=
  {| host := host0; activeTextEditor := Some example_editor;
     text_input := None; promptCaptureMode := None;
     ist_timestamp := lit "2026-02-28T16:31:00.000Z" |}.

Definition desk_capture_again : Desk :=
  {| host := host0; activeTextEditor := None;
     text_input := None; promptCaptureMode := None;
     ist_timestamp := lit "2026-02-28T16:32:30.000Z" |}.

(** ** Facts about the JSON codec *)

Section Codec.

Lemma hex_value_hex_digit (n : N) :
  n < 16 -> hex_value (hex_digit n) = Some n.
Proof.
  intros Hn. unfold hex_digit, hex_value, is_digit.
  destruct (N.ltb_spec n 10) as [Hlt|Hge].
  - rewrite (proj2 (N.leb_le 48 (48 + n))) by lia.
    rewrite (proj2 (N.leb_le (48 + n) 57)) by lia.
    cbn [andb]. f_equal. lia.
  - rewrite (proj2 (N.leb_gt (87 + n) 57)) by lia.
    rewrite andb_false_r.
    rewrite (proj2 (N.leb_le 97 (87 + n))) by lia.
    rewrite (proj2 (N.leb_le (87 + n) 102)) by lia.
    cbn [andb]. f_equal. lia.
Qed.

Lemma hex4_unicode_escape (c : N) :
  c < 65536 ->
  hex4 (hex_digit (c / 4096 mod 16)) (hex_digit (c / 256 mod 16))
       (hex_digit (c / 16 mod 16)) (hex_digit (c mod 16)) = Some c.
Proof.
  intros Hc. unfold hex4.
  rewrite !hex_value_hex_digit by (apply N.mod_lt; discriminate).
  f_equal.
  pose proof (N.Div0.div_mod c 16) as H1.
  pose proof (N.Div0.div_mod (c / 16) 16) as H2.
  pose proof (N.Div0.div_mod (c / 256) 16) as H3.
  rewrite (N.Div0.div_div c 16 16) in H2.
  rewrite (N.Div0.div_div c 256 16) in H3.
  change (16 * 16) with 256 in H2. change (256 * 16) with 4096 in H3.
  assert (H4 : c / 4096 < 16) by (apply N.Div0.div_lt_upper_bound; lia).
  rewrite (N.mod_small (c / 4096) 16) by exact H4.
  lia.
Qed.

Lemma lex_string_unicode_escape (c : N) (tail : str) :
  c < 65536 ->
  lex_string (unicode_escape c ++ tail) = cons_result c (lex_string tail).
Proof.
  intros Hc. unfold unicode_escape. cbn [app lex_string].
  change (N.eqb 92 34) with false. change (N.eqb 92 92) with true.
  change (N.eqb 117 117) with true. cbv iota.
  rewrite hex4_unicode_escape by exact Hc. reflexivity.
Qed.

Lemma lex_string_raw (c : N) (tail : str) :
  32 <= c -> c <> 34 -> c <> 92 ->
  lex_string (c :: tail) = cons_result c (lex_string tail).
Proof.
  intros H1 H2 H3. cbn [lex_string].
  destruct (N.eqb_spec c 34); [contradiction|].
  destruct (N.eqb_spec c 92); [contradiction|].
  destruct (N.ltb_spec c 32); [lia|]. reflexivity.
Qed.

Lemma lex_string_quote_unit (c : N) (tail : str) :
  is_high_surrogate c = false ->
  lex_string (quote_unit c ++ tail) = cons_result c (lex_string tail).
Proof.
  intros Hh. unfold quote_unit.
  repeat match goal with
  | |- context [N.eqb c ?k] => destruct (N.eqb_spec c k) as [->|]; [reflexivity|]
  end.
  rewrite Hh. rewrite orb_false_r. cbn [orb].
  destruct (N.ltb_spec c 32) as [Hlt|Hge]; cbn [orb].
  - apply lex_string_unicode_escape. lia.
  - destruct (is_low_surrogate c) eqn:Hl.
    + apply lex_string_unicode_escape.
      unfold is_low_surrogate in Hl. apply andb_true_iff in Hl as [_ Hl].
      apply N.leb_le in Hl. lia.
    + apply lex_string_raw; assumption.
Qed.

Lemma lex_string_quote_body_len (n : nat) :
  forall s rest, (length s <= n)%nat ->
  lex_string (quote_body s ++ 34 :: rest) = Some (s, rest).
Proof.
  induction n as [|n IH]; intros s rest Hlen.
  - destruct s; [reflexivity | cbn in Hlen; lia].
  - destruct s as [|c s']; [reflexivity|].
    cbn [quote_body]. cbn in Hlen.
    destruct (is_high_surrogate c) eqn:Hh.
    + assert (Hc : 55296 <= c /\ c <= 56319).
      { unfold is_high_surrogate in Hh. apply andb_true_iff in Hh as [A B].
        apply N.leb_le in A. apply N.leb_le in B. lia. }
      destruct s' as [|d s''].
      * rewrite lex_string_unicode_escape by lia. reflexivity.
      * destruct (is_low_surrogate d) eqn:Hl.
        -- assert (Hd : 56320 <= d).
           { unfold is_low_surrogate in Hl. apply andb_true_iff in Hl as [A _].
             apply N.leb_le in A. lia. }
           cbn [app]. rewrite lex_string_raw by lia.
           rewrite lex_string_raw by lia.
           rewrite IH by (cbn in Hlen; lia). reflexivity.
        -- rewrite <- app_assoc. rewrite lex_string_unicode_escape by lia.
           rewrite IH by lia. reflexivity.
    + rewrite <- app_assoc. rewrite lex_string_quote_unit by exact Hh.
      rewrite IH by lia. reflexivity.
Qed.

Lemma lex_string_quote_body (s rest : str) :
  lex_string (quote_body s ++ 34 :: rest) = Some (s, rest).
Proof. apply (lex_string_quote_body_len (length s)). lia. Qed.

(** *** Fuel *)

Ltac fuel_case H IHv IHe IHm :=
  match type of H with
  | context [match parse_value ?f ?s with _ => _ end] =>
      let E := fresh "E" in
      destruct (parse_value f s) eqn:E;
      [ rewrite (IHv _ _ E) by discriminate
      | rewrite (IHv _ _ E) by discriminate
      | congruence ]
  | context [match parse_elements ?f ?s with _ => _ end] =>
      let E := fresh "E" in
      destruct (parse_elements f s) eqn:E;
      [ rewrite (IHe _ _ E) by discriminate
      | rewrite (IHe _ _ E) by discriminate
      | congruence ]
  | context [match parse_members ?f ?s with _ => _ end] =>
      let E := fresh "E" in
      destruct (parse_members f s) eqn:E;
      [ rewrite (IHm _ _ E) by discriminate
      | rewrite (IHm _ _ E) by discriminate
      | congruence ]
  | context [match ?x with _ => _ end] => destruct x
  | context [if ?x then _ else _] => destruct x
  end.

Ltac fuel_step H IHv IHe IHm :=
  cbn [parse_value parse_elements parse_members] in H;
  match goal with
  | |- context [S (S ?f)] =>
      let g := fresh "g" in
      remember (S f) as g;
      cbn [parse_value parse_elements parse_members];
      subst g
  end;
  repeat (first [exact H | congruence | fuel_case H IHv IHe IHm]).

(** One more unit of fuel does not change an answer. *)
Lemma parse_fuel_S (f : nat) :
  (forall s r, parse_value f s = r -> r <> PFuel -> parse_value (S f) s = r)
  /\ (forall s r, parse_elements f s = r -> r <> PFuel ->
                  parse_elements (S f) s = r)
  /\ (forall s r, parse_members f s = r -> r <> PFuel ->
                  parse_members (S f) s = r).
Proof.
  induction f as [|f (IHv & IHe & IHm)].
  - repeat split; intros s r H Hne; cbn in H; congruence.
  - repeat split; intros s r H Hne; fuel_step H IHv IHe IHm.
Qed.

Lemma parse_value_fuel_le (f g : nat) (s : str) (r : presult json) :
  parse_value f s = r -> r <> PFuel -> (f <= g)%nat -> parse_value g s = r.
Proof.
  intros H Hne Hle. induction Hle as [|g Hle IH]; [exact H|].
  apply (proj1 (parse_fuel_S g)); assumption.
Qed.

(** *** Every parser consumes text *)

Lemma skip_ws_length (s : str) : (length (skip_ws s) <= length s)%nat.
Proof.
  induction s as [|c s IH]; cbn; [lia|].
  destruct (is_json_space c); cbn; lia.
Qed.

Lemma expect_length (c : N) (s r : str) :
  expect c s = Some r -> length s = S (length r).
Proof.
  destruct s as [|c' s']; cbn; [discriminate|].
  destruct (N.eqb c c'); [|discriminate]. intros [= ->]. reflexivity.
Qed.

Lemma expect_skip_ws_length (c : N) (s r : str) :
  expect c (skip_ws s) = Some r -> (length r < length s)%nat.
Proof.
  intros H. apply expect_length in H. pose proof (skip_ws_length s). lia.
Qed.

Lemma skip_ws_cons_length (s r : str) (c : N) :
  skip_ws s = c :: r -> (length r < length s)%nat.
Proof.
  intros H. pose proof (skip_ws_length s) as L. rewrite H in L. cbn in L. lia.
Qed.

Lemma lex_string_length_le (n : nat) :
  forall s t r, (length s <= n)%nat -> lex_string s = Some (t, r) ->
                (length r < length s)%nat.
Proof.
  induction n as [|n IH]; intros s t r Hn H.
  - destruct s; [discriminate H | cbn in Hn; lia].
  - destruct s as [|c s']; [discriminate H|]. cbn [lex_string] in H.
    cbn [length] in *.
    destruct (N.eqb c 34); [injection H as _ <-; lia|].
    destruct (N.eqb c 92).
    + destruct s' as [|e s'']; [discriminate H|]. cbn [length] in *.
      destruct (N.eqb e 117).
      * destruct s'' as [|a [|b [|c' [|d s5]]]]; try discriminate H.
        destruct (hex4 a b c' d); [|discriminate H].
        destruct (lex_string s5) as [[t' r']|] eqn:E; [|discriminate H].
        injection H as _ <-. cbn [length] in *.
        apply IH in E; lia.
      * destruct (simple_escape e); [|discriminate H].
        destruct (lex_string s'') as [[t' r']|] eqn:E; [|discriminate H].
        injection H as _ <-. apply IH in E; lia.
    + destruct (N.ltb c 32); [discriminate H|].
      destruct (lex_string s') as [[t' r']|] eqn:E; [|discriminate H].
      injection H as _ <-. apply IH in E; lia.
Qed.

Lemma lex_string_length (s t r : str) :
  lex_string s = Some (t, r) -> (length r < length s)%nat.
Proof. apply (lex_string_length_le (length s)). lia. Qed.

Lemma span_digits_length (s d r : str) :
  span_digits s = (d, r) -> (length r <= length s)%nat.
Proof.
  revert d r. induction s as [|c s IH]; intros d r H; cbn in H.
  - injection H as _ <-. cbn. lia.
  - destruct (is_digit c).
    + destruct (span_digits s) as [d' r'] eqn:E. injection H as _ <-.
      specialize (IH _ _ eq_refl). cbn. lia.
    + injection H as _ <-. lia.
Qed.

Lemma lex_number_length (s n r : str) :
  lex_number s = Some (n, r) -> (length r < length s)%nat.
Proof.
  unfold lex_number. intros H.
  assert (Hs : exists sign s1,
             match expect 45 s with Some t => ([45], t) | None => ([], s) end
             = (sign, s1) /\ (length s1 <= length s)%nat).
  { destruct (expect 45 s) as [t|] eqn:E.
    - apply expect_length in E. eexists _, _. split; [reflexivity|lia].
    - eexists _, _. split; [reflexivity|lia]. }
  destruct Hs as (sign & s1 & Hs & Hs1). rewrite Hs in H.
  destruct (lex_int s1) as [[i s2]|] eqn:Ei; [|discriminate H].
  assert (H2 : (length s2 < length s1)%nat).
  { unfold lex_int in Ei. destruct s1 as [|c s1']; [discriminate Ei|].
    destruct (N.eqb c 48); [injection Ei as _ <-; cbn; lia|].
    destruct (is_digit c); [|discriminate Ei].
    destruct (span_digits s1') as [d r'] eqn:E. injection Ei as _ <-.
    apply span_digits_length in E. cbn. lia. }
  destruct (lex_frac s2) as [[fr s3]|] eqn:Ef; [|discriminate H].
  assert (H3 : (length s3 <= length s2)%nat).
  { unfold lex_frac in Ef. destruct (expect 46 s2) as [s'|] eqn:E.
    - apply expect_length in E.
      destruct (span_digits s') as [d r'] eqn:E'.
      apply span_digits_length in E'.
      destruct d; [discriminate Ef|]. injection Ef as _ <-. lia.
    - injection Ef as _ <-. lia. }
  destruct (lex_exp s3) as [[ex s4]|] eqn:Ee; [|discriminate H].
  assert (H4 : (length s4 <= length s3)%nat).
  { unfold lex_exp in Ee. destruct s3 as [|e s']; [injection Ee as _ <-; lia|].
    destruct (N.eqb e 101 || N.eqb e 69); [|injection Ee as _ <-; lia].
    assert (Hg : exists sg s'',
               match s' with
               | g :: t => if N.eqb g 43 || N.eqb g 45 then ([g], t) else ([], s')
               | [] => ([], s')
               end = (sg, s'') /\ (length s'' <= length s')%nat).
    { destruct s' as [|g t]; [eexists _, _; split; [reflexivity|lia]|].
      destruct (N.eqb g 43 || N.eqb g 45);
        eexists _, _; (split; [reflexivity|cbn; lia]). }
    destruct Hg as (sg & s'' & Hg & Hl). rewrite Hg in Ee.
    destruct (span_digits s'') as [d r'] eqn:E'.
    apply span_digits_length in E'.
    destruct d; [discriminate Ee|]. injection Ee as _ <-. cbn. lia. }
  injection H as _ <-. lia.
Qed.

Lemma strip_prefix_length (p s r : str) :
  strip_prefix p s = Some r -> (length r <= length s)%nat.
Proof.
  revert s. induction p as [|a p IH]; intros s H; cbn in H.
  - injection H as <-. lia.
  - destruct s as [|b s']; [discriminate H|].
    destruct (N.eqb a b); [|discriminate H]. apply IH in H. cbn. lia.
Qed.

Ltac break_match H :=
  match type of H with
  | context [match ?x with _ => _ end] => destruct x eqn:?
  | context [if ?x then _ else _] => destruct x eqn:?
  end.

Ltac length_facts :=
  repeat match goal with
  | H : skip_ws _ = _ :: _ |- _ => apply skip_ws_cons_length in H
  | H : expect _ (skip_ws _) = Some _ |- _ => apply expect_skip_ws_length in H
  | H : lex_string _ = Some _ |- _ => apply lex_string_length in H
  | H : lex_number _ = Some _ |- _ => apply lex_number_length in H
  | H : strip_prefix _ _ = Some _ |- _ => apply strip_prefix_length in H
  end.

Lemma parse_consumes (f : nat) :
  (forall s v r, parse_value f s = POk v r -> (length r < length s)%nat)
  /\ (forall s v r, parse_elements f s = POk v r -> (length r < length s)%nat)
  /\ (forall s v r, parse_members f s = POk v r -> (length r < length s)%nat).
Proof.
  induction f as [|f (IHv & IHe & IHm)].
  - repeat split; intros s v r H; discriminate H.
  - repeat split; intros s v r H;
      cbn [parse_value parse_elements parse_members] in H;
      repeat (break_match H; try discriminate H);
      injection H as _ <-;
      repeat match goal with
      | E : parse_value f _ = POk _ _ |- _ => apply IHv in E
      | E : parse_elements f _ = POk _ _ |- _ => apply IHe in E
      | E : parse_members f _ = POk _ _ |- _ => apply IHm in E
      end;
      length_facts; cbn [length] in *; lia.
Qed.

(** Twice the length of the text is fuel enough. *)
Lemma parse_fuel_enough (f : nat) :
  (forall s, (2 * length s < f)%nat -> parse_value f s <> PFuel)
  /\ (forall s, (2 * length s + 1 < f)%nat -> parse_elements f s <> PFuel)
  /\ (forall s, (2 * length s + 1 < f)%nat -> parse_members f s <> PFuel).
Proof.
  induction f as [|f (IHv & IHe & IHm)].
  - repeat split; intros s H; lia.
  - repeat split; intros s Hlen H;
      cbn [parse_value parse_elements parse_members] in H;
      repeat (break_match H; try discriminate H);
      repeat match goal with
      | E : parse_value f _ = POk _ _ |- _ =>
          apply (proj1 (parse_consumes f)) in E
      | E : parse_value f _ = PFuel |- _ => apply IHv in E; [contradiction|]
      | E : parse_elements f _ = PFuel |- _ => apply IHe in E; [contradiction|]
      | E : parse_members f _ = PFuel |- _ => apply IHm in E; [contradiction|]
      end;
      length_facts; cbn [length] in *; lia.
Qed.

Lemma JSON_parse_fuel_enough (s : str) :
  parse_value (parse_fuel s) s <> PFuel.
Proof. apply (proj1 (parse_fuel_enough _)). unfold parse_fuel. lia. Qed.

(** [JSON_parse] is decided by any run of the parser that has an answer. *)
Lemma JSON_parse_of_run (f : nat) (s : str) (v : json) (r : str) :
  parse_value f s = POk v r -> skip_ws r = [] -> JSON_parse s = Some v.
Proof.
  intros H Hr. unfold JSON_parse.
  pose proof (JSON_parse_fuel_enough s) as Hne.
  destruct (Nat.le_ge_cases f (parse_fuel s)) as [Hle|Hge].
  - rewrite (parse_value_fuel_le f _ s _ H ltac:(discriminate) Hle).
    rewrite Hr. reflexivity.
  - destruct (parse_value (parse_fuel s) s) as [v' r'| |] eqn:E;
      [| |contradiction].
    + rewrite (parse_value_fuel_le _ f s _ E ltac:(discriminate) Hge) in H.
      injection H as -> ->. rewrite Hr. reflexivity.
    + rewrite (parse_value_fuel_le _ f s _ E ltac:(discriminate) Hge) in H.
      discriminate H.
Qed.

(** When [JSON_parse] rejects a text, no run of the parser, with whatever
    fuel, reads it as one value up to its end. *)
Lemma JSON_parse_None_every_run (f : nat) (s : str) (v : json) (r : str) :
  JSON_parse s = None -> parse_value f s = POk v r -> skip_ws r <> [].
Proof.
  intros Hn Hrun Hr. rewrite (JSON_parse_of_run f s v r Hrun Hr) in Hn.
  discriminate Hn.
Qed.

(** *** Parsing what [JSON.stringify] wrote *)

Lemma fuel_of_JArr (items : list json) :
  fuel_of (JArr items) = S (fuel_of_items items).
Proof. reflexivity. Qed.

Lemma fuel_of_JObj (ms : list (str * json)) :
  fuel_of (JObj ms) = S (fuel_of_members ms).
Proof. reflexivity. Qed.

Lemma canonical_JArr (items : list json) :
  canonical (JArr items) <-> Forall canonical items.
Proof.
  cbn. induction items as [|x l IH]; [split; constructor|].
  rewrite Forall_cons_iff, IH. reflexivity.
Qed.

Lemma canonical_JObj (ms : list (str * json)) :
  canonical (JObj ms) <->
  build_object ms = ms /\ Forall (fun kv => canonical (snd kv)) ms.
Proof.
  cbn. apply and_iff_compat_l.
  induction ms as [|x l IH]; [split; constructor|].
  rewrite Forall_cons_iff, IH. reflexivity.
Qed.

Lemma join_cons2 (sep p q : str) (ps : list str) :
  join sep (p :: q :: ps) = p ++ sep ++ join sep (q :: ps).
Proof. reflexivity. Qed.

Lemma elements_text_join (d : nat) (rest : str) (x : json) (xs : list json) :
  10 :: indent_text (d + 2)
     ++ join (44 :: 10 :: indent_text (d + 2))
             (List.map (serialize (d + 2)) (x :: xs))
     ++ 10 :: indent_text d ++ 93 :: rest
  = elements_text d (x :: xs) rest.
Proof.
  revert x. induction xs as [|y ys IH]; intros x.
  - reflexivity.
  - cbn [List.map] in *. rewrite join_cons2.
    change (elements_text d (x :: y :: ys) rest)
      with (10 :: indent_text (d + 2) ++ serialize (d + 2) x
               ++ 44 :: elements_text d (y :: ys) rest).
    rewrite <- (IH y). rewrite <- !app_assoc. reflexivity.
Qed.

Lemma serialize_JArr_text (d : nat) (x : json) (xs : list json) (rest : str) :
  serialize d (JArr (x :: xs)) ++ rest = 91 :: elements_text d (x :: xs) rest.
Proof.
  rewrite <- elements_text_join.
  cbn [serialize List.map block]. cbn [app]. do 2 f_equal.
  rewrite <- !app_assoc. cbn [app]. rewrite <- !app_assoc. reflexivity.
Qed.

Lemma members_text_join (d : nat) (rest : str) (kv : str * json)
    (xs : list (str * json)) :
  10 :: indent_text (d + 2)
     ++ join (44 :: 10 :: indent_text (d + 2))
             (List.map (fun kv => QuoteJSONString (fst kv) ++ [58; 32]
                                  ++ serialize (d + 2) (snd kv)) (kv :: xs))
     ++ 10 :: indent_text d ++ 125 :: rest
  = members_text d (kv :: xs) rest.
Proof.
  revert kv. induction xs as [|y ys IH]; intros kv.
  - cbn [List.map join members_text]. rewrite <- !app_assoc. reflexivity.
  - cbn [List.map] in *. rewrite join_cons2.
    change (members_text d (kv :: y :: ys) rest)
      with (10 :: indent_text (d + 2) ++ QuoteJSONString (fst kv) ++ 58 :: 32
               :: serialize (d + 2) (snd kv)
               ++ 44 :: members_text d (y :: ys) rest).
    rewrite <- (IH y). rewrite <- !app_assoc. reflexivity.
Qed.

Lemma serialize_JObj_text (d : nat) (kv : str * json) (xs : list (str * json))
    (rest : str) :
  serialize d (JObj (kv :: xs)) ++ rest = 123 :: members_text d (kv :: xs) rest.
Proof.
  rewrite <- members_text_join.
  cbn [serialize List.map block]. cbn [app]. do 2 f_equal.
  rewrite <- !app_assoc. cbn [app]. rewrite <- !app_assoc. reflexivity.
Qed.

Lemma skip_ws_app (ws tl : str) :
  forallb is_json_space ws = true -> skip_ws (ws ++ tl) = skip_ws tl.
Proof.
  induction ws as [|c ws IH]; cbn; [reflexivity|].
  intros H. apply andb_true_iff in H as [Hc H]. rewrite Hc. auto.
Qed.

Lemma indent_text_space (n : nat) : forallb is_json_space (indent_text n) = true.
Proof. induction n; cbn; auto. Qed.

Lemma skip_ws_newline_indent (n : nat) (tl : str) :
  skip_ws (10 :: indent_text n ++ tl) = skip_ws tl.
Proof.
  change (10 :: indent_text n ++ tl) with ((10 :: indent_text n) ++ tl).
  apply skip_ws_app. cbn. apply indent_text_space.
Qed.

(** A written value starts with a character that is neither a space nor a
    closing bracket. *)
Lemma serialize_head (d : nat) (v : json) :
  canonical v ->
  exists c tl, serialize d v = c :: tl /\ is_json_space c = false
               /\ N.eqb 93 c = false.
Proof.
  destruct v as [|[|]|n|s|[|x xs]|[|kv ms]]; cbn [canonical]; intros H;
    try contradiction; cbn; eexists _, _; (split; [reflexivity|split; reflexivity]).
Qed.

Lemma skip_ws_nonspace (c : N) (tl : str) :
  is_json_space c = false -> skip_ws (c :: tl) = c :: tl.
Proof. intros H. cbn [skip_ws]. rewrite H. reflexivity. Qed.

Lemma fuel_of_pos (v : json) : (1 <= fuel_of v)%nat.
Proof. destruct v; cbn [fuel_of]; lia. Qed.

Lemma parse_serialize (n : nat) :
  (forall v ws d rest,
      (fuel_of v <= n)%nat -> canonical v ->
      forallb is_json_space ws = true ->
      parse_value n (ws ++ serialize d v ++ rest) = POk v rest)
  /\ (forall x xs d rest,
        (fuel_of_items (x :: xs) <= n)%nat -> Forall canonical (x :: xs) ->
        parse_elements n (elements_text d (x :: xs) rest) = POk (x :: xs) rest)
  /\ (forall kv ms d rest,
        (fuel_of_members (kv :: ms) <= n)%nat ->
        Forall (fun kv => canonical (snd kv)) (kv :: ms) ->
        parse_members n (members_text d (kv :: ms) rest)
        = POk (kv :: ms) rest).
Proof.
  induction n as [|n (IHv & IHe & IHm)].
  - repeat split.
    + intros v ws d rest Hf. pose proof (fuel_of_pos v). lia.
    + intros x xs d rest Hf. cbn in Hf. lia.
    + intros kv ms d rest Hf. cbn in Hf. lia.
  - repeat split.
    + intros v ws d rest Hf Hc Hws. cbn [parse_value].
      rewrite skip_ws_app by exact Hws.
      destruct v as [|[|]|l|t|[|x xs]|[|kv ms]].
      * reflexivity.
      * reflexivity.
      * reflexivity.
      * destruct Hc.
      * cbn [serialize]. unfold QuoteJSONString. rewrite <- app_comm_cons.
        rewrite skip_ws_nonspace by reflexivity.
        change (N.eqb 34 123) with false. change (N.eqb 34 91) with false.
        change (N.eqb 34 34) with true. cbv beta match.
        rewrite <- app_assoc. cbn [app].
        rewrite lex_string_quote_body. reflexivity.
      * reflexivity.
      * rewrite serialize_JArr_text.
        rewrite skip_ws_nonspace by reflexivity.
        change (N.eqb 91 123) with false. change (N.eqb 91 91) with true.
        cbv beta match.
        apply canonical_JArr in Hc.
        rewrite fuel_of_JArr in Hf.
        assert (He : expect 93 (skip_ws (elements_text d (x :: xs) rest)) = None).
        { cbn [elements_text]. rewrite skip_ws_newline_indent.
          destruct (serialize_head (d + 2) x) as (c & tl & -> & Hsp & H93).
          { inversion Hc; assumption. }
          rewrite <- app_comm_cons. rewrite skip_ws_nonspace by exact Hsp.
          cbn [expect]. rewrite H93. reflexivity. }
        rewrite He. rewrite IHe by (assumption || lia). reflexivity.
      * reflexivity.
      * rewrite serialize_JObj_text.
        rewrite skip_ws_nonspace by reflexivity.
        change (N.eqb 123 123) with true. cbv beta match.
        apply canonical_JObj in Hc as [Hb Hc].
        rewrite fuel_of_JObj in Hf.
        assert (He : expect 125 (skip_ws (members_text d (kv :: ms) rest)) = None).
        { cbn [members_text]. rewrite skip_ws_newline_indent.
          unfold QuoteJSONString. rewrite <- app_comm_cons.
          rewrite skip_ws_nonspace by reflexivity. reflexivity. }
        rewrite He. rewrite IHm by (assumption || lia). rewrite Hb. reflexivity.
    + intros x xs d rest Hf Hc. cbn [parse_elements].
      cbn [fuel_of_items fold_right] in Hf.
      inversion Hc as [|? ? Hx Hxs]; subst.
      destruct xs as [|y ys].
      * change (elements_text d [x] rest)
          with ((10 :: indent_text (d + 2)) ++ serialize (d + 2) x
                  ++ 10 :: indent_text d ++ 93 :: rest).
        rewrite IHv; [|lia|assumption|cbn; apply indent_text_space].
        rewrite skip_ws_newline_indent.
        rewrite skip_ws_nonspace by reflexivity. reflexivity.
      * change (elements_text d (x :: y :: ys) rest)
          with ((10 :: indent_text (d + 2)) ++ serialize (d + 2) x
                  ++ 44 :: elements_text d (y :: ys) rest).
        rewrite IHv; [|lia|assumption|cbn; apply indent_text_space].
        rewrite skip_ws_nonspace by reflexivity.
        change (N.eqb 44 44) with true. cbv beta match.
        rewrite IHe; [reflexivity| |assumption].
        change (fuel_of_items (y :: ys))
          with (fold_right (fun x n => S (fuel_of x + n)) O (y :: ys)).
        lia.
    + intros kv ms d rest Hf Hc. cbn [parse_members].
      cbn [fuel_of_members fold_right] in Hf.
      inversion Hc as [|? ? Hx Hxs]; subst.
      assert (Hkey : forall cont,
        members_text d (kv :: ms) rest
        = 10 :: indent_text (d + 2) ++ 34 :: quote_body (fst kv)
             ++ 34 :: 58 :: [32] ++ serialize (d + 2) (snd kv) ++ cont ->
        match expect 34 (skip_ws (members_text d (kv :: ms) rest)) with
        | Some r =>
            match lex_string r with
            | Some (k, r1) =>
                match expect 58 (skip_ws r1) with
                | Some r2 =>
                    match parse_value n r2 with
                    | POk v r3 => k = fst kv /\ v = snd kv /\ r3 = cont
                    | _ => False
                    end
                | None => False
                end
            | None => False
            end
        | None => False
        end).
      { intros cont ->. rewrite skip_ws_newline_indent.
        rewrite skip_ws_nonspace by reflexivity.
        cbn [expect]. change (N.eqb 34 34) with true. cbv beta match.
        rewrite lex_string_quote_body.
        rewrite skip_ws_nonspace by reflexivity.
        cbn [expect]. change (N.eqb 58 58) with true. cbv beta match.
        rewrite IHv; [auto|lia|assumption|reflexivity]. }
      assert (Htext : forall cont,
        10 :: indent_text (d + 2) ++ QuoteJSONString (fst kv) ++ 58 :: 32
           :: serialize (d + 2) (snd kv) ++ cont
        = 10 :: indent_text (d + 2) ++ 34 :: quote_body (fst kv)
             ++ 34 :: 58 :: [32] ++ serialize (d + 2) (snd kv) ++ cont).
      { intros cont. unfold QuoteJSONString. cbn [app].
        rewrite <- app_assoc. reflexivity. }
      destruct ms as [|y ys].
      * specialize (Hkey (10 :: indent_text d ++ 125 :: rest) (Htext _)).
        destruct (expect 34 _) as [r|]; [|contradiction].
        destruct (lex_string r) as [[k r1]|]; [|contradiction].
        destruct (expect 58 _) as [r2|]; [|contradiction].
        destruct (parse_value n r2) as [v r3| |]; [|contradiction ..].
        destruct Hkey as (-> & -> & ->).
        rewrite skip_ws_newline_indent.
        rewrite skip_ws_nonspace by reflexivity.
        destruct kv; reflexivity.
      * specialize (Hkey (44 :: members_text d (y :: ys) rest) (Htext _)).
        destruct (expect 34 _) as [r|]; [|contradiction].
        destruct (lex_string r) as [[k r1]|]; [|contradiction].
        destruct (expect 58 _) as [r2|]; [|contradiction].
        destruct (parse_value n r2) as [v r3| |]; [|contradiction ..].
        destruct Hkey as (-> & -> & ->).
        rewrite skip_ws_nonspace by reflexivity.
        change (N.eqb 44 44) with true. cbv beta match.
        rewrite IHm; [destruct kv; reflexivity| |assumption].
        change (fuel_of_members (y :: ys))
          with (fold_right (fun kv n => S (fuel_of (snd kv) + n)) O (y :: ys)).
        lia.
Qed.

(** [JSON.parse(JSON.stringify(v, null, 2))] is [v]. *)
Lemma JSON_parse_stringify (v : json) :
  canonical v -> JSON_parse (JSON_stringify v) = Some v.
Proof.
  intros Hc.
  apply (JSON_parse_of_run (fuel_of v) _ v []); [|reflexivity].
  pose proof (proj1 (parse_serialize (fuel_of v)) v [] O [] (le_n _) Hc eq_refl)
    as H.
  cbn [app] in H. rewrite app_nil_r in H. exact H.
Qed.

(** *** Induction on values *)

Lemma json_nested_ind (P : json -> Prop) :
  P JNull -> (forall b, P (JBool b)) -> (forall n, P (JNum n)) ->
  (forall s, P (JStr s)) ->
  (forall items, Forall P items -> P (JArr items)) ->
  (forall ms, Forall (fun kv => P (snd kv)) ms -> P (JObj ms)) ->
  forall v, P v.
Proof.
  intros HNull HBool HNum HStr HArr HObj.
  fix IH 1. intros [|b|n|s|items|ms].
  - exact HNull.
  - apply HBool.
  - apply HNum.
  - apply HStr.
  - apply HArr. induction items as [|x l IHl]; constructor; [apply IH|exact IHl].
  - apply HObj. induction ms as [|[k x] l IHl]; constructor; [apply IH|exact IHl].
Qed.

(** *** The text written survives the encoding on disk *)

Lemma toWellFormed_plain_cons (c : N) (s : str) :
  plain c -> toWellFormed (c :: s) = c :: toWellFormed s.
Proof. intros [H1 H2]. cbn [toWellFormed]. rewrite H1, H2. reflexivity. Qed.

Lemma toWellFormed_app_len (n : nat) :
  forall a b, (length a <= n)%nat -> toWellFormed a = a ->
              toWellFormed (a ++ b) = a ++ toWellFormed b.
Proof.
  induction n as [|n IH]; intros a b Hn Ha.
  - destruct a; [reflexivity|cbn in Hn; lia].
  - destruct a as [|c a']; [reflexivity|].
    cbn [toWellFormed length app] in *.
    destruct (is_high_surrogate c) eqn:Hh.
    + assert (c <> 65533).
      { intros ->. discriminate Hh. }
      destruct a' as [|d a'']; [congruence|].
      cbn [app length] in *.
      destruct (is_low_surrogate d); [|congruence].
      injection Ha as Ha. rewrite IH by (assumption || lia). reflexivity.
    + destruct (is_low_surrogate c) eqn:Hl.
      * assert (c <> 65533) by (intros ->; discriminate Hl). congruence.
      * injection Ha as Ha. rewrite IH by (assumption || lia). reflexivity.
Qed.

Lemma toWellFormed_app (a b : str) :
  toWellFormed a = a -> toWellFormed b = b -> toWellFormed (a ++ b) = a ++ b.
Proof.
  intros Ha Hb. rewrite (toWellFormed_app_len (length a)) by (lia || assumption).
  rewrite Hb. reflexivity.
Qed.

Lemma toWellFormed_plain (s : str) : Forall plain s -> toWellFormed s = s.
Proof.
  induction 1 as [|c s Hc _ IH]; [reflexivity|].
  rewrite toWellFormed_plain_cons by exact Hc. rewrite IH. reflexivity.
Qed.

Lemma plain_below (c : N) : c < 55296 -> plain c.
Proof.
  intros H. unfold plain, is_high_surrogate, is_low_surrogate.
  split; apply andb_false_iff; left; apply N.leb_gt; lia.
Qed.

Lemma hex_digit_below (n : N) : n < 16 -> hex_digit n < 128.
Proof. intros H. unfold hex_digit. destruct (N.ltb_spec n 10); lia. Qed.

Lemma unicode_escape_plain (c : N) : Forall plain (unicode_escape c).
Proof.
  unfold unicode_escape.
  repeat (constructor;
          [apply plain_below;
           first [lia | pose proof (hex_digit_below (c / 4096 mod 16));
                        pose proof (hex_digit_below (c / 256 mod 16));
                        pose proof (hex_digit_below (c / 16 mod 16));
                        pose proof (hex_digit_below (c mod 16));
                        pose proof (N.mod_lt (c / 4096) 16);
                        pose proof (N.mod_lt (c / 256) 16);
                        pose proof (N.mod_lt (c / 16) 16);
                        pose proof (N.mod_lt c 16); lia]|]).
  constructor.
Qed.

Lemma quote_unit_plain (c : N) :
  is_high_surrogate c = false -> Forall plain (quote_unit c).
Proof.
  intros Hh. unfold quote_unit.
  repeat match goal with
  | |- context [N.eqb c ?k] =>
      destruct (N.eqb_spec c k) as [->|];
      [repeat constructor; apply plain_below; lia|]
  end.
  rewrite Hh, orb_false_r. cbn [orb].
  destruct (N.ltb c 32); cbn [orb]; [apply unicode_escape_plain|].
  destruct (is_low_surrogate c) eqn:Hl; [apply unicode_escape_plain|].
  repeat constructor; assumption.
Qed.

Lemma quote_body_wellFormed_len (n : nat) :
  forall s, (length s <= n)%nat -> toWellFormed (quote_body s) = quote_body s.
Proof.
  induction n as [|n IH]; intros s Hn.
  - destruct s; [reflexivity|cbn in Hn; lia].
  - destruct s as [|c s']; [reflexivity|]. cbn [quote_body length] in *.
    destruct (is_high_surrogate c) eqn:Hh.
    + destruct s' as [|d s''].
      * apply toWellFormed_plain, unicode_escape_plain.
      * cbn [length] in Hn. destruct (is_low_surrogate d) eqn:Hl.
        -- cbn [toWellFormed]. rewrite Hh, Hl. rewrite IH by lia. reflexivity.
        -- apply toWellFormed_app;
             [apply toWellFormed_plain, unicode_escape_plain|].
           apply IH. cbn [length]. lia.
    + apply toWellFormed_app;
        [apply toWellFormed_plain, quote_unit_plain; exact Hh|].
      apply IH. lia.
Qed.

Lemma QuoteJSONString_wellFormed (s : str) :
  toWellFormed (QuoteJSONString s) = QuoteJSONString s.
Proof.
  unfold QuoteJSONString.
  change (34 :: quote_body s ++ [34]) with ([34] ++ quote_body s ++ [34]).
  repeat apply toWellFormed_app; try reflexivity.
  apply (quote_body_wellFormed_len (length s)). lia.
Qed.

Lemma indent_text_wellFormed (n : nat) :
  toWellFormed (indent_text n) = indent_text n.
Proof.
  apply toWellFormed_plain. induction n; constructor; [|assumption].
  apply plain_below. lia.
Qed.

Lemma join_wellFormed (sep : str) (parts : list str) :
  toWellFormed sep = sep -> Forall (fun p => toWellFormed p = p) parts ->
  toWellFormed (join sep parts) = join sep parts.
Proof.
  intros Hsep. induction 1 as [|p ps Hp Hps IH]; [reflexivity|].
  destruct ps as [|q ps]; [exact Hp|]. rewrite join_cons2.
  repeat apply toWellFormed_app; assumption.
Qed.

Lemma block_wellFormed (o c : N) (d : nat) (parts : list str) :
  plain o -> plain c -> Forall (fun p => toWellFormed p = p) parts ->
  toWellFormed (block o c d parts) = block o c d parts.
Proof.
  intros Ho Hc Hparts. unfold block.
  destruct parts as [|p ps].
  - apply toWellFormed_plain. constructor; [exact Ho|].
    constructor; [exact Hc|constructor].
  - change (o :: 10 :: indent_text (d + 2)
              ++ join (44 :: 10 :: indent_text (d + 2)) (p :: ps)
              ++ 10 :: indent_text d ++ [c])
      with ([o; 10] ++ indent_text (d + 2)
              ++ join ([44; 10] ++ indent_text (d + 2)) (p :: ps)
              ++ [10] ++ indent_text d ++ [c]).
    assert (H10 : plain 10) by (apply plain_below; lia).
    assert (H44 : plain 44) by (apply plain_below; lia).
    apply toWellFormed_app;
      [apply toWellFormed_plain; repeat (constructor; [assumption|]); constructor|].
    apply toWellFormed_app; [apply indent_text_wellFormed|].
    apply toWellFormed_app.
    { apply join_wellFormed; [|exact Hparts].
      apply toWellFormed_app; [|apply indent_text_wellFormed].
      apply toWellFormed_plain; repeat (constructor; [assumption|]); constructor. }
    apply toWellFormed_app;
      [apply toWellFormed_plain; repeat (constructor; [assumption|]); constructor|].
    apply toWellFormed_app; [apply indent_text_wellFormed|].
    apply toWellFormed_plain; repeat (constructor; [assumption|]); constructor.
Qed.

(** A value without numbers is written as well-formed text. *)
Lemma serialize_wellFormed (v : json) :
  canonical v -> forall d, toWellFormed (serialize d v) = serialize d v.
Proof.
  induction v as [|b|n|s|items IH|ms IH] using json_nested_ind; intros Hc d.
  - reflexivity.
  - destruct b; reflexivity.
  - destruct Hc.
  - apply QuoteJSONString_wellFormed.
  - cbn [serialize]. apply canonical_JArr in Hc.
    apply block_wellFormed; [apply plain_below; lia ..|].
    apply Forall_map. rewrite Forall_forall in *. intros x Hx.
    apply IH; auto.
  - cbn [serialize]. apply canonical_JObj in Hc as [_ Hc].
    apply block_wellFormed; [apply plain_below; lia ..|].
    apply Forall_map. rewrite Forall_forall in *. intros x Hx.
    change ([58; 32] ++ serialize (d + 2) (snd x))
      with ([58; 32] ++ serialize (d + 2) (snd x)).
    repeat apply toWellFormed_app;
      [apply QuoteJSONString_wellFormed|reflexivity|apply IH; auto].
Qed.

(** *** The text written has no space around it *)

Lemma trimStart_nonspace (c : N) (s : str) :
  is_js_space c = false -> trimStart (c :: s) = c :: s.
Proof. intros H. cbn [trimStart]. rewrite H. reflexivity. Qed.

Lemma trim_bracketed (c c' : N) (mid : str) :
  is_js_space c = false -> is_js_space c' = false ->
  trim (c :: mid ++ [c']) = c :: mid ++ [c'].
Proof.
  intros H H'. unfold trim, trimEnd. rewrite trimStart_nonspace by exact H.
  change (c :: mid ++ [c']) with ((c :: mid) ++ [c']).
  rewrite (rev_unit (c :: mid) c').
  rewrite trimStart_nonspace by exact H'.
  change (rev (c' :: rev (c :: mid))) with (rev (rev (c :: mid)) ++ [c']).
  rewrite rev_involutive. reflexivity.
Qed.

Lemma serialize_bracketed (d : nat) (v : json) :
  canonical v ->
  exists c mid c', serialize d v = c :: mid ++ [c']
                   /\ is_js_space c = false /\ is_js_space c' = false.
Proof.
  destruct v as [|[|]|n|s|[|x xs]|[|kv ms]]; cbn [canonical]; intros H;
    try contradiction.
  - exists 110, (lit "ul"), 108. repeat split.
  - exists 116, (lit "ru"), 101. repeat split.
  - exists 102, (lit "als"), 101. repeat split.
  - exists 34, (quote_body s), 34. repeat split.
  - exists 91, [], 93. repeat split.
  - eexists 91, _, 93. split; [|split; reflexivity].
    cbn [serialize List.map block]. f_equal. rewrite !app_comm_cons.
    rewrite !app_assoc. reflexivity.
  - exists 123, [], 125. repeat split.
  - eexists 123, _, 125. split; [|split; reflexivity].
    cbn [serialize List.map block]. f_equal. rewrite !app_comm_cons.
    rewrite !app_assoc. reflexivity.
Qed.

Lemma trim_JSON_stringify (v : json) :
  canonical v ->
  trim (JSON_stringify v) = JSON_stringify v /\ JSON_stringify v <> [].
Proof.
  intros Hc. unfold JSON_stringify.
  destruct (serialize_bracketed O v Hc) as (c & mid & c' & -> & H1 & H2).
  split; [apply trim_bracketed; assumption|discriminate].
Qed.

End Codec.

(** ** Records are written and read back as they are *)

Lemma LogEntry_value_canonical (e : LogEntry) : canonical (LogEntry_value e).
Proof.
  unfold LogEntry_value. apply canonical_JObj. split.
  - vm_compute. reflexivity.
  - repeat constructor.
Qed.

Lemma LogEntries_value_canonical (es : list LogEntry) :
  canonical (LogEntries_value es).
Proof.
  apply canonical_JArr. apply Forall_map. apply Forall_forall.
  intros e _. apply LogEntry_value_canonical.
Qed.

(** ** The log store *)

Section LogStore.

Context {engine : Engine} {service : Service}.

Lemma readLogFile_node (filePath : path) (w : World) :
  readLogFile filePath w = (log_of_node filePath (node_at (disk w) filePath), w).
Proof.
  unfold readLogFile, bind, existsSync, try_catch, readFileSync, ret, throw,
    log_of_node, JSON_parse_or_throw.
  destruct (node_at (disk w) filePath) as [[content|]|] eqn:E; cbn.
  - rewrite E. cbn. destruct (trim content) as [|c raw]; [reflexivity|].
    destruct (JSON_parse (c :: raw)); reflexivity.
  - rewrite E. reflexivity.
  - reflexivity.
Qed.

Lemma node_at_nonempty (d : gmap path node) (p : path) :
  p <> [] -> node_at d p = d !! p.
Proof. destruct p; [congruence|reflexivity]. Qed.

Lemma node_at_app_nonempty (d : gmap path node) (base q : path) :
  q <> [] -> node_at d (base ++ q) = d !! (base ++ q).
Proof. intros H. apply node_at_nonempty. destruct base, q; cbn; congruence. Qed.

Lemma mkdir_from_spec (todo : path) :
  forall (d : gmap path node) (base : path),
  (forall k c, (1 <= k <= length todo)%nat ->
               node_at d (base ++ firstn k todo) <> Some (File c)) ->
  exists d',
    mkdir_from d base todo = (Normal tt, d')
    /\ (forall q, (length q <= length base)%nat
                  \/ (length base + length todo < length q)%nat ->
                  d' !! q = d !! q)
    /\ (todo <> [] -> d' !! (base ++ todo) = Some Dir)
    /\ (forall q x, d !! q = Some x -> d' !! q = Some x).
Proof.
  induction todo as [|c todo IH]; intros d base Hclear.
  - exists d. cbn. repeat split; auto. congruence.
  - cbn [mkdir_from].
    assert (Hp : node_at d (base ++ [c]) = d !! (base ++ [c]))
      by (apply node_at_app_nonempty; discriminate).
    assert (H1 : forall c0, d !! (base ++ [c]) <> Some (File c0)).
    { intros c0. rewrite <- Hp.
      exact (Hclear 1%nat c0 ltac:(cbn [length]; lia)). }
    rewrite Hp.
    assert (Hrec : forall d1,
               (forall q, q <> base ++ [c] -> d1 !! q = d !! q) ->
               forall k c0, (1 <= k <= length todo)%nat ->
               node_at d1 ((base ++ [c]) ++ firstn k todo) <> Some (File c0)).
    { intros d1 Hd1 k c0 Hk.
      assert (Hne : firstn k todo <> []).
      { destruct todo, k; cbn in *; try lia; discriminate. }
      rewrite node_at_app_nonempty by exact Hne.
      rewrite Hd1.
      - rewrite <- app_assoc. cbn [app].
        rewrite <- node_at_app_nonempty by discriminate.
        apply (Hclear (S k)). cbn [length]. lia.
      - intros E. rewrite <- (app_nil_r (base ++ [c])) in E at 2.
        apply app_inv_head in E. contradiction. }
    destruct (d !! (base ++ [c])) as [[content|]|] eqn:E.
    + exfalso. apply (H1 content). reflexivity.
    + destruct (IH d (base ++ [c]) (Hrec d (fun _ _ => eq_refl)))
        as (d' & Hrun & Hout & Hdir & Hkeep).
      exists d'. split; [exact Hrun|]. repeat split.
      * intros q Hq. apply Hout. rewrite length_app. cbn [length] in *. lia.
      * intros _. rewrite <- app_assoc in Hdir. cbn [app] in Hdir.
        destruct todo as [|c' todo'].
        -- rewrite (Hkeep _ _ E). reflexivity.
        -- apply Hdir. discriminate.
      * exact Hkeep.
    + assert (Hd1 : forall q, q <> base ++ [c] ->
                              <[base ++ [c] := Dir]> d !! q = d !! q).
      { intros q Hq. apply lookup_insert_ne. congruence. }
      destruct (IH (<[base ++ [c] := Dir]> d) (base ++ [c]) (Hrec _ Hd1))
        as (d' & Hrun & Hout & Hdir & Hkeep).
      exists d'. split; [exact Hrun|]. repeat split.
      * intros q Hq. rewrite Hout by (rewrite length_app; cbn [length] in *; lia).
        apply Hd1. intros ->. rewrite length_app in Hq. cbn [length] in Hq. lia.
      * intros _. rewrite <- app_assoc in Hdir. cbn [app] in Hdir.
        destruct todo as [|c' todo'].
        -- apply Hkeep. apply lookup_insert_eq.
        -- apply Hdir. discriminate.
      * intros q x Hq. apply Hkeep. rewrite Hd1; [exact Hq|].
        intros ->. congruence.
Qed.

Lemma dirname_length (p : path) : p <> [] -> length p = S (length (dirname p)).
Proof.
  intros Hp. destruct (exists_last Hp) as (q & a & ->).
  unfold dirname. rewrite removelast_last, length_app. cbn. lia.
Qed.

Lemma dirname_firstn (p : path) (k : nat) :
  (k <= length (dirname p))%nat -> firstn k (dirname p) = firstn k p.
Proof.
  intros Hk. destruct p as [|a p']; [reflexivity|].
  destruct (@exists_last _ (a :: p') ltac:(discriminate)) as (q & b & E).
  rewrite E in *. unfold dirname in *. rewrite removelast_last in *.
  rewrite firstn_app. replace (k - length q)%nat with O by lia.
  cbn [firstn]. rewrite app_nil_r. reflexivity.
Qed.

(** [ensureDir] of the parent succeeds when no ancestor is a file; it
    makes the parent a directory and leaves every file as it is. *)
Lemma ensureDir_dirname (p : path) (w : World) :
  p <> [] -> ancestors_clear (disk w) p ->
  exists d',
    ensureDir (dirname p) w = (Normal tt, set_disk (fun _ => d') w)
    /\ node_at d' (dirname p) = Some Dir
    /\ node_at d' p = node_at (disk w) p
    /\ (forall q x, disk w !! q = Some x -> d' !! q = Some x).
Proof.
  intros Hp Hclear.
  pose proof (dirname_length p Hp) as Hlen.
  destruct (mkdir_from_spec (dirname p) (disk w) []) as (d' & Hrun & Hout & Hdir & Hkeep).
  { intros k c Hk. cbn [app]. rewrite dirname_firstn by lia.
    apply Hclear. lia. }
  exists d'. unfold ensureDir, mkdirSync_recursive. rewrite Hrun.
  split; [reflexivity|]. repeat split.
  - destruct (dirname p) eqn:E; [reflexivity|].
    rewrite node_at_nonempty by discriminate. apply Hdir. discriminate.
  - rewrite !node_at_nonempty by exact Hp. apply Hout. cbn [length]. lia.
  - exact Hkeep.
Qed.

(** C6 (amended): the read gives the empty sequence when the path does
    not exist or its content is empty or blank; it throws the parse error
    when the trimmed content is not valid JSON; content that is valid JSON
    is returned as it is, whatever its shape. *)
Theorem readLogFile_spec (filePath : path) (w : World) :
  (node_at (disk w) filePath = None ->
   readLogFile filePath w = (Normal (JArr []), w))
  /\ (forall content,
        node_at (disk w) filePath = Some (File content) ->
        (trim content = [] ->
         readLogFile filePath w = (Normal (JArr []), w))
        /\ (trim content <> [] -> JSON_parse (trim content) = None ->
            readLogFile filePath w
            = (Throw (LogParseError filePath SyntaxError), w))
        /\ (forall v, trim content <> [] -> JSON_parse (trim content) = Some v ->
            readLogFile filePath w = (Normal v, w))).
Proof.
  rewrite readLogFile_node. split.
  - intros ->. reflexivity.
  - intros content ->. cbn [log_of_node]. repeat split.
    + intros ->. reflexivity.
    + intros Hne Hp. destruct (trim content); [congruence|].
      rewrite Hp. reflexivity.
    + intros v Hne Hp. destruct (trim content); [congruence|].
      rewrite Hp. reflexivity.
Qed.

(** C8 (amended): when the parent of the path is a directory, the write
    puts the serialization of the full sequence, indented by two spaces,
    at the path, in place of any content there, and changes nothing else;
    it creates no directory: when the parent is not a directory it throws
    and the disk is as before. *)
Theorem writeLogFile_spec (filePath : path) (entries : json) (w : World) :
  (node_at (disk w) (dirname filePath) = Some Dir ->
   node_at (disk w) filePath <> Some Dir ->
   writeLogFile filePath entries w
   = (Normal tt,
      set_disk (fun d => <[filePath := File (toWellFormed (serialize 0 entries))]> d) w))
  /\ (node_at (disk w) (dirname filePath) <> Some Dir ->
      exists e, writeLogFile filePath entries w = (Throw e, w)).
Proof.
  unfold writeLogFile, writeFileSync, JSON_stringify. split.
  - intros Hd Hp. rewrite Hd.
    destruct (node_at (disk w) filePath) as [[c|]|]; congruence.
  - intros Hd.
    destruct (node_at (disk w) filePath) as [[c|]|];
      destruct (node_at (disk w) (dirname filePath)) as [[c'|]|];
      try congruence; eexists; reflexivity.
Qed.

(** Writing a value without numbers and reading the path again. *)
Lemma write_then_read (filePath : path) (v : json) (w : World) :
  canonical v ->
  node_at (disk w) (dirname filePath) = Some Dir ->
  node_at (disk w) filePath <> Some Dir ->
  exists w',
    writeLogFile filePath v w = (Normal tt, w')
    /\ disk w' = <[filePath := File (JSON_stringify v)]> (disk w)
    /\ readLogFile filePath w' = (Normal v, w').
Proof.
  intros Hc Hd Hp.
  rewrite (proj1 (writeLogFile_spec filePath v w) Hd Hp).
  eexists. split; [reflexivity|].
  rewrite serialize_wellFormed by exact Hc. split; [reflexivity|].
  rewrite readLogFile_node. f_equal.
  assert (Hne : filePath <> []) by (intros ->; apply Hp; reflexivity).
  rewrite node_at_nonempty by exact Hne. cbn [disk set_disk].
  rewrite lookup_insert_eq. cbn [log_of_node].
  destruct (trim_JSON_stringify v Hc) as [Ht Hn].
  fold (JSON_stringify v). rewrite Ht.
  destruct (JSON_stringify v) eqn:E; [congruence|].
  rewrite <- E. rewrite JSON_parse_stringify by exact Hc. reflexivity.
Qed.

(** C9: a sequence of records written to a path whose parent directory
    exists is read back equal, in the same order. *)
Theorem write_read_roundtrip (filePath : path) (es : list LogEntry) (w : World) :
  node_at (disk w) (dirname filePath) = Some Dir ->
  node_at (disk w) filePath <> Some Dir ->
  exists w',
    writeLogFile filePath (LogEntries_value es) w = (Normal tt, w')
    /\ readLogFile filePath w' = (Normal (LogEntries_value es), w').
Proof.
  intros Hd Hp.
  destruct (write_then_read filePath (LogEntries_value es) w
              (LogEntries_value_canonical es) Hd Hp) as (w' & Hw & _ & Hr).
  exists w'. split; assumption.
Qed.

(** C7: append reads the sequence at the path, or the empty one, puts the
    record after it and writes the whole sequence back; on a path that
    does not exist it makes the parent a directory and creates the file,
    and the path then reads as the one record appended.  Whatever array
    the log reads as, the append succeeds and leaves a file; the text of
    the file and what it reads as are given for the arrays without a
    number, the logs of records among them. *)
Theorem appendLogEntry_spec (filePath : path) (r : LogEntry) (w : World) :
  ancestors_clear (disk w) filePath ->
  (forall items,
     fst (readLogFile filePath w) = Normal (JArr items) ->
     exists w',
       appendLogEntry filePath r w = (Normal tt, w')
       /\ node_at (disk w') (dirname filePath) = Some Dir
       /\ (exists content, disk w' !! filePath = Some (File content))
       /\ (Forall canonical items ->
           disk w' !! filePath
           = Some (File (JSON_stringify (JArr (items ++ [LogEntry_value r]))))
           /\ readLogFile filePath w'
              = (Normal (JArr (items ++ [LogEntry_value r])), w'))
       /\ (forall es, items = List.map LogEntry_value es ->
             disk w' !! filePath
             = Some (File (JSON_stringify (LogEntries_value (es ++ [r]))))
             /\ readLogFile filePath w'
                = (Normal (LogEntries_value (es ++ [r])), w')))
  /\ (node_at (disk w) filePath = None ->
      exists w',
        appendLogEntry filePath r w = (Normal tt, w')
        /\ node_at (disk w') (dirname filePath) = Some Dir
        /\ disk w' !! filePath
           = Some (File (JSON_stringify (LogEntries_value [r])))
        /\ readLogFile filePath w' = (Normal (LogEntries_value [r]), w')).
Proof.
  intros Hclear.
  assert (Hmain : forall items,
     fst (readLogFile filePath w) = Normal (JArr items) ->
     exists w',
       appendLogEntry filePath r w = (Normal tt, w')
       /\ node_at (disk w') (dirname filePath) = Some Dir
       /\ (exists content, disk w' !! filePath = Some (File content))
       /\ (Forall canonical items ->
           disk w' !! filePath
           = Some (File (JSON_stringify (JArr (items ++ [LogEntry_value r]))))
           /\ readLogFile filePath w'
              = (Normal (JArr (items ++ [LogEntry_value r])), w'))).
  { intros items Hread. rewrite readLogFile_node in Hread. cbn [fst] in Hread.
    assert (Hne : filePath <> []).
    { intros ->. discriminate Hread. }
    destruct (ensureDir_dirname filePath w Hne Hclear)
      as (d' & Hens & Hdir & Hsame & Hkeep).
    set (w1 := set_disk (fun _ => d') w) in *.
    assert (Hnd : node_at (disk w1) filePath <> Some Dir).
    { cbn [disk w1 set_disk]. rewrite Hsame. intros E. rewrite E in Hread.
      discriminate Hread. }
    set (v := JArr (items ++ [LogEntry_value r])).
    pose proof (proj1 (writeLogFile_spec filePath v w1) Hdir Hnd) as Hwrite.
    eexists. split; [|split; [|split]].
    - unfold appendLogEntry, bind. rewrite Hens.
      rewrite readLogFile_node. fold w1. cbn [disk w1 set_disk].
      rewrite Hsame, Hread. cbn [lift push]. fold v. exact Hwrite.
    - cbn [disk set_disk w1].
      destruct (dirname filePath) as [|a q] eqn:E; [reflexivity|].
      rewrite node_at_nonempty in * by discriminate.
      rewrite lookup_insert_ne; [exact Hdir|].
      intros E'. pose proof (dirname_length filePath Hne) as L.
      rewrite E, <- E' in L. lia.
    - eexists. cbn [disk set_disk w1]. apply lookup_insert_eq.
    - intros Hitems.
      assert (Hc : canonical v).
      { apply canonical_JArr. apply Forall_app. split; [exact Hitems|].
        constructor; [apply LogEntry_value_canonical|constructor]. }
      destruct (write_then_read filePath v w1 Hc Hdir Hnd)
        as (w2 & Hw2 & Hd2 & Hr2).
      rewrite Hwrite in Hw2. injection Hw2 as Hw2. subst w2.
      split; [|exact Hr2].
      etransitivity; [exact (f_equal (fun d => d !! filePath) Hd2)|].
      apply lookup_insert_eq. }
  assert (Hrecords : forall es,
            Forall canonical (List.map LogEntry_value es)
            /\ JArr (List.map LogEntry_value es ++ [LogEntry_value r])
               = LogEntries_value (es ++ [r])).
  { intros es. split.
    - apply Forall_map. apply Forall_forall. intros e _.
      apply LogEntry_value_canonical.
    - unfold LogEntries_value. rewrite List.map_app. reflexivity. }
  split.
  - intros items Hread.
    destruct (Hmain items Hread) as (w' & Happ & Hdir & Hfile & Hcan).
    exists w'. repeat (split; [assumption|]).
    intros es ->. destruct (Hrecords es) as [Hc Hv].
    rewrite <- Hv. exact (Hcan Hc).
  - intros Hnone.
    destruct (Hmain []) as (w' & Happ & Hdir & _ & Hcan).
    { rewrite readLogFile_node, Hnone. reflexivity. }
    exists w'. destruct (Hcan ltac:(constructor)) as [Hf Hr].
    repeat split; assumption.
Qed.

End LogStore.

(** ** The duplicate guard *)

Section DuplicateGuard.

Context {engine : Engine} {service : Service}.

Lemma isDuplicateEntry_empty (filePath : path) (text : str) (w : World) :
  fst (readLogFile filePath w) = Normal (JArr []) ->
  isDuplicateEntry filePath text w = (Normal false, w).
Proof.
  intros H. unfold isDuplicateEntry, bind, lift.
  rewrite readLogFile_node in *. cbn [fst] in H. rewrite H. reflexivity.
Qed.

Lemma isDuplicateEntry_last_record (filePath : path) (text : str) (w : World)
    (init : list json) (ms : list (str * json)) (prompt : str) :
  fst (readLogFile filePath w) = Normal (JArr (init ++ [JObj ms])) ->
  prompt_of ms = Some (JStr prompt) ->
  isDuplicateEntry filePath text w
  = (Normal (bool_decide (prompt = text)
             && elapsed_below TWO_MINUTES_MS
                  (Date_getTime (get_member (lit "timestamp") ms)) (clock w)),
     w).
Proof.
  intros H Hp. unfold isDuplicateEntry, bind, lift.
  rewrite readLogFile_node in *. cbn [fst] in H. rewrite H.
  cbn [length_is_zero last_element].
  assert (Hz : match init ++ [JObj ms] with [] => true | _ :: _ => false end
               = false) by (destruct init; reflexivity).
  rewrite Hz. rewrite last_snoc. cbn [get_prop].
  unfold prompt_of in Hp.
  assert (Hd : exists d,
    (match get_member (lit "aiPrompt") ms with
     | None | Some JNull => Normal (get_member (lit "description") ms)
     | Some _ => Normal (get_member (lit "aiPrompt") ms)
     end) = Normal d
    /\ nullish_or d (Some (JStr [])) = Some (JStr prompt)).
  { destruct (get_member (lit "aiPrompt") ms) as [v|].
    - injection Hp as ->. eexists. split; reflexivity.
    - rewrite Hp. eexists. split; reflexivity. }
  destruct Hd as (d & Hd & Hn). rewrite Hd, Hn.
  cbn [strict_ne_string]. unfold str_eqb, ret, Date_now, elapsed_below.
  destruct (bool_decide (prompt = text)); reflexivity.
Qed.


(** C10 (amended): when the trimmed content of the file is not valid
    JSON the guard returns no boolean, it throws the error of the read,
    whatever the text; on a path that does not exist, on blank content and
    on a serialized sequence of records it returns a boolean. *)
Theorem isDuplicateEntry_propagates (filePath : path) (text : str) (w : World) :
  (node_at (disk w) filePath = None ->
   isDuplicateEntry filePath text w = (Normal false, w))
  /\ (forall content,
        node_at (disk w) filePath = Some (File content) ->
        (trim content = [] ->
         isDuplicateEntry filePath text w = (Normal false, w))
        /\ (trim content <> [] -> JSON_parse (trim content) = None ->
            isDuplicateEntry filePath text w
            = (Throw (LogParseError filePath SyntaxError), w))
        /\ (serialized_records content ->
            exists b, isDuplicateEntry filePath text w = (Normal b, w))).
Proof.
  split.
  - intros Hn. apply isDuplicateEntry_empty.
    rewrite readLogFile_node, Hn. reflexivity.
  - intros content Hf. split; [|split].
    + intros Ht. apply isDuplicateEntry_empty.
      rewrite readLogFile_node, Hf. cbn [log_of_node fst]. rewrite Ht.
      reflexivity.
    + intros Hne Hp. unfold isDuplicateEntry, bind.
      rewrite readLogFile_node, Hf. cbn [log_of_node].
      destruct (trim content); [congruence|]. rewrite Hp. reflexivity.
    + intros [es Hes].
      assert (Hread : fst (readLogFile filePath w) = Normal (LogEntries_value es)).
      { rewrite readLogFile_node, Hf. cbn [log_of_node fst].
        destruct (trim content) eqn:E; [discriminate Hes|].
        rewrite Hes. reflexivity. }
      destruct es as [|e es'] using rev_ind.
      * exists false. apply isDuplicateEntry_empty. exact Hread.
      * unfold LogEntries_value in Hread. rewrite List.map_app in Hread.
        eexists.
        apply (isDuplicateEntry_last_record filePath text w _ _ (aiPrompt e) Hread).
        reflexivity.
Qed.

End DuplicateGuard.

(** ** The fallback orchestrator *)

Section Fallback.

Context {service : Service}.

Lemma fallback_loop_failures (apiKey prompt : str) (later : list str) :
  forall (failed : list str) (errs : list exn) (lastError : option exn)
         (w : World) (r1 : Remote),
  answers apiKey prompt failed (remote w) = (List.map inl errs, r1) ->
  fallback_loop apiKey prompt (failed ++ later) lastError w
  = fallback_loop apiKey prompt later (last_or errs lastError)
      (after_failures apiKey prompt failed errs r1 w).
Proof.
  induction failed as [|m ms IH]; intros errs lastError w r1 H.
  - cbn in H. destruct errs; [|discriminate H]. injection H as <-.
    unfold after_failures. cbn [List.map combine app]. rewrite !app_nil_r.
    destruct w; reflexivity.
  - cbn [answers] in H.
    destruct (generateContent apiKey m prompt (remote w)) as [a r'] eqn:Eg.
    destruct (answers apiKey prompt ms r') as [rest r2] eqn:Ea.
    destruct errs as [|e errs']; [discriminate H|].
    cbn [List.map] in H. injection H as -> -> ->.
    cbn [app fallback_loop]. unfold try_catch, bind, model_generateContent.
    rewrite Eg. unfold console_log.
    rewrite (IH errs' (Some e) _ r1) by exact Ea.
    f_equal.
    + unfold last_or. destruct errs' as [|e' errs'']; [reflexivity|].
      change (last (e :: e' :: errs'')) with (last (e' :: errs'')).
      destruct (last (e' :: errs'')) eqn:El; [reflexivity|].
      apply last_None in El. discriminate El.
    + unfold after_failures, add_console, set_remote. cbn.
      rewrite <- !app_assoc. reflexivity.
Qed.



(** Without candidates the generic error is thrown and nothing is asked. *)
Lemma generateContentWithFallback_no_models (apiKey prompt : str) (w : World) :
  generateContentWithFallback apiKey prompt [] w = (Throw AllModelsFailed, w).
Proof. reflexivity. Qed.

(** Nothing the orchestrator does touches the disk. *)
Lemma fallback_loop_disk (apiKey prompt : str) (models : list str) :
  forall lastError w,
    disk (snd (fallback_loop apiKey prompt models lastError w)) = disk w.
Proof.
  induction models as [|m ms IH]; intros lastError w; [reflexivity|].
  cbn [fallback_loop]. unfold try_catch, bind, model_generateContent.
  destruct (generateContent apiKey m prompt (remote w)) as [[e|text] r];
    [|reflexivity].
  unfold console_log. rewrite IH. reflexivity.
Qed.

End Fallback.

(** ** The summarization and aggregation clients *)

Section Clients.

Context {engine : Engine} {service : Service}.


(** *** Code fences *)

Lemma trimStart_app_space (ws s : str) :
  forallb is_js_space ws = true -> trimStart (ws ++ s) = trimStart s.
Proof.
  induction ws as [|c ws IH]; cbn; [reflexivity|].
  intros H. apply andb_true_iff in H as [Hc H]. rewrite Hc. auto.
Qed.

Lemma space_not_j (c : N) : is_js_space c = true -> to_lower_ascii c <> 106.
Proof.
  intros H E. unfold to_lower_ascii in E.
  destruct (N.leb 65 c && N.leb c 90).
  - assert (c = 74) by lia. subst c. discriminate H.
  - subst c. discriminate H.
Qed.

Lemma no_json_tag (r : str) :
  match r with x :: _ => to_lower_ascii x <> 106 | [] => True end ->
  strip_prefix (lit "json") (List.map to_lower_ascii (firstn 4 r)) = None.
Proof.
  destruct r as [|x r']; [reflexivity|]. intros H.
  change (lit "json") with [106; 115; 111; 110].
  cbn [firstn List.map strip_prefix].
  destruct (N.eqb_spec 106 (to_lower_ascii x)); [congruence|reflexivity].
Qed.

Lemma no_fence (c : N) (s : str) :
  c <> 96 -> strip_prefix (lit "```") (c :: s) = None.
Proof.
  intros H. change (lit "```") with [96; 96; 96]. cbn [strip_prefix].
  destruct (N.eqb_spec 96 c); [congruence|reflexivity].
Qed.

Lemma strip_fences_body (c c' : N) (mid text : str) :
  is_js_space c = false -> is_js_space c' = false ->
  to_lower_ascii c <> 106 -> c <> 96 -> c' <> 96 ->
  optionally_fenced (c :: mid ++ [c']) text ->
  strip_fences text = c :: mid ++ [c'].
Proof.
  intros Hc Hc' Hj H96 H96' [->|(tag & ws1 & ws2 & Htag & H1 & H2 & ->)].
  - unfold strip_fences, strip_open_fence, strip_close_fence, FENCE.
    rewrite no_fence by exact H96.
    change (c :: mid ++ [c']) with ((c :: mid) ++ [c']) at 1.
    rewrite rev_unit.
    rewrite no_fence by exact H96'. apply trim_bracketed; assumption.
  - set (body := c :: mid ++ [c']).
    assert (Hopen : strip_open_fence (FENCE ++ tag ++ ws1 ++ body ++ ws2 ++ FENCE)
                    = body ++ ws2 ++ FENCE).
    { unfold strip_open_fence, FENCE.
      change (strip_prefix (lit "```")
                (lit "```" ++ tag ++ ws1 ++ body ++ ws2 ++ lit "```"))
        with (Some (tag ++ ws1 ++ body ++ ws2 ++ lit "```")).
      cbv beta match.
      assert (Hrest : trimStart (ws1 ++ body ++ ws2 ++ lit "```")
                      = body ++ ws2 ++ lit "```").
      { rewrite trimStart_app_space by exact H1.
        unfold body. rewrite <- app_comm_cons.
        apply trimStart_nonspace. exact Hc. }
      destruct Htag as [->| ->].
      - cbn [app]. rewrite no_json_tag; [exact Hrest|].
        destruct ws1 as [|x ws1'].
        + unfold body. cbn [app]. exact Hj.
        + cbn [app]. apply space_not_j. cbn in H1.
          apply andb_true_iff in H1 as [Hx _]. exact Hx.
      - change (strip_prefix (lit "json")
                  (List.map to_lower_ascii
                     (firstn 4 (lit "json" ++ ws1 ++ body ++ ws2 ++ lit "```"))))
          with (Some (@nil N)).
        cbv beta match.
        change (skipn 4 (lit "json" ++ ws1 ++ body ++ ws2 ++ lit "```"))
          with (ws1 ++ body ++ ws2 ++ lit "```").
        exact Hrest. }
    unfold strip_fences. rewrite Hopen. unfold strip_close_fence, FENCE.
    rewrite !rev_app_distr. rewrite <- app_assoc.
    change (rev (lit "```")) with (lit "```").
    change (strip_prefix (lit "```") (lit "```" ++ rev ws2 ++ rev body))
      with (Some (rev ws2 ++ rev body)).
    cbv beta match.
    rewrite trimStart_app_space.
    + unfold body. change (c :: mid ++ [c']) with ((c :: mid) ++ [c']).
      rewrite rev_unit. rewrite trimStart_nonspace by exact Hc'.
      change (rev (c' :: rev (c :: mid))) with (rev (rev (c :: mid)) ++ [c']).
      rewrite rev_involutive.
      apply trim_bracketed; assumption.
    + rewrite forallb_forall in *. intros x Hx. apply H2.
      apply in_rev. exact Hx.
Qed.

(** *** Aggregation *)

Lemma generateTimesheetFromLogs_of_text (apiKey : str) (entries : json)
    (dateStr text : str) (w w1 : World) :
  generateContentWithFallback apiKey
    (timesheet_prompt (JSON_stringify entries) dateStr) FALLBACK_MODELS w
  = (Normal text, w1) ->
  generateTimesheetFromLogs apiKey entries dateStr w
  = match JSON_parse (strip_fences text) with
    | Some v => (Normal v, w1)
    | None =>
        (Throw (TimesheetError SyntaxError),
         add_console (error_generateTimesheetFromLogs SyntaxError) w1)
    end.
Proof.
  intros H. unfold generateTimesheetFromLogs, try_catch, bind. rewrite H.
  unfold JSON_parse_or_throw.
  destruct (JSON_parse (strip_fences text)); reflexivity.
Qed.

Lemma generateTimesheetFromLogs_disk (apiKey : str) (entries : json)
    (dateStr : str) (w : World) :
  disk (snd (generateTimesheetFromLogs apiKey entries dateStr w)) = disk w.
Proof.
  unfold generateTimesheetFromLogs, try_catch, bind.
  pose proof (fallback_loop_disk apiKey
                (timesheet_prompt (JSON_stringify entries) dateStr)
                FALLBACK_MODELS None w) as Hd.
  fold (generateContentWithFallback apiKey
          (timesheet_prompt (JSON_stringify entries) dateStr) FALLBACK_MODELS)
    in Hd.
  destruct (generateContentWithFallback _ _ _ w) as [[text|e] w1];
    cbn [snd] in Hd.
  - unfold JSON_parse_or_throw.
    destruct (JSON_parse (strip_fences text)); cbn; exact Hd.
  - cbn. exact Hd.
Qed.


(** C5: when the response is the JSON object of the example, bare or
    between code fences ([```] or [```json]), aggregation returns the
    timesheet dated 2026-02-28 with the one category Debugging and its one
    entry "Fix null check" from 09:00 to 09:30. *)
Theorem generateTimesheetFromLogs_example (apiKey : str) (entries : json)
    (dateStr text : str) (w w1 : World) :
  generateContentWithFallback apiKey
    (timesheet_prompt (JSON_stringify entries) dateStr) FALLBACK_MODELS w
  = (Normal text, w1) ->
  optionally_fenced example_response text ->
  generateTimesheetFromLogs apiKey entries dateStr w
  = (Normal (Timesheet_value example_timesheet), w1).
Proof.
  intros H Hf.
  rewrite (generateTimesheetFromLogs_of_text _ _ _ _ _ _ H).
  assert (Hs : strip_fences text = example_response).
  { pose (mid := removelast (tl example_response)).
    assert (Hb : example_response = 123 :: mid ++ [125])
      by (vm_compute; reflexivity).
    rewrite Hb in *.
    apply strip_fences_body; try reflexivity; try discriminate. exact Hf. }
  rewrite Hs.
  assert (Hp : JSON_parse example_response
               = Some (Timesheet_value example_timesheet))
    by (vm_compute; reflexivity).
  rewrite Hp. reflexivity.
Qed.


End Clients.

(** ** Directories, appends and the guard *)

Section Store.
Context {engine : Engine} {service : Service}.

Lemma mkdir_from_keeps (todo : path) :
  forall (d : gmap path node) (base : path),
    (forall q x, d !! q = Some x -> snd (mkdir_from d base todo) !! q = Some x)
    /\ (forall q c, snd (mkdir_from d base todo) !! q = Some (File c) ->
                    d !! q = Some (File c)).
Proof.
  induction todo as [|c todo IH]; intros d base; [split; auto|].
  cbn [mkdir_from].
  rewrite (node_at_app_nonempty d base [c]) by discriminate.
  destruct (d !! (base ++ [c])) as [[content|]|] eqn:E.
  - split; auto.
  - apply IH.
  - destruct (IH (<[base ++ [c] := Dir]> d) (base ++ [c])) as [Hk Hf]. split.
    + intros q x Hq. apply Hk. rewrite lookup_insert_ne; [exact Hq|].
      intros <-. congruence.
    + intros q content Hq. specialize (Hf q content Hq).
      destruct (decide (base ++ [c] = q)) as [<-|Hne].
      * rewrite lookup_insert_eq in Hf. discriminate Hf.
      * rewrite lookup_insert_ne in Hf by exact Hne. exact Hf.
Qed.

(** Every directory on the way is there already: nothing is created. *)
Lemma mkdir_from_existing (todo : path) :
  forall (d : gmap path node) (base : path),
    (forall k, (1 <= k <= length todo)%nat ->
               d !! (base ++ firstn k todo) = Some Dir) ->
    mkdir_from d base todo = (Normal tt, d).
Proof.
  induction todo as [|c todo IH]; intros d base H; [reflexivity|].
  cbn [mkdir_from]. rewrite (node_at_app_nonempty d base [c]) by discriminate.
  pose proof (H 1%nat ltac:(cbn [length]; lia)) as H1. change (firstn 1 (c :: todo)) with [c] in H1.
  rewrite H1. apply IH. intros k Hk. rewrite <- app_assoc.
  apply (H (S k)). cbn [length]. lia.
Qed.

(** After a successful run every directory on the way is there. *)
Lemma mkdir_from_made (todo : path) :
  forall (d d' : gmap path node) (base : path),
    mkdir_from d base todo = (Normal tt, d') ->
    forall k, (1 <= k <= length todo)%nat ->
              d' !! (base ++ firstn k todo) = Some Dir.
Proof.
  induction todo as [|c todo IH]; intros d d' base H k Hk;
    [cbn [length] in Hk; lia|].
  cbn [mkdir_from] in H.
  rewrite (node_at_app_nonempty d base [c]) in H by discriminate.
  assert (Hstep : forall d1,
            d1 !! (base ++ [c]) = Some Dir ->
            mkdir_from d1 (base ++ [c]) todo = (Normal tt, d') ->
            d' !! (base ++ firstn k (c :: todo)) = Some Dir).
  { intros d1 H1 Hrun. destruct k as [|k]; [lia|]. cbn [firstn].
    destruct k as [|k].
    - cbn [firstn]. pose proof (proj1 (mkdir_from_keeps todo d1 (base ++ [c]))) as Hk1.
      rewrite Hrun in Hk1. apply Hk1. exact H1.
    - change (base ++ c :: firstn (S k) todo)
        with (base ++ [c] ++ firstn (S k) todo).
      rewrite app_assoc. apply (IH d1 d' _ Hrun). cbn [length] in Hk. lia. }
  destruct (d !! (base ++ [c])) as [[content|]|] eqn:E.
  - discriminate H.
  - apply (Hstep d E H).
  - apply (Hstep _ (lookup_insert_eq _ _ _) H).
Qed.

(** The run fails exactly when something on the way is a file. *)
Lemma mkdir_from_fails (todo : path) :
  forall (d : gmap path node) (base : path) (k : nat) (c : str),
    (1 <= k <= length todo)%nat ->
    node_at d (base ++ firstn k todo) = Some (File c) ->
    exists e, fst (mkdir_from d base todo) = Throw e.
Proof.
  induction todo as [|a todo IH]; intros d base k c Hk Hf;
    [cbn [length] in Hk; lia|].
  cbn [mkdir_from]. rewrite (node_at_app_nonempty d base [a]) by discriminate.
  destruct k as [|k]; [lia|].
  destruct k as [|k].
  - change (firstn 1 (a :: todo)) with [a] in Hf.
    rewrite (node_at_app_nonempty d base [a]) in Hf by discriminate.
    rewrite Hf. eexists. reflexivity.
  - assert (Hdeep : forall d1,
              (forall q, q <> base ++ [a] -> d1 !! q = d !! q) ->
              exists e, fst (mkdir_from d1 (base ++ [a]) todo) = Throw e).
    { intros d1 Hd1. apply (IH d1 (base ++ [a]) (S k) c).
      - cbn [length] in Hk. lia.
      - rewrite <- app_assoc.
        change ([a] ++ firstn (S k) todo) with (firstn (S (S k)) (a :: todo)).
        assert (Hne : firstn (S (S k)) (a :: todo) <> []) by discriminate.
        rewrite (node_at_app_nonempty _ _ _ Hne).
        rewrite (node_at_app_nonempty _ _ _ Hne) in Hf.
        rewrite Hd1; [exact Hf|].
        intros E. rewrite <- (app_nil_r (base ++ [a])) in E.
        rewrite <- !app_assoc in E. apply app_inv_head in E.
        destruct todo; [cbn in Hk; lia|discriminate E]. }
    destruct (d !! (base ++ [a])) as [[content|]|] eqn:E.
    + eexists. reflexivity.
    + apply Hdeep. reflexivity.
    + apply Hdeep. intros q Hq. apply lookup_insert_ne. congruence.
Qed.


(** X1: [ensureDir] succeeds exactly when nothing on the way to the directory
    is a file; after a success every directory on the way is there and a
    second call changes nothing; whatever the outcome, no node is removed
    and no file is created. *)
Theorem ensureDir_spec (dirPath : path) (w : World) :
  (fst (ensureDir dirPath w) = Normal tt
   <-> forall k c, (k <= length dirPath)%nat ->
                   node_at (disk w) (firstn k dirPath) <> Some (File c))
  /\ (fst (ensureDir dirPath w) = Normal tt ->
      (forall k, (k <= length dirPath)%nat ->
                 node_at (disk (snd (ensureDir dirPath w))) (firstn k dirPath)
                 = Some Dir)
      /\ ensureDir dirPath (snd (ensureDir dirPath w))
         = (Normal tt, snd (ensureDir dirPath w)))
  /\ (forall q x, disk w !! q = Some x ->
                  disk (snd (ensureDir dirPath w)) !! q = Some x)
  /\ (forall q c, disk (snd (ensureDir dirPath w)) !! q = Some (File c) ->
                  disk w !! q = Some (File c)).
Proof.
  unfold ensureDir, mkdirSync_recursive.
  destruct (mkdir_from (disk w) [] dirPath) as [r d'] eqn:Hrun.
  cbn [fst snd disk set_disk].
  pose proof (mkdir_from_keeps dirPath (disk w) []) as [Hkeep Hfiles].
  rewrite Hrun in Hkeep, Hfiles. cbn [snd] in Hkeep, Hfiles.
  split; [split|split; [|split; assumption]].
  - intros -> k c Hk Hf. destruct k as [|k]; [discriminate Hf|].
    destruct (mkdir_from_fails dirPath (disk w) [] (S k) c ltac:(lia) Hf)
      as [e He].
    rewrite Hrun in He. discriminate He.
  - intros Hclear.
    destruct (mkdir_from_spec dirPath (disk w) []) as (d1 & Hrun1 & _).
    { intros k c Hk. apply Hclear. lia. }
    rewrite Hrun in Hrun1. injection Hrun1 as -> _. reflexivity.
  - intros ->.
    pose proof (mkdir_from_made dirPath (disk w) d' [] Hrun) as Hmade.
    cbn [app] in Hmade. split.
    + intros k Hk. destruct k as [|k]; [reflexivity|].
      destruct dirPath as [|a p]; [cbn [length] in Hk; lia|].
      change (node_at d' (firstn (S k) (a :: p)))
        with (d' !! firstn (S k) (a :: p)).
      apply Hmade. lia.
    + rewrite (mkdir_from_existing dirPath d' [] Hmade).
      destruct w; reflexivity.
Qed.

(** [writeFileSync] on a path whose parent is a directory. *)
Lemma writeFileSync_run (p : path) (data : str) (w : World) :
  node_at (disk w) (dirname p) = Some Dir ->
  node_at (disk w) p <> Some Dir ->
  writeFileSync p data w
  = (Normal tt, set_disk (fun d => <[p := File (toWellFormed data)]> d) w).
Proof.
  intros Hd Hp. unfold writeFileSync. rewrite Hd.
  destruct (node_at (disk w) p) as [[c|]|]; congruence.
Qed.

(** [writeFileSync] changes the disk at its path only, and only on
    success. *)
Lemma writeFileSync_frame (p : path) (data : str) (w : World) :
  snd (writeFileSync p data w) = w
  \/ snd (writeFileSync p data w)
     = set_disk (fun d => <[p := File (toWellFormed data)]> d) w.
Proof.
  unfold writeFileSync.
  destruct (node_at (disk w) p) as [[c|]|];
    destruct (node_at (disk w) (dirname p)) as [[c'|]|]; cbn; auto.
Qed.

(** The file a canonical value was written to reads as that value. *)
Lemma readLogFile_written (filePath : path) (v : json) (w : World) :
  canonical v -> filePath <> [] ->
  disk w !! filePath = Some (File (toWellFormed (JSON_stringify v))) ->
  readLogFile filePath w = (Normal v, w).
Proof.
  intros Hc Hne Hf. rewrite readLogFile_node. f_equal.
  rewrite node_at_nonempty by exact Hne. rewrite Hf. cbn [log_of_node].
  unfold JSON_stringify. rewrite serialize_wellFormed by exact Hc.
  fold (JSON_stringify v).
  destruct (trim_JSON_stringify v Hc) as [Ht Hn]. rewrite Ht.
  destruct (JSON_stringify v) eqn:E; [congruence|].
  rewrite <- E. rewrite JSON_parse_stringify by exact Hc. reflexivity.
Qed.

(** One append, on a path that reads as an array. *)
Lemma appendLogEntry_run (filePath : path) (r : LogEntry) (w : World)
    (items : list json) :
  ancestors_clear (disk w) filePath ->
  fst (readLogFile filePath w) = Normal (JArr items) ->
  exists d',
    appendLogEntry filePath r w
    = (Normal tt,
       set_disk (fun _ =>
         <[filePath := File (toWellFormed
                               (JSON_stringify (JArr (items ++ [LogEntry_value r]))))]> d') w)
    /\ node_at d' (dirname filePath) = Some Dir
    /\ (forall q x, disk w !! q = Some x -> d' !! q = Some x)
    /\ (forall q c, d' !! q = Some (File c) -> disk w !! q = Some (File c)).
Proof.
  intros Hclear Hread. rewrite readLogFile_node in Hread. cbn [fst] in Hread.
  assert (Hne : filePath <> []) by (intros ->; discriminate Hread).
  destruct (ensureDir_dirname filePath w Hne Hclear)
    as (d' & Hens & Hdir & Hsame & Hkeep).
  exists d'. split; [|split; [exact Hdir|split; [exact Hkeep|]]].
  - unfold appendLogEntry, bind. rewrite Hens. rewrite readLogFile_node.
    cbn [disk set_disk]. rewrite Hsame, Hread. cbn [lift push].
    unfold writeLogFile. rewrite writeFileSync_run.
    + destruct w; reflexivity.
    + exact Hdir.
    + cbn [disk set_disk]. rewrite Hsame. intros E. rewrite E in Hread.
      discriminate Hread.
  - pose proof (proj2 (mkdir_from_keeps (dirname filePath) (disk w) [])) as Hf.
    unfold ensureDir, mkdirSync_recursive in Hens.
    destruct (mkdir_from (disk w) [] (dirname filePath)) as [r0 d0].
    injection Hens as _ Hd. cbn [snd] in Hf. subst d0. exact Hf.
Qed.


Lemma ancestors_exist_clear (d : gmap path node) (p : path) :
  ancestors_exist d p -> ancestors_clear d p.
Proof. intros H k c Hk E. rewrite (H k Hk) in E. discriminate E. Qed.

(** [ensureDir] of a parent whose ancestors are all there changes nothing. *)
Lemma ensureDir_existing (p : path) (w : World) :
  ancestors_exist (disk w) p -> ensureDir (dirname p) w = (Normal tt, w).
Proof.
  intros H. unfold ensureDir, mkdirSync_recursive.
  rewrite mkdir_from_existing; [destruct w; reflexivity|].
  intros k Hk. cbn [app].
  destruct p as [|a p']; [cbn in Hk; lia|].
  pose proof (dirname_length (a :: p') ltac:(discriminate)) as L.
  rewrite dirname_firstn by lia.
  rewrite <- node_at_nonempty.
  - apply H. lia.
  - destruct k; [lia|discriminate].
Qed.

(** X2: records appended one after the other to a log that reads as
    the records [es0] leave a log that reads as [es0] followed by the
    appended records, in the order of the appends; nothing is lost or
    reordered. *)
Theorem appendLogEntry_sequence (filePath : path) (es : list LogEntry) :
  forall (es0 : list LogEntry) (w : World),
  ancestors_clear (disk w) filePath ->
  fst (readLogFile filePath w) = Normal (LogEntries_value es0) ->
  exists w',
    appendLogEntries filePath es w = (Normal tt, w')
    /\ readLogFile filePath w' = (Normal (LogEntries_value (es0 ++ es)), w')
    /\ (es <> [] ->
        disk w' !! filePath
        = Some (File (JSON_stringify (LogEntries_value (es0 ++ es))))).
Proof.
  induction es as [|e es IH]; intros es0 w Hclear Hread.
  - exists w. rewrite app_nil_r. split; [reflexivity|]. split; [|congruence].
    rewrite readLogFile_node in *. cbn [fst] in Hread. rewrite Hread.
    reflexivity.
  - destruct (appendLogEntry_run filePath e w (List.map LogEntry_value es0)
                Hclear Hread) as (d' & Hrun & Hdir & Hkeep & Hfiles).
    assert (Hne : filePath <> []).
    { intros ->. rewrite readLogFile_node in Hread. discriminate Hread. }
    set (w1 := set_disk _ w) in Hrun.
    assert (Hv : JArr (List.map LogEntry_value es0 ++ [LogEntry_value e])
                 = LogEntries_value (es0 ++ [e])).
    { unfold LogEntries_value. rewrite List.map_app. reflexivity. }
    assert (Hfile : disk w1 !! filePath
                    = Some (File (toWellFormed
                                    (JSON_stringify (LogEntries_value (es0 ++ [e])))))).
    { cbn [w1 disk set_disk]. rewrite lookup_insert_eq, Hv. reflexivity. }
    assert (Hread1 : readLogFile filePath w1
                     = (Normal (LogEntries_value (es0 ++ [e])), w1)).
    { apply readLogFile_written;
        [apply LogEntries_value_canonical|exact Hne|exact Hfile]. }
    assert (Hclear1 : ancestors_clear (disk w1) filePath).
    { intros k c Hk E. apply (Hclear k c Hk).
      destruct k as [|k]; [discriminate E|].
      assert (Hq : firstn (S k) filePath <> []).
      { destruct filePath; [congruence|discriminate]. }
      rewrite node_at_nonempty in * by exact Hq.
      cbn [w1 disk set_disk] in E. rewrite lookup_insert_ne in E.
      - apply Hfiles. exact E.
      - intros E'. apply (f_equal (@length _)) in E'.
        rewrite length_firstn in E'. lia. }
    destruct (IH (es0 ++ [e]) w1 Hclear1) as (w' & Hrest & Hfinal & Hcontent).
    { rewrite Hread1. reflexivity. }
    exists w'. cbn [appendLogEntries]. unfold bind. rewrite Hrun.
    rewrite <- app_assoc in Hfinal, Hcontent. cbn [app] in Hfinal, Hcontent.
    split; [exact Hrest|]. split; [exact Hfinal|]. intros _.
    destruct es as [|e' es'].
    + cbn [appendLogEntries] in Hrest. injection Hrest as <-.
      rewrite Hfile. unfold JSON_stringify.
      rewrite serialize_wellFormed by apply LogEntries_value_canonical.
      reflexivity.
    + apply Hcontent. discriminate.
Qed.

(** Whatever the outcome, an append changes the disk at its path only,
    apart from the directories it creates, and nothing but the disk. *)
Lemma appendLogEntry_kept (filePath : path) (r : LogEntry) (w : World) :
  kept_but filePath (disk w) (disk (snd (appendLogEntry filePath r w)))
  /\ same_but_disk w (snd (appendLogEntry filePath r w)).
Proof.
  unfold appendLogEntry, bind, ensureDir, mkdirSync_recursive.
  pose proof (mkdir_from_keeps (dirname filePath) (disk w) []) as [Hkeep Hfiles].
  destruct (mkdir_from (disk w) [] (dirname filePath)) as [[[]|e] d'];
    cbn [snd] in Hkeep, Hfiles.
  2:{ cbn [snd disk set_disk]. split; [|repeat split].
      split; [|split]; eauto. }
  rewrite readLogFile_node.
  destruct (log_of_node filePath _) as [entries|e].
  2:{ cbn [snd disk set_disk]. split; [|repeat split].
      split; [|split]; eauto. }
  unfold lift.
  destruct (push entries (LogEntry_value r)) as [entries'|e].
  2:{ cbn [snd disk set_disk]. split; [|repeat split].
      split; [|split]; eauto. }
  unfold writeLogFile.
  destruct (writeFileSync_frame filePath (JSON_stringify entries')
              (set_disk (fun _ => d') w)) as [-> | ->].
  - cbn [snd disk set_disk]. split; [|repeat split].
    split; [|split]; eauto.
  - cbn [snd disk set_disk]. split; [|repeat split].
    split; [|split].
    + intros q x Hq Hx. rewrite lookup_insert_ne by congruence. auto.
    + intros q c Hq Hx. rewrite lookup_insert_ne in Hx by congruence. auto.
    + intros x _. rewrite lookup_insert_eq. eauto.
Qed.

(** X3: whatever its outcome, an append removes no node, changes no path
    but the log's own, creates no file but the log (directories apart), and
    leaves the clock, the service, the console, the key and the
    notifications as they were. *)
Theorem appendLogEntry_frame (filePath : path) (r : LogEntry) (w : World) :
  kept_but filePath (disk w) (disk (snd (appendLogEntry filePath r w)))
  /\ same_but_disk w (snd (appendLogEntry filePath r w)).
Proof. exact (appendLogEntry_kept filePath r w). Qed.

(** X4: an append to a log whose text is not a JSON array throws and
    leaves the disk exactly as it was, so the unreadable log is never
    overwritten; the error is the one of the read when the text is not
    JSON, a TypeError when it is JSON of another kind. *)
Theorem appendLogEntry_keeps_unreadable_log (filePath : path) (r : LogEntry)
    (w : World) (content : str) :
  node_at (disk w) filePath = Some (File content) ->
  ancestors_exist (disk w) filePath ->
  trim content <> [] ->
  (JSON_parse (trim content) = None ->
   appendLogEntry filePath r w
   = (Throw (LogParseError filePath SyntaxError), w))
  /\ (forall v, JSON_parse (trim content) = Some v ->
                (forall items, v <> JArr items) ->
                appendLogEntry filePath r w = (Throw TypeError, w)).
Proof.
  intros Hf Hanc Hne.
  unfold appendLogEntry, bind. rewrite (ensureDir_existing filePath w Hanc).
  rewrite readLogFile_node, Hf. cbn [log_of_node].
  destruct (trim content) as [|c raw]; [congruence|]. split.
  - intros ->. reflexivity.
  - intros v -> Hv. unfold lift.
    destruct v; try reflexivity. exfalso. eapply Hv. reflexivity.
Qed.

(** X5: right after a record is appended, the guard finds that record:
    it reports a duplicate exactly for the record's own prompt, and only
    while the clock is less than two minutes past the record's timestamp. *)
Theorem isDuplicateEntry_after_append (filePath : path) (r : LogEntry)
    (es : list LogEntry) (w : World) :
  ancestors_clear (disk w) filePath ->
  fst (readLogFile filePath w) = Normal (LogEntries_value es) ->
  exists w1,
    appendLogEntry filePath r w = (Normal tt, w1)
    /\ forall w2 text,
         disk w2 = disk w1 ->
         isDuplicateEntry filePath text w2
         = (Normal (bool_decide (aiPrompt r = text)
                    && elapsed_below TWO_MINUTES_MS
                         (Date_time (JStr (timestamp r))) (clock w2)), w2).
Proof.
  intros Hclear Hread.
  destruct (appendLogEntry_run filePath r w (List.map LogEntry_value es)
              Hclear Hread) as (d' & Hrun & _).
  eexists. split; [exact Hrun|]. intros w2 text Hd.
  assert (Hne : filePath <> []).
  { intros ->. rewrite readLogFile_node in Hread. discriminate Hread. }
  assert (Hr2 : readLogFile filePath w2
                = (Normal (LogEntries_value (es ++ [r])), w2)).
  { apply readLogFile_written;
      [apply LogEntries_value_canonical|exact Hne|].
    rewrite Hd. cbn [disk set_disk]. rewrite lookup_insert_eq.
    unfold LogEntries_value. rewrite List.map_app. reflexivity. }
  unfold LogEntries_value in Hr2. rewrite List.map_app in Hr2.
  exact (isDuplicateEntry_last_record filePath text w2
           (List.map LogEntry_value es) _ (aiPrompt r)
           (f_equal fst Hr2) eq_refl).
Qed.


Lemma Timesheet_value_canonical (t : Timesheet) : canonical (Timesheet_value t).
Proof.
  unfold Timesheet_value. apply canonical_JObj. split; [vm_compute; reflexivity|].
  repeat constructor. apply canonical_JArr, Forall_map, Forall_forall.
  intros c _. unfold TimesheetCategory_value. apply canonical_JObj.
  split; [vm_compute; reflexivity|]. repeat constructor.
  apply canonical_JArr, Forall_map, Forall_forall.
  intros e _. unfold TimesheetEntry_value. apply canonical_JObj.
  split; [vm_compute; reflexivity|]. repeat constructor.
Qed.

(** X6: unlike [writeLogFile], [writeTimesheetFile] creates the missing
    directories; it puts the serialization at the path, touches no other
    path, and a timesheet written this way parses back to itself. *)
Theorem writeTimesheetFile_spec (filePath : path) (timesheet : json) (w : World) :
  ancestors_clear (disk w) filePath ->
  node_at (disk w) filePath <> Some Dir ->
  exists w',
    writeTimesheetFile filePath timesheet w = (Normal tt, w')
    /\ node_at (disk w') (dirname filePath) = Some Dir
    /\ disk w' !! filePath
       = Some (File (toWellFormed (JSON_stringify timesheet)))
    /\ kept_but filePath (disk w) (disk w')
    /\ same_but_disk w w'
    /\ (canonical timesheet ->
        toWellFormed (JSON_stringify timesheet) = JSON_stringify timesheet
        /\ JSON_parse (trim (JSON_stringify timesheet)) = Some timesheet)
    /\ (forall t, timesheet = Timesheet_value t ->
          disk w' !! filePath = Some (File (JSON_stringify timesheet))
          /\ JSON_parse (trim (JSON_stringify timesheet)) = Some timesheet).
Proof.
  intros Hclear Hnd.
  assert (Hcanon : canonical timesheet ->
            toWellFormed (JSON_stringify timesheet) = JSON_stringify timesheet
            /\ JSON_parse (trim (JSON_stringify timesheet)) = Some timesheet).
  { intros Hc. split.
    + unfold JSON_stringify. apply serialize_wellFormed. exact Hc.
    + destruct (trim_JSON_stringify timesheet Hc) as [Ht _]. rewrite Ht.
      apply JSON_parse_stringify. exact Hc. }
  assert (Hne : filePath <> []) by (intros ->; apply Hnd; reflexivity).
  destruct (ensureDir_dirname filePath w Hne Hclear)
    as (d' & Hens & Hdir & Hsame & Hkeep).
  assert (Hfiles : forall q c, d' !! q = Some (File c) -> disk w !! q = Some (File c)).
  { pose proof (proj2 (mkdir_from_keeps (dirname filePath) (disk w) [])) as Hf.
    unfold ensureDir, mkdirSync_recursive in Hens.
    destruct (mkdir_from (disk w) [] (dirname filePath)) as [r0 d0].
    injection Hens as _ Hd. cbn [snd] in Hf. subst d0. exact Hf. }
  eexists. split.
  { unfold writeTimesheetFile, bind. rewrite Hens.
    apply writeFileSync_run; cbn [disk set_disk]; [exact Hdir|].
    rewrite Hsame. exact Hnd. }
  cbn [disk set_disk clock remote requests console secret notifications].
  split; [|split; [apply lookup_insert_eq|split; [|split; [repeat split|split]]]].
  - destruct (dirname filePath) as [|a q] eqn:E; [reflexivity|].
    rewrite node_at_nonempty in * by discriminate.
    rewrite lookup_insert_ne; [exact Hdir|].
    intros E'. pose proof (dirname_length filePath Hne) as L.
    rewrite E, <- E' in L. lia.
  - split; [|split].
    + intros q x Hq Hx. rewrite lookup_insert_ne by congruence. auto.
    + intros q c Hq Hx. rewrite lookup_insert_ne in Hx by congruence. auto.
    + intros x _. rewrite lookup_insert_eq. eauto.
  - exact Hcanon.
  - intros t ->.
    destruct (Hcanon (Timesheet_value_canonical t)) as [Hwf Hp].
    rewrite lookup_insert_eq, Hwf. split; [reflexivity|exact Hp].
Qed.

End Store.

Section Guard.
Context {engine : Engine} {service : Service}.

(** The guard changes nothing, and what it throws is the error of the
    read or a TypeError. *)
Lemma isDuplicateEntry_outcome (filePath : path) (text : str) (w : World) :
  snd (isDuplicateEntry filePath text w) = w
  /\ (forall e, fst (isDuplicateEntry filePath text w) = Throw e ->
                e = TypeError \/ exists cause, e = LogParseError filePath cause).
Proof.
  unfold isDuplicateEntry, bind, lift, ret, Date_now.
  rewrite readLogFile_node.
  destruct (log_of_node filePath (node_at (disk w) filePath)) as [entries|e0] eqn:El.
  2:{ split; [reflexivity|]. intros e [= <-]. right.
      unfold log_of_node in El.
      repeat match type of El with
             | match ?x with _ => _ end = _ => destruct x
             end; try discriminate El; injection El as <-; eexists; reflexivity. }
  assert (Hprop : forall x k e, get_prop x k = Throw e -> e = TypeError).
  { intros x k e H. destruct x as [[]|]; cbn in H; congruence. }
  assert (Hlen : forall v e, length_is_zero v = Throw e -> e = TypeError).
  { intros v e H. destruct v; cbn in H; congruence. }
  destruct (length_is_zero entries) as [[|]|e1] eqn:E1.
  - split; [reflexivity|]. intros e [=].
  - destruct (get_prop (last_element entries) (lit "aiPrompt")) as [p|e2] eqn:E2.
    2:{ split; [reflexivity|]. intros e [= <-]. left. eapply Hprop, E2. }
    destruct (match p with
              | None | Some JNull =>
                  get_prop (last_element entries) (lit "description")
              | Some _ => Normal p
              end) as [d|e3] eqn:E3.
    2:{ split; [reflexivity|]. intros e [= <-]. left.
        destruct p as [[]|]; try discriminate E3; eapply Hprop, E3. }
    destruct (strict_ne_string (nullish_or d (Some (JStr []))) text).
    + split; [reflexivity|]. intros e [=].
    + destruct (get_prop (last_element entries) (lit "timestamp")) as [t|e4] eqn:E4.
      * split; [reflexivity|]. intros e [=].
      * split; [reflexivity|]. intros e [= <-]. left. eapply Hprop, E4.
  - split; [reflexivity|]. intros e [= <-]. left. eapply Hlen, E1.
Qed.

(** X7: the guard never changes anything, and the only errors it throws
    are the error of the read and a TypeError. *)
Theorem isDuplicateEntry_reads_only (filePath : path) (text : str) (w : World) :
  snd (isDuplicateEntry filePath text w) = w
  /\ (forall e, fst (isDuplicateEntry filePath text w) = Throw e ->
                e = TypeError \/ exists cause, e = LogParseError filePath cause).
Proof. exact (isDuplicateEntry_outcome filePath text w). Qed.

End Guard.

(** ** Fences and requests *)

Section Fences.

Lemma strip_open_fence_opening (o : str) (c : N) (rest : str) :
  opening_fence o -> is_js_space c = false -> to_lower_ascii c <> 106 ->
  c <> 96 ->
  strip_open_fence (o ++ c :: rest) = c :: rest.
Proof.
  intros [->|(tag & ws & Htag & Hws & ->)] Hc Hj H96.
  - cbn [app]. unfold strip_open_fence. rewrite no_fence by exact H96.
    reflexivity.
  - unfold strip_open_fence, FENCE. rewrite <- !app_assoc.
    change (strip_prefix (lit "```") (lit "```" ++ tag ++ ws ++ c :: rest))
      with (Some (tag ++ ws ++ c :: rest)).
    cbv beta match.
    assert (Hrest : trimStart (ws ++ c :: rest) = c :: rest).
    { rewrite trimStart_app_space by exact Hws.
      apply trimStart_nonspace. exact Hc. }
    destruct Htag as [->|Htag].
    + cbn [app]. rewrite no_json_tag; [exact Hrest|].
      destruct ws as [|x ws']; cbn [app]; [exact Hj|].
      apply space_not_j. cbn in Hws.
      apply andb_true_iff in Hws as [Hx _]. exact Hx.
    + assert (Hlen : length tag = 4%nat).
      { apply (f_equal (@length _)) in Htag. rewrite length_map in Htag.
        exact Htag. }
      rewrite firstn_app, Hlen, Nat.sub_diag. cbn [firstn].
      rewrite app_nil_r, <- Hlen, firstn_all, Htag.
      change (strip_prefix (lit "json") (lit "json")) with (Some (@nil N)).
      cbv beta match.
      rewrite skipn_app, Hlen, Nat.sub_diag. cbn [skipn].
      rewrite <- Hlen, skipn_all. cbn [app]. exact Hrest.
Qed.

Lemma strip_close_fence_closing (cl : str) (c' : N) (front : str) :
  closing_fence cl -> is_js_space c' = false -> c' <> 96 ->
  strip_close_fence (front ++ c' :: cl) = front ++ [c'].
Proof.
  intros [->|(ws & Hws & ->)] Hc H96; unfold strip_close_fence.
  - rewrite rev_unit. rewrite no_fence by exact H96. reflexivity.
  - change (front ++ c' :: ws ++ FENCE) with (front ++ (c' :: ws) ++ FENCE).
    rewrite !rev_app_distr. unfold FENCE.
    change (rev (lit "```")) with (lit "```").
    rewrite <- app_assoc.
    change (strip_prefix (lit "```") (lit "```" ++ rev (c' :: ws) ++ rev front))
      with (Some (rev (c' :: ws) ++ rev front)).
    cbv beta match. cbn [rev]. rewrite <- !app_assoc.
    rewrite trimStart_app_space.
    + cbn [app]. rewrite trimStart_nonspace by exact Hc.
      change (c' :: rev front) with ([c'] ++ rev front).
      rewrite rev_app_distr, rev_involutive. reflexivity.
    + rewrite forallb_forall in *. intros x Hx. apply Hws.
      apply in_rev. exact Hx.
Qed.

Lemma strip_fences_json_like (o body cl : str) :
  opening_fence o -> closing_fence cl -> json_like body ->
  strip_fences (o ++ body ++ cl) = body.
Proof.
  intros Ho Hcl (c & mid & c' & -> & Hc & Hc' & Hj & H96 & H96').
  unfold strip_fences.
  change ((c :: mid ++ [c']) ++ cl) with (c :: (mid ++ [c']) ++ cl).
  rewrite strip_open_fence_opening by assumption.
  rewrite <- app_assoc. cbn [app].
  change (c :: mid ++ c' :: cl) with ((c :: mid) ++ c' :: cl).
  rewrite strip_close_fence_closing by assumption.
  cbn [app]. apply trim_bracketed; assumption.
Qed.

Lemma JSON_stringify_json_like (v : json) :
  canonical v -> json_like (JSON_stringify v).
Proof.
  unfold JSON_stringify, json_like.
  destruct v as [|[|]|n|s|[|x xs]|[|kv ms]]; cbn [canonical]; intros H;
    try contradiction.
  - exists 110, (lit "ul"), 108. repeat split; discriminate.
  - exists 116, (lit "ru"), 101. repeat split; discriminate.
  - exists 102, (lit "als"), 101. repeat split; discriminate.
  - exists 34, (quote_body s), 34. repeat split; discriminate.
  - exists 91, [], 93. repeat split; discriminate.
  - eexists 91, _, 93. split; [|repeat split; discriminate].
    cbn [serialize List.map block]. f_equal. rewrite !app_comm_cons.
    rewrite !app_assoc. reflexivity.
  - exists 123, [], 125. repeat split; discriminate.
  - eexists 123, _, 125. split; [|repeat split; discriminate].
    cbn [serialize List.map block]. f_equal. rewrite !app_comm_cons.
    rewrite !app_assoc. reflexivity.
Qed.

End Fences.

Section Requests.
Context {engine : Engine} {service : Service}.

(** What the orchestrator leaves alone, and how many requests it makes. *)
Lemma fallback_loop_frame (apiKey prompt : str) (models : list str) :
  forall lastError w,
    let w' := snd (fallback_loop apiKey prompt models lastError w) in
    disk w' = disk w /\ clock w' = clock w /\ secret w' = secret w
    /\ notifications w' = notifications w
    /\ exists n, (n <= length models)%nat
         /\ requests w'
            = requests w ++ List.map (request_of apiKey prompt) (firstn n models).
Proof.
  induction models as [|m ms IH]; intros lastError w.
  - cbn. repeat split. exists O. split; [lia|]. cbn. now rewrite app_nil_r.
  - cbn [fallback_loop]. unfold try_catch, bind, model_generateContent.
    destruct (generateContent apiKey m prompt (remote w)) as [[e|text] r].
    + unfold console_log.
      specialize (IH (Some e)
        (add_console (warn_model_failed m e)
           (set_remote r {| req_apiKey := apiKey; req_model := m;
                            req_prompt := prompt |} w))).
      cbn zeta in *. destruct IH as (Hd & Hc & Hs & Hn & n & Hle & Hr).
      cbn [disk clock secret notifications requests add_console set_remote] in *.
      repeat split; try assumption.
      exists (S n). split; [cbn [length]; lia|].
      rewrite Hr. cbn [firstn List.map]. rewrite <- app_assoc. reflexivity.
    + cbn. repeat split. exists 1%nat. split; [lia|]. reflexivity.
Qed.

(** The first candidate that answers decides the result. *)
Lemma generateContentWithFallback_first_answer (apiKey prompt : str)
    (w : World) (failed : list str) (m : str) (later : list str)
    (errs : list exn) (r1 : Remote) (text : str) (r2 : Remote) :
  answers apiKey prompt failed (remote w) = (List.map inl errs, r1) ->
  generateContent apiKey m prompt r1 = (inr text, r2) ->
  generateContentWithFallback apiKey prompt (failed ++ m :: later) w
  = (Normal (trim text),
     {| disk := disk w; clock := clock w; remote := r2;
        requests := requests w
                    ++ List.map (request_of apiKey prompt) (failed ++ [m]);
        console := console w
                   ++ List.map (fun me => warn_model_failed (fst me) (snd me))
                               (combine failed errs);
        secret := secret w; notifications := notifications w |}).
Proof.
  intros Ha Hm. unfold generateContentWithFallback.
  rewrite (fallback_loop_failures apiKey prompt (m :: later) failed errs None w r1 Ha).
  cbn [fallback_loop]. unfold try_catch, bind, model_generateContent.
  cbn [remote after_failures]. rewrite Hm. unfold ret, set_remote.
  cbn. rewrite List.map_app. rewrite <- app_assoc. reflexivity.
Qed.

(** [summarizeCode] always returns; it makes at most three requests, all
    with the prompt built from the snippet, and changes nothing else. *)
Lemma summarizeCode_frame (apiKey codeSnippet : str)
    (taskDescription : option str) (w : World) :
  exists s w',
    summarizeCode apiKey codeSnippet taskDescription w = (Normal s, w')
    /\ disk w' = disk w /\ clock w' = clock w /\ secret w' = secret w
    /\ notifications w' = notifications w
    /\ exists n, (n <= 3)%nat
         /\ requests w'
            = requests w
              ++ List.map (request_of apiKey
                             (summary_prompt codeSnippet taskDescription))
                          (firstn n FALLBACK_MODELS).
Proof.
  unfold summarizeCode.
  destruct (trim codeSnippet) as [|c t].
  - eexists _, _. split; [reflexivity|]. repeat split.
    exists O. split; [lia|]. cbn. now rewrite app_nil_r.
  - unfold try_catch, generateContentWithFallback.
    pose proof (fallback_loop_frame apiKey
                  (summary_prompt codeSnippet taskDescription)
                  FALLBACK_MODELS None w) as H.
    cbn zeta in H.
    destruct (fallback_loop _ _ _ None w) as [[s|e] w1]; cbn [snd] in H;
      destruct H as (Hd & Hc & Hs & Hn & n & Hle & Hr).
    + eexists _, _. split; [reflexivity|]. repeat split; try assumption.
      exists n. split; assumption.
    + eexists _, _. split; [reflexivity|].
      cbn [disk clock secret notifications requests add_console].
      repeat split; try assumption. exists n. split; assumption.
Qed.

(** X8: [summarizeCode] always returns; it makes at most three requests, to
    the candidates in their fixed order and all with the prompt built from
    the snippet, and touches neither the disk nor the key; when a
    candidate answers after the ones before it threw, the result is its
    trimmed text. *)
Theorem summarizeCode_requests (apiKey codeSnippet : str)
    (taskDescription : option str) (w : World) :
  (exists s w',
     summarizeCode apiKey codeSnippet taskDescription w = (Normal s, w')
     /\ disk w' = disk w /\ clock w' = clock w /\ secret w' = secret w
     /\ notifications w' = notifications w
     /\ exists n, (n <= 3)%nat
          /\ requests w'
             = requests w
               ++ List.map (request_of apiKey
                              (summary_prompt codeSnippet taskDescription))
                           (firstn n FALLBACK_MODELS))
  /\ (forall failed m later errs r1 text r2,
        trim codeSnippet <> [] ->
        FALLBACK_MODELS = failed ++ m :: later ->
        answers apiKey (summary_prompt codeSnippet taskDescription) failed
                (remote w) = (List.map inl errs, r1) ->
        generateContent apiKey m (summary_prompt codeSnippet taskDescription) r1
        = (inr text, r2) ->
        fst (summarizeCode apiKey codeSnippet taskDescription w)
        = Normal (trim text)).
Proof.
  split; [apply summarizeCode_frame|].
  intros failed m later errs r1 text r2 Hne Hm Ha Hg. unfold summarizeCode.
  destruct (trim codeSnippet) as [|c t]; [congruence|].
  unfold try_catch. rewrite Hm.
  rewrite (generateContentWithFallback_first_answer _ _ w failed m later
             errs r1 text r2 Ha Hg).
  reflexivity.
Qed.

(** X9: a response that is a JSON text, bare or with an opening fence
    (tagged [json] in any letter case or not) or a closing fence or both,
    is parsed as the JSON text alone; in particular a serialized value
    comes back as that value. *)
Theorem generateTimesheetFromLogs_strips_fences (apiKey : str) (entries : json)
    (dateStr text : str) (w w1 : World) (o body cl : str) :
  generateContentWithFallback apiKey
    (timesheet_prompt (JSON_stringify entries) dateStr) FALLBACK_MODELS w
  = (Normal text, w1) ->
  opening_fence o -> closing_fence cl -> text = o ++ body ++ cl ->
  (json_like body ->
   generateTimesheetFromLogs apiKey entries dateStr w
   = match JSON_parse body with
     | Some v => (Normal v, w1)
     | None => (Throw (TimesheetError SyntaxError),
                add_console (error_generateTimesheetFromLogs SyntaxError) w1)
     end)
  /\ (forall v, canonical v -> body = JSON_stringify v ->
        generateTimesheetFromLogs apiKey entries dateStr w = (Normal v, w1)).
Proof.
  intros H Ho Hcl ->.
  rewrite (generateTimesheetFromLogs_of_text _ _ _ _ _ _ H).
  split.
  - intros Hb. rewrite strip_fences_json_like by assumption. reflexivity.
  - intros v Hc ->.
    rewrite strip_fences_json_like
      by (try assumption; apply JSON_stringify_json_like; exact Hc).
    rewrite JSON_parse_stringify by exact Hc. reflexivity.
Qed.

(** X10: aggregation makes at most three requests and touches neither the
    disk, the key nor the notifications; whenever it throws, what it throws
    is the wrapped error, and the cause is the last line of the console. *)
Theorem generateTimesheetFromLogs_errors (apiKey : str) (entries : json)
    (dateStr : str) (w : World) :
  exists r w',
    generateTimesheetFromLogs apiKey entries dateStr w = (r, w')
    /\ disk w' = disk w /\ clock w' = clock w /\ secret w' = secret w
    /\ notifications w' = notifications w
    /\ (exists n, (n <= 3)%nat
          /\ requests w'
             = requests w
               ++ List.map (request_of apiKey
                              (timesheet_prompt (JSON_stringify entries) dateStr))
                           (firstn n FALLBACK_MODELS))
    /\ (forall e, r = Throw e ->
          exists cause,
            e = TimesheetError cause
            /\ last (console w') = Some (error_generateTimesheetFromLogs cause)).
Proof.
  unfold generateTimesheetFromLogs, try_catch, bind, generateContentWithFallback.
  pose proof (fallback_loop_frame apiKey
                (timesheet_prompt (JSON_stringify entries) dateStr)
                FALLBACK_MODELS None w) as H.
  cbn zeta in H.
  destruct (fallback_loop _ _ _ None w) as [[text|e] w1]; cbn [snd] in H;
    destruct H as (Hd & Hc & Hs & Hn & n & Hle & Hr).
  - unfold JSON_parse_or_throw.
    destruct (JSON_parse (strip_fences text)) as [v|].
    + eexists _, _. split; [reflexivity|]. repeat split; try assumption.
      * exists n. split; assumption.
      * intros e [=].
    + eexists _, _. split; [reflexivity|].
      cbn [disk clock secret notifications requests add_console console].
      repeat split; try assumption.
      * exists n. split; assumption.
      * intros e [= <-]. eexists. split; [reflexivity|]. apply last_snoc.
  - eexists _, _. split; [reflexivity|].
    cbn [disk clock secret notifications requests add_console console].
    repeat split; try assumption.
    + exists n. split; assumption.
    + intros e' [= <-]. eexists. split; [reflexivity|]. apply last_snoc.
Qed.

End Requests.

(** ** The timesheet command *)

Section TimesheetCommand.
Context {engine : Engine} {service : Service}.

(** X11: [getOrPromptApiKey] never throws; a stored key wins over the input
    box and is returned without any change; a key is returned only if it is
    not empty, it is then the stored one, and every later call returns it
    whatever is typed; without a key nothing changes. *)
Theorem getOrPromptApiKey_spec (h : Host) (w : World) :
  exists k w',
    getOrPromptApiKey h w = (Normal k, w')
    /\ (falsy (secret w) = false -> k = secret w /\ w' = w)
    /\ (k = None -> w' = w /\ falsy (secret w) = true
                    /\ falsy (apiKey_input h) = true)
    /\ (forall key, k = Some key ->
          key <> [] /\ secret w' = Some key
          /\ (falsy (secret w) = true -> apiKey_input h = Some key)
          /\ forall h', getOrPromptApiKey h' w' = (Normal (Some key), w')).
Proof.
  unfold getOrPromptApiKey.
  assert (Hstored : forall c s w0, secret w0 = Some (c :: s) ->
            forall h' : Host,
              (if falsy (secret w0)
               then if falsy (apiKey_input h') then (Normal None, w0)
                    else match apiKey_input h' with
                         | Some k => (Normal (Some k),
                                      add_notification InfoKeySaved (set_secret k w0))
                         | None => (Normal None, w0)
                         end
               else (Normal (secret w0), w0))
              = (Normal (Some (c :: s)), w0)).
  { intros c s w0 E h'. rewrite E. reflexivity. }
  destruct (falsy (secret w)) eqn:Ef.
  - destruct (apiKey_input h) as [[|c' s']|] eqn:Ei; cbn [falsy].
    + exists None, w. repeat split; try discriminate.
    + eexists _, _. split; [reflexivity|]. split; [discriminate|].
      split; [discriminate|]. intros key [= <-].
      split; [discriminate|]. split; [reflexivity|]. split; [reflexivity|].
      apply Hstored. reflexivity.
    + exists None, w. repeat split; try discriminate.
  - destruct (secret w) as [[|c s]|] eqn:Es; try discriminate Ef.
    exists (Some (c :: s)), w. split; [reflexivity|]. split; [auto|].
    split; [discriminate|]. intros key [= <-].
    split; [discriminate|]. split; [exact Es|]. split; [discriminate|].
    apply Hstored. exact Es.
Qed.

(** [writeTimesheetFile] changes the disk at its path only, apart from the
    directories it creates. *)
Lemma writeTimesheetFile_frame (filePath : path) (v : json) (w : World) :
  kept_but filePath (disk w) (disk (snd (writeTimesheetFile filePath v w)))
  /\ same_but_disk w (snd (writeTimesheetFile filePath v w)).
Proof.
  unfold writeTimesheetFile, bind, ensureDir, mkdirSync_recursive.
  pose proof (mkdir_from_keeps (dirname filePath) (disk w) []) as [Hkeep Hfiles].
  destruct (mkdir_from (disk w) [] (dirname filePath)) as [[[]|e] d'];
    cbn [snd] in Hkeep, Hfiles.
  2:{ cbn [snd disk set_disk]. split; [|repeat split].
      split; [|split]; eauto. }
  destruct (writeFileSync_frame filePath (JSON_stringify v)
              (set_disk (fun _ => d') w)) as [-> | ->].
  - cbn [snd disk set_disk]. split; [|repeat split].
    split; [|split]; eauto.
  - cbn [snd disk set_disk]. split; [|repeat split].
    split; [|split].
    + intros q x Hq Hx. rewrite lookup_insert_ne by congruence. auto.
    + intros q c Hq Hx. rewrite lookup_insert_ne in Hx by congruence. auto.
    + intros x _. rewrite lookup_insert_eq. eauto.
Qed.

Lemma kept_but_refl (p : path) (d : gmap path node) : kept_but p d d.
Proof. split; [|split]; eauto. Qed.

Lemma resolveDayFilePath_Some (h : Host) (dateStr suffix : str) (p : path) :
  resolveDayFilePath h dateStr suffix = Some p ->
  exists dir, p = dir ++ [dateStr ++ lit "." ++ suffix ++ lit ".json"]
              /\ forall suffix', resolveDayFilePath h dateStr suffix'
                   = Some (dir ++ [dateStr ++ lit "." ++ suffix' ++ lit ".json"]).
Proof.
  unfold resolveDayFilePath. destruct (workspaceFolder h) as [root|]; [|discriminate].
  intros [= <-]. eexists (root ++ _). rewrite <- app_assoc.
  split; [reflexivity|]. intros suffix'. rewrite <- app_assoc. reflexivity.
Qed.

(** The log and the timesheet of a day are different files of one
    directory. *)
Lemma log_and_timesheet_paths (h : Host) (dateStr : str) (lp tp : path) :
  resolveDayFilePath h dateStr (lit "logs") = Some lp ->
  resolveDayFilePath h dateStr (lit "timesheet") = Some tp ->
  lp <> tp /\ dirname lp = dirname tp /\ lp <> [].
Proof.
  intros Hl Ht. destruct (resolveDayFilePath_Some _ _ _ _ Hl) as (dir & -> & Hall).
  rewrite Hall in Ht. injection Ht as <-.
  unfold dirname. rewrite !removelast_last. split; [|split; [reflexivity|]].
  - intros E. apply app_inv_head in E. injection E as E.
    apply app_inv_head in E. discriminate E.
  - destruct dir; discriminate.
Qed.


Lemma getOrPromptApiKey_normal (h : Host) (w : World) :
  exists k w', getOrPromptApiKey h w = (Normal k, w')
               /\ disk w' = disk w /\ clock w' = clock w
               /\ requests w' = requests w /\ remote w' = remote w
               /\ console w' = console w.
Proof.
  unfold getOrPromptApiKey.
  destruct (falsy (secret w)); [|eexists _, _; repeat split].
  destruct (falsy (apiKey_input h)); [eexists _, _; repeat split|].
  destruct (apiKey_input h); eexists _, _; repeat split.
Qed.

(** The log read as [null]: the file is there and its text is [null]. *)
Lemma log_of_node_null (lp : path) (n : node) :
  log_of_node lp (Some n) = Normal JNull ->
  exists content, n = File content /\ JSON_parse (trim content) = Some JNull.
Proof.
  destruct n as [content|]; [|discriminate]. cbn [log_of_node].
  destruct (trim content) as [|c raw] eqn:E; [discriminate|].
  destruct (JSON_parse (c :: raw)) as [v|] eqn:Ep; [|discriminate].
  intros [= ->]. exists content. rewrite E. split; [reflexivity|exact Ep].
Qed.

Lemma length_is_zero_throws (v : json) (e : exn) :
  length_is_zero v = Throw e -> v = JNull /\ e = TypeError.
Proof. destruct v; cbn; intros H; try discriminate H. injection H as <-. auto. Qed.

Lemma generateTimesheetFromLogs_clock (apiKey : str) (entries : json)
    (dateStr : str) (w : World) :
  clock (snd (generateTimesheetFromLogs apiKey entries dateStr w)) = clock w.
Proof.
  unfold generateTimesheetFromLogs, try_catch, bind, generateContentWithFallback.
  pose proof (fallback_loop_frame apiKey
                (timesheet_prompt (JSON_stringify entries) dateStr)
                FALLBACK_MODELS None w) as H.
  cbn zeta in H.
  destruct (fallback_loop _ _ _ None w) as [[text|e] w1]; cbn [snd] in H;
    destruct H as (_ & Hc & _).
  - unfold JSON_parse_or_throw.
    destruct (JSON_parse (strip_fences text)); cbn; exact Hc.
  - cbn. exact Hc.
Qed.

(** X12: the command throws exactly when today's log holds the JSON text
    [null]: the length of the entries is read outside every [try]. It then
    throws a TypeError and has changed nothing; in every other case it
    completes. *)
Theorem generateTimesheet_throws_iff (h : Host) (w : World) :
  (log_is_null h w -> generateTimesheet h w = (Throw TypeError, w))
  /\ (~ log_is_null h w ->
      exists w', generateTimesheet h w = (Normal tt, w')).
Proof.
  split.
  - intros (lp & content & Hres & Hnode & Hparse).
    unfold generateTimesheet. rewrite Hres.
    unfold bind, fileExists, existsSync, attempt. rewrite Hnode.
    rewrite bool_decide_eq_true_2 by eauto. cbn [negb].
    rewrite readLogFile_node, Hnode. cbn [log_of_node].
    destruct (trim content) as [|c raw]; [discriminate Hparse|].
    rewrite Hparse. reflexivity.
  - intros Hnot. unfold generateTimesheet.
    destruct (resolveDayFilePath h (today h) (lit "logs")) as [lp|] eqn:Hres;
      [|eexists; reflexivity].
    unfold bind, fileExists, existsSync, attempt, notify.
    destruct (node_at (disk w) lp) as [n|] eqn:Hnode.
    2:{ rewrite bool_decide_eq_false_2 by (intros [x Hx]; discriminate Hx).
        eexists; reflexivity. }
    rewrite bool_decide_eq_true_2 by eauto. cbn [negb].
    rewrite readLogFile_node, Hnode.
    destruct (log_of_node lp (Some n)) as [entries|e] eqn:Hlog;
      [|eexists; reflexivity].
    unfold lift.
    destruct (length_is_zero entries) as [[|]|e] eqn:Hlen.
    + eexists; reflexivity.
    + destruct (getOrPromptApiKey_normal h w) as (k & w1 & -> & _).
      destruct (falsy k); [eexists; reflexivity|].
      destruct (generateTimesheetFromLogs (default [] k) entries (today h) w1)
        as [[t|e] w2]; [|eexists; reflexivity].
      destruct (resolveDayFilePath h (today h) (lit "timesheet")) as [tp|];
        [|eexists; reflexivity].
      destruct (writeTimesheetFile tp t w2) as [[[]|e] w3];
        [|eexists; reflexivity].
      destruct (picks_open_file h); eexists; reflexivity.
    + exfalso. apply Hnot.
      destruct (length_is_zero_throws _ _ Hlen) as [-> _].
      destruct (log_of_node_null lp n Hlog) as (content & -> & Hp).
      exists lp, content. auto.
Qed.

(** X13: whatever happens, the command leaves the clock alone, removes no
    node, changes no path but the timesheet's and creates no file but the
    timesheet; the log it reads is never modified. *)
Theorem generateTimesheet_frame (h : Host) (w : World) :
  clock (snd (generateTimesheet h w)) = clock w
  /\ (forall tp, resolveDayFilePath h (today h) (lit "timesheet") = Some tp ->
        kept_but tp (disk w) (disk (snd (generateTimesheet h w))))
  /\ (forall lp, resolveDayFilePath h (today h) (lit "logs") = Some lp ->
        disk (snd (generateTimesheet h w)) !! lp = disk w !! lp)
  /\ (workspaceFolder h = None ->
      disk (snd (generateTimesheet h w)) = disk w).
Proof.
  assert (Hmain :
    clock (snd (generateTimesheet h w)) = clock w
    /\ (disk (snd (generateTimesheet h w)) = disk w
        \/ exists lp tp x,
             resolveDayFilePath h (today h) (lit "logs") = Some lp
             /\ resolveDayFilePath h (today h) (lit "timesheet") = Some tp
             /\ disk w !! lp = Some x
             /\ kept_but tp (disk w) (disk (snd (generateTimesheet h w))))).
  { unfold generateTimesheet.
    destruct (resolveDayFilePath h (today h) (lit "logs")) as [lp|] eqn:Hres;
      [|split; [reflexivity|left; reflexivity]].
    unfold bind, fileExists, existsSync, attempt, notify.
    destruct (node_at (disk w) lp) as [n|] eqn:Hnode.
    2:{ rewrite bool_decide_eq_false_2 by (intros [x Hx]; discriminate Hx).
        split; [reflexivity|left; reflexivity]. }
    rewrite bool_decide_eq_true_2 by eauto. cbn [negb].
    rewrite readLogFile_node, Hnode.
    destruct (log_of_node lp (Some n)) as [entries|e] eqn:Hlog;
      [|split; [reflexivity|left; reflexivity]].
    unfold lift.
    destruct (length_is_zero entries) as [[|]|e] eqn:Hlen;
      try (split; [reflexivity|left; reflexivity]).
    destruct (getOrPromptApiKey_normal h w) as (k & w1 & -> & Hd1 & Hc1 & _).
    destruct (falsy k); [split; [exact Hc1|left; exact Hd1]|].
    pose proof (generateTimesheetFromLogs_disk (default [] k) entries
                  (today h) w1) as Hd2.
    pose proof (generateTimesheetFromLogs_clock (default [] k) entries
                  (today h) w1) as Hc2.
    destruct (generateTimesheetFromLogs (default [] k) entries (today h) w1)
      as [r w2]. cbn [snd] in Hd2, Hc2.
    destruct r as [t|e];
      [|split; [cbn; congruence|left; cbn; congruence]].
    destruct (resolveDayFilePath h (today h) (lit "timesheet")) as [tp|] eqn:Ht;
      [|split; [cbn; congruence|left; cbn; congruence]].
    pose proof (writeTimesheetFile_frame tp t w2) as [Hk Hs].
    destruct Hs as (Hc3 & _).
    assert (Hlp : lp <> []).
    { destruct (log_and_timesheet_paths h (today h) lp tp Hres Ht) as (_ & _ & H).
      exact H. }
    rewrite node_at_nonempty in Hnode by exact Hlp.
    destruct (writeTimesheetFile tp t w2) as [[[]|e] w3]; cbn [snd] in Hk, Hc3.
    - assert (Hfinal : forall w4, disk w4 = disk w3 -> clock w4 = clock w3 ->
                clock w4 = clock w
                /\ (disk w4 = disk w
                    \/ exists lp0 tp0 x,
                         Some lp = Some lp0 /\ Some tp = Some tp0
                         /\ disk w !! lp0 = Some x
                         /\ kept_but tp0 (disk w) (disk w4))).
      { intros w4 Hd4 Hc4. split; [congruence|]. right.
        exists lp, tp, n.
        split; [reflexivity|split; [reflexivity|split; [exact Hnode|]]].
        rewrite Hd4, <- Hd1, <- Hd2. exact Hk. }
      destruct (picks_open_file h); apply Hfinal; reflexivity.
    - cbn [snd disk clock add_notification]. split; [congruence|]. right.
      exists lp, tp, n.
      split; [reflexivity|split; [reflexivity|split; [exact Hnode|]]].
      rewrite <- Hd1, <- Hd2. exact Hk. }
  destruct Hmain as [Hclock Hdisk]. split; [exact Hclock|]. split; [|split].
  - intros tp Ht. destruct Hdisk as [-> | (lp & tp' & x & _ & Ht' & _ & Hk)].
    + apply kept_but_refl.
    + rewrite Ht in Ht'. injection Ht' as <-. exact Hk.
  - intros lp Hl. destruct Hdisk as [-> | (lp' & tp & x & Hl' & Ht & Hx & Hk)];
      [reflexivity|].
    rewrite Hl in Hl'. injection Hl' as <-.
    destruct (log_and_timesheet_paths h (today h) lp tp Hl Ht) as (Hne & _).
    rewrite Hx. apply (proj1 Hk); assumption.
  - intros Hws. destruct Hdisk as [-> | (lp & tp & x & Hl & _)]; [reflexivity|].
    unfold resolveDayFilePath in Hl. rewrite Hws in Hl. discriminate Hl.
Qed.


Lemma getOrPromptApiKey_truthy (h : Host) (w w1 : World) (k : str) :
  getOrPromptApiKey h w = (Normal (Some k), w1) -> falsy (Some k) = false.
Proof.
  unfold getOrPromptApiKey.
  destruct (falsy (secret w)) eqn:Ef.
  - destruct (falsy (apiKey_input h)) eqn:Ei; [discriminate|].
    destruct (apiKey_input h); [|discriminate]. intros [= <- _]. exact Ei.
  - intros [= <- _]. exact Ef.
Qed.

(** X14: without a workspace, without a log, with a log that is a
    directory or not JSON, with an empty or blank log, and without a key,
    the command shows the one matching message and does nothing else: no
    request is made and nothing is written. *)
Theorem generateTimesheet_early_exits (h : Host) (w : World) :
  (workspaceFolder h = None ->
   generateTimesheet h w = (Normal tt, add_notification ErrNoWorkspace w))
  /\ (forall lp,
        resolveDayFilePath h (today h) (lit "logs") = Some lp ->
        (node_at (disk w) lp = None ->
         generateTimesheet h w
         = (Normal tt, add_notification (ErrNoLogFile (today h)) w))
        /\ (node_at (disk w) lp = Some Dir ->
            generateTimesheet h w
            = (Normal tt,
               add_notification
                 (ErrCouldNotRead (LogParseError lp (SystemError EISDIR lp))) w))
        /\ (forall content,
              node_at (disk w) lp = Some (File content) ->
              (trim content <> [] -> JSON_parse (trim content) = None ->
               generateTimesheet h w
               = (Normal tt,
                  add_notification
                    (ErrCouldNotRead (LogParseError lp SyntaxError)) w))
              /\ (trim content = []
                  \/ JSON_parse (trim content) = Some (JArr []) ->
                  generateTimesheet h w
                  = (Normal tt, add_notification (WarnEmptyLog (today h)) w))
              /\ (forall v,
                    JSON_parse (trim content) = Some v ->
                    length_is_zero v = Normal false ->
                    falsy (secret w) = true ->
                    falsy (apiKey_input h) = true ->
                    generateTimesheet h w
                    = (Normal tt, add_notification ErrKeyRequired w)))).
Proof.
  split.
  - intros Hws. unfold generateTimesheet, resolveDayFilePath. rewrite Hws.
    reflexivity.
  - intros lp Hres. unfold generateTimesheet. rewrite Hres.
    unfold bind, fileExists, existsSync, attempt, notify.
    split; [|split].
    + intros ->.
      rewrite bool_decide_eq_false_2 by (intros [x Hx]; discriminate Hx).
      reflexivity.
    + intros Hn. rewrite Hn. rewrite bool_decide_eq_true_2 by eauto.
      cbn [negb]. rewrite readLogFile_node, Hn. reflexivity.
    + intros content Hn. rewrite Hn. rewrite bool_decide_eq_true_2 by eauto.
      cbn [negb]. rewrite readLogFile_node, Hn.
      cbn [log_of_node]. split; [|split].
      * intros Hne Hp. destruct (trim content); [congruence|].
        rewrite Hp. reflexivity.
      * intros [-> | Hp]; [reflexivity|].
        destruct (trim content); [reflexivity|]. rewrite Hp. reflexivity.
      * intros v Hp Hlen Hs Hi.
        destruct (trim content); [discriminate Hp|]. rewrite Hp.
        unfold lift. rewrite Hlen. unfold getOrPromptApiKey.
        rewrite Hs, Hi. reflexivity.
Qed.

(** X15: with a log that is not empty, a key, and a response that parses
    after the fences are stripped, the command writes the day's timesheet
    file, leaves the log as it was and reports the file's name; when the
    parsed response holds no number, the text of the file is its
    serialization and parses back to it. *)
Theorem generateTimesheet_saves (h : Host) (w : World) (lp tp : path)
    (entries : json) (apiKey : str) (w1 : World) (text : str) (w2 : World)
    (v : json) :
  resolveDayFilePath h (today h) (lit "logs") = Some lp ->
  resolveDayFilePath h (today h) (lit "timesheet") = Some tp ->
  fst (readLogFile lp w) = Normal entries ->
  length_is_zero entries = Normal false ->
  getOrPromptApiKey h w = (Normal (Some apiKey), w1) ->
  generateContentWithFallback apiKey
    (timesheet_prompt (JSON_stringify entries) (today h)) FALLBACK_MODELS w1
  = (Normal text, w2) ->
  JSON_parse (strip_fences text) = Some v ->
  ancestors_clear (disk w) tp ->
  node_at (disk w) tp <> Some Dir ->
  exists w3,
    generateTimesheet h w = (Normal tt, w3)
    /\ (exists content, disk w3 !! tp = Some (File content))
    /\ disk w3 !! lp = disk w !! lp
    /\ notifications w3
       = notifications w2
         ++ InfoSaved (today h ++ lit ".timesheet.json")
            :: (if picks_open_file h then [OpenedDocument tp] else [])
    /\ (canonical v ->
        disk w3 !! tp = Some (File (JSON_stringify v))
        /\ JSON_parse (trim (JSON_stringify v)) = Some v).
Proof.
  intros Hres Ht Hread Hlen Hkey Hgen Hparse Hclear Hnd.
  destruct (log_and_timesheet_paths h (today h) lp tp Hres Ht) as (Hne & _ & Hlp).
  rewrite readLogFile_node in Hread. cbn [fst] in Hread.
  assert (Hex : is_Some (node_at (disk w) lp)).
  { destruct (node_at (disk w) lp); [eauto|].
    cbn in Hread. injection Hread as <-. discriminate Hlen. }
  destruct (getOrPromptApiKey_normal h w) as (k' & w1' & Hkey' & Hd1 & _).
  rewrite Hkey in Hkey'. injection Hkey' as <- <-.
  pose proof (fallback_loop_disk apiKey
                (timesheet_prompt (JSON_stringify entries) (today h))
                FALLBACK_MODELS None w1) as Hd2.
  fold (generateContentWithFallback apiKey
          (timesheet_prompt (JSON_stringify entries) (today h)) FALLBACK_MODELS)
    in Hd2.
  rewrite Hgen in Hd2. cbn [snd] in Hd2.
  assert (Hclear2 : ancestors_clear (disk w2) tp) by (rewrite Hd2, Hd1; exact Hclear).
  assert (Hnd2 : node_at (disk w2) tp <> Some Dir) by (rewrite Hd2, Hd1; exact Hnd).
  assert (Htp : tp <> []) by (intros ->; apply Hnd; reflexivity).
  destruct (ensureDir_dirname tp w2 Htp Hclear2)
    as (d' & Hens & Hdir & Hsame & Hkeep).
  assert (Hwrite : writeTimesheetFile tp v w2
                   = (Normal tt,
                      set_disk (fun _ => <[tp := File (toWellFormed (JSON_stringify v))]> d') w2)).
  { unfold writeTimesheetFile, bind. rewrite Hens.
    rewrite writeFileSync_run; cbn [disk set_disk];
      [destruct w2; reflexivity|exact Hdir|].
    rewrite Hsame. exact Hnd2. }
  assert (Hbase : basename tp = today h ++ lit ".timesheet.json").
  { destruct (resolveDayFilePath_Some _ _ _ _ Ht) as (dir & -> & _).
    unfold basename. rewrite last_snoc. reflexivity. }
  assert (Hrun : generateTimesheet h w
          = (if picks_open_file h
             then notify (OpenedDocument tp)
             else ret tt)
              (add_notification (InfoSaved (basename tp))
                 (set_disk (fun _ => <[tp := File (toWellFormed (JSON_stringify v))]> d') w2))).
  { unfold generateTimesheet. rewrite Hres.
    unfold bind, fileExists, existsSync, attempt, notify.
    rewrite bool_decide_eq_true_2 by exact Hex. cbn [negb].
    rewrite readLogFile_node, Hread. unfold lift. rewrite Hlen, Hkey.
    rewrite (getOrPromptApiKey_truthy h w w1 apiKey Hkey).
    change (default [] (Some apiKey)) with apiKey.
    rewrite (generateTimesheetFromLogs_of_text _ _ _ _ _ _ Hgen), Hparse.
    rewrite Ht, Hwrite. reflexivity. }
  assert (Hlog : forall d0 : gmap path node,
            d0 = <[tp := File (toWellFormed (JSON_stringify v))]> d' ->
            d0 !! lp = disk w !! lp).
  { intros d0 ->. rewrite lookup_insert_ne by congruence.
    rewrite node_at_nonempty in Hex by exact Hlp. destruct Hex as [x Hx].
    rewrite Hx. apply Hkeep. rewrite Hd2, Hd1. exact Hx. }
  assert (Hcanon : canonical v ->
            toWellFormed (JSON_stringify v) = JSON_stringify v
            /\ JSON_parse (trim (JSON_stringify v)) = Some v).
  { intros Hc. split.
    + unfold JSON_stringify. apply serialize_wellFormed. exact Hc.
    + destruct (trim_JSON_stringify v Hc) as [Htr _]. rewrite Htr.
      apply JSON_parse_stringify. exact Hc. }
  rewrite Hrun, Hbase.
  destruct (picks_open_file h); eexists; (split; [reflexivity|]);
    cbn [disk notifications set_disk add_notification];
    (split; [eexists; apply lookup_insert_eq|]);
    (split; [apply Hlog; reflexivity|]);
    (split; [rewrite <- ?app_assoc; reflexivity|]);
    intros Hc; destruct (Hcanon Hc) as [Hwf Hp];
    (split; [rewrite lookup_insert_eq, Hwf; reflexivity|exact Hp]).
Qed.

End TimesheetCommand.

(** ** The method name and the snippet *)

Lemma firstn_consumed (x s' : str) :
  firstn (length (x ++ s') - length s') (x ++ s') = x.
Proof.
  rewrite length_app. replace (length x + length s' - length s')%nat
    with (length x) by lia.
  rewrite firstn_app, Nat.sub_diag, firstn_all. cbn. apply app_nil_r.
Qed.

Lemma matcher_sound {R : Type} (r : regex) :
  forall (s : str) (cap : option str) (k : str -> option str -> option R)
         (res : R),
    matcher r s cap k = Some res ->
    exists x s' cap',
      s = x ++ s' /\ matches r x /\ capture_of r s cap cap'
      /\ k s' cap' = Some res.
Proof.
  induction r as [|p|a IHa b IHb|a IHa b IHb|a IHa|a IHa];
    intros s cap k res H; cbn [matcher] in H.
  - exists [], s, cap. repeat split; [constructor|left; reflexivity|exact H].
  - destruct s as [|c s']; [discriminate H|].
    destruct (p c) eqn:Hp; [|discriminate H].
    exists [c], s', cap. repeat split; [constructor; exact Hp|left; reflexivity|exact H].
  - apply IHa in H as (x & s1 & cap1 & -> & Hx & Hc1 & H).
    apply IHb in H as (y & s2 & cap2 & -> & Hy & Hc2 & H).
    exists (x ++ y), s2, cap2. rewrite <- app_assoc.
    split; [reflexivity|]. split; [constructor; assumption|]. split; [|exact H].
    destruct Hc2 as [-> | (g & bf & af & -> & Hg & Hs)].
    + destruct Hc1 as [-> | (g & bf & af & -> & Hg & Hs)]; [left; reflexivity|].
      right. exists g, bf, af. cbn [captures]. auto.
    + right. exists g, (x ++ bf), af. cbn [captures].
      rewrite Hs, <- app_assoc. auto.
  - destruct (matcher a s cap k) as [res'|] eqn:Ha.
    + injection H as ->. apply IHa in Ha as (x & s1 & cap1 & -> & Hx & Hc & H).
      exists x, s1, cap1. split; [reflexivity|].
      split; [apply matches_Alt_l; exact Hx|]. split; [|exact H].
      destruct Hc as [-> | (g & bf & af & -> & Hg & Hs)]; [left; reflexivity|].
      right. exists g, bf, af. cbn [captures]. auto.
    + apply IHb in H as (x & s1 & cap1 & -> & Hx & Hc & H).
      exists x, s1, cap1. split; [reflexivity|].
      split; [apply matches_Alt_r; exact Hx|]. split; [|exact H].
      destruct Hc as [-> | (g & bf & af & -> & Hg & Hs)]; [left; reflexivity|].
      right. exists g, bf, af. cbn [captures]. auto.
  - remember (length s) as n eqn:En. clear En.
    revert s cap H. induction n as [|n IHn]; intros s cap H.
    + exists [], s, cap.
      repeat split; [constructor|left; reflexivity|exact H].
    + match type of H with
      | match ?m with _ => _ end = _ => destruct m as [res'|] eqn:Hm
      end.
      * injection H as ->.
        apply IHa in Hm as (x & s1 & cap1 & -> & Hx & Hc1 & Hm).
        destruct (Nat.ltb (length s1) (length (x ++ s1))); [|discriminate Hm].
        apply IHn in Hm as (y & s2 & cap2 & -> & Hy & Hc2 & Hm).
        exists (x ++ y), s2, cap2. rewrite <- app_assoc.
        split; [reflexivity|]. split; [constructor; assumption|].
        split; [|exact Hm].
        destruct Hc2 as [-> | (g & bf & af & -> & Hg & Hs)].
        -- destruct Hc1 as [-> | (g & bf & af & -> & Hg & Hs)];
             [left; reflexivity|].
           right. exists g, bf, af. cbn [captures]. auto.
        -- right. exists g, (x ++ bf), af. cbn [captures] in *.
           rewrite Hs, <- app_assoc. auto.
      * exists [], s, cap.
        repeat split; [constructor|left; reflexivity|exact H].
  - apply IHa in H as (x & s1 & cap1 & -> & Hx & Hc & H).
    rewrite firstn_consumed in H.
    exists x, s1, (Some x). split; [reflexivity|].
    split; [constructor; exact Hx|]. split; [|exact H].
    right. exists x, [], s1. cbn [captures app]. auto.
Qed.

(** What [exec] returns was captured by a group of the pattern from a
    match inside the text. *)
Lemma exec_sound (r : regex) (text : str) (cap : option str) :
  exec r text = Some cap ->
  (exists before x after, text = before ++ x ++ after /\ matches r x)
  /\ forall g, cap = Some g ->
       captures r g /\ exists before after, text = before ++ g ++ after.
Proof.
  induction text as [|c text IH]; cbn [exec].
  - destruct (matcher r [] None _) as [cap'|] eqn:Hm; [|discriminate].
    intros [= ->]. apply matcher_sound in Hm as (x & s' & cap' & Hs & Hx & Hc & [= ->]).
    split; [exists [], x, s'; auto|].
    intros g ->. destruct Hc as [[=] | (g' & bf & af & [= <-] & Hg & Hs')].
    split; [exact Hg|]. exists bf, af. exact Hs'.
  - destruct (matcher r (c :: text) None _) as [cap'|] eqn:Hm.
    + intros [= ->].
      apply matcher_sound in Hm as (x & s' & cap' & Hs & Hx & Hc & [= ->]).
      split; [exists [], x, s'; auto|].
      intros g ->. destruct Hc as [[=] | (g' & bf & af & [= <-] & Hg & Hs')].
      split; [exact Hg|]. exists bf, af. exact Hs'.
    + intros H. apply IH in H as [(bf & x & af & -> & Hx) Hcap]. split.
      * exists (c :: bf), x, af. auto.
      * intros g Hg. destruct (Hcap g Hg) as (Hc & bf' & af' & E).
        split; [exact Hc|]. exists (c :: bf'), af'. rewrite E. reflexivity.
Qed.

Lemma matches_Seq_inv (a b : regex) (x : str) :
  matches (Seq a b) x ->
  exists x1 x2, x = x1 ++ x2 /\ matches a x1 /\ matches b x2.
Proof. inversion 1; subst. eauto. Qed.

Lemma matches_Class_inv (p : N -> bool) (x : str) :
  matches (Class p) x -> exists c, x = [c] /\ p c = true.
Proof. inversion 1; subst. eauto. Qed.

Lemma matches_Star_Class (p : N -> bool) (x : str) :
  matches (Star (Class p)) x -> forallb p x = true.
Proof.
  intros H. remember (Star (Class p)) as r eqn:Er.
  induction H as [| | | | | |a x y Hx _ Hy IH|]; try discriminate Er.
  - reflexivity.
  - injection Er as ->. apply matches_Class_inv in Hx as (c & -> & Hc).
    cbn. rewrite Hc. apply IH. reflexivity.
Qed.

Lemma matches_identifier (g : str) :
  matches identifier g -> is_identifier g = true.
Proof.
  intros H. apply matches_Seq_inv in H as (x1 & x2 & -> & H1 & H2).
  apply matches_Class_inv in H1 as (c & -> & Hc).
  apply matches_Star_Class in H2. cbn. rewrite Hc, H2. reflexivity.
Qed.

Lemma captures_groups (r : regex) (g : str) :
  captures r g -> exists a, In a (groups r) /\ matches a g.
Proof.
  induction r as [|p|a IHa b IHb|a IHa b IHb|a IHa|a IHa];
    cbn [captures groups]; try tauto.
  - intros [H|H]; [apply IHa in H|apply IHb in H];
      destruct H as (x & Hx & Hm); exists x; rewrite in_app_iff; auto.
  - intros [H|H]; [apply IHa in H|apply IHb in H];
      destruct H as (x & Hx & Hm); exists x; rewrite in_app_iff; auto.
  - intros [H|H]; [exists a; cbn; auto|].
    apply IHa in H as (x & Hx & Hm). exists x. cbn. auto.
Qed.

Lemma groups_patterns (r : regex) : In r patterns -> groups r = [identifier].
Proof. intros [<- | [<- | [<- | []]]]; reflexivity. Qed.

Lemma captures_patterns (r : regex) (g : str) :
  In r patterns -> captures r g -> matches identifier g.
Proof.
  intros Hr H. apply captures_groups in H as (a & Ha & Hm).
  rewrite (groups_patterns r Hr) in Ha. destruct Ha as [<- | []]. exact Hm.
Qed.

Lemma matches_patterns_parenthesis (r : regex) (x : str) :
  In r patterns -> matches r x -> In 40 x.
Proof.
  intros [<- | [<- | [<- | []]]] H;
    unfold pattern_function, pattern_binding, pattern_method in H;
    cbn [sequence] in H;
    repeat match goal with
           | H : matches (Seq _ _) _ |- _ =>
               apply matches_Seq_inv in H as (? & ? & -> & ? & H)
           end.
  - apply matches_Class_inv in H as (c & -> & Hc).
    apply N.eqb_eq in Hc. subst c. rewrite !in_app_iff. cbn. tauto.
  - apply matches_Class_inv in H as (c & -> & Hc).
    apply N.eqb_eq in Hc. subst c. rewrite !in_app_iff. cbn. tauto.
  - match goal with
    | H : matches (chr 40) _ |- _ =>
        apply matches_Class_inv in H as (c & -> & Hc)
    end.
    apply N.eqb_eq in Hc. subst c. rewrite !in_app_iff. cbn. tauto.
Qed.

Lemma first_capture_sound (ps : list regex) (text name : str) :
  first_capture ps text = Some name ->
  name <> [] /\ exists p, In p ps /\ exec p text = Some (Some name).
Proof.
  induction ps as [|p ps IH]; cbn [first_capture]; [discriminate|].
  destruct (exec p text) as [[[|c n]|]|] eqn:E.
  - intros H. apply IH in H as (Hn & q & Hq & He). split; [exact Hn|].
    exists q. split; [right; exact Hq|exact He].
  - intros [= <-]. split; [discriminate|]. exists p. split; [left; reflexivity|exact E].
  - intros H. apply IH in H as (Hn & q & Hq & He). split; [exact Hn|].
    exists q. split; [right; exact Hq|exact He].
  - intros H. apply IH in H as (Hn & q & Hq & He). split; [exact Hn|].
    exists q. split; [right; exact Hq|exact He].
Qed.

Lemma scan_lines_sound (upwards : list str) :
  scan_lines upwards = []
  \/ exists line p,
       In line upwards /\ In p patterns
       /\ exec p line = Some (Some (scan_lines upwards)).
Proof.
  induction upwards as [|text above IH]; cbn [scan_lines]; [left; reflexivity|].
  destruct (first_capture patterns text) as [name|] eqn:E.
  - right. apply first_capture_sound in E as (_ & p & Hp & He).
    exists text, p. split; [left; reflexivity|]. split; assumption.
  - destruct IH as [IH | (line & p & Hl & Hp & He)]; [left; exact IH|].
    right. exists line, p. split; [right; exact Hl|]. split; assumption.
Qed.

(** X16: the method name is empty or an identifier (a letter, [_] or [$],
    then letters, digits, [_] and [$]) that occurs in one of the lines from
    the first to the cursor's. *)
Theorem inferMethodName_identifier (editor : Editor) :
  inferMethodName editor = []
  \/ (is_identifier (inferMethodName editor) = true
      /\ exists line before after,
           In line (lines_to_cursor editor)
           /\ line = before ++ inferMethodName editor ++ after).
Proof.
  unfold inferMethodName.
  destruct (scan_lines_sound (rev (lines_to_cursor editor)))
    as [E | (line & p & Hl & Hp & He)]; [left; exact E|].
  right. apply exec_sound in He as [_ Hcap].
  destruct (Hcap _ eq_refl) as (Hc & before & after & E).
  split.
  - apply matches_identifier. apply (captures_patterns p); assumption.
  - exists line, before, after. split; [|exact E].
    apply in_rev. exact Hl.
Qed.

(** X17: each of the three patterns needs an opening parenthesis: when
    no line up to the cursor has one, the method name is empty. *)
Theorem inferMethodName_needs_parenthesis (editor : Editor) :
  (forall line, In line (lines_to_cursor editor) -> ~ In 40 line) ->
  inferMethodName editor = [].
Proof.
  intros Hno. unfold inferMethodName.
  destruct (scan_lines_sound (rev (lines_to_cursor editor)))
    as [E | (line & p & Hl & Hp & He)]; [exact E|].
  exfalso. apply exec_sound in He as [(before & x & after & E & Hx) _].
  apply (Hno line); [apply in_rev; exact Hl|].
  rewrite E, !in_app_iff. right. left.
  apply (matches_patterns_parenthesis p); assumption.
Qed.

Section Digest.

Lemma utf8_encode_wellFormed_len (n : nat) :
  forall s, (length s <= n)%nat ->
            utf8_encode (toWellFormed s) = utf8_encode s.
Proof.
  induction n as [|n IH]; intros s Hn.
  - destruct s; [reflexivity|cbn in Hn; lia].
  - destruct s as [|c s']; [reflexivity|].
    cbn [toWellFormed utf8_encode length] in *.
    assert (Hrep : forall t, utf8_encode (65533 :: t) = [239; 191; 189] ++ utf8_encode t)
      by reflexivity.
    destruct (is_high_surrogate c) eqn:Hh.
    + destruct s' as [|d s'']; [reflexivity|].
      cbn [length] in Hn.
      destruct (is_low_surrogate d) eqn:Hl.
      * cbn [utf8_encode]. rewrite Hh, Hl. rewrite IH by lia. reflexivity.
      * rewrite Hrep. rewrite IH by (cbn [length]; lia). reflexivity.
    + destruct (is_low_surrogate c) eqn:Hl.
      * rewrite Hrep. rewrite IH by lia. reflexivity.
      * cbn [utf8_encode]. rewrite Hh, Hl. rewrite IH by lia. reflexivity.
Qed.

Lemma hex_digit_lower (n : N) : n < 16 -> is_hex_lower (hex_digit n) = true.
Proof.
  intros H. unfold is_hex_lower, is_digit, hex_digit.
  destruct (N.ltb_spec n 10).
  - apply orb_true_iff. left. apply andb_true_iff. split; apply N.leb_le; lia.
  - apply orb_true_iff. right. apply andb_true_iff. split; apply N.leb_le; lia.
Qed.

Lemma hex_word_digits (x : N) :
  length (hex_word x) = 8%nat /\ forallb is_hex_lower (hex_word x) = true.
Proof.
  unfold hex_word. split; [reflexivity|].
  apply forallb_forall. intros c Hc. apply in_map_iff in Hc as (i & <- & _).
  apply hex_digit_lower. apply N.mod_lt. discriminate.
Qed.

(** X18: the hash is sixty-four lower-case hexadecimal digits, and a
    surrogate that is not part of a pair hashes as U+FFFD does. *)
Theorem hashSnippet_digest (text : str) :
  length (hashSnippet text) = 64%nat
  /\ forallb is_hex_lower (hashSnippet text) = true
  /\ hashSnippet (toWellFormed text) = hashSnippet text.
Proof.
  unfold hashSnippet, digest_hex. split; [|split].
  - rewrite !length_app. rewrite !(proj1 (hex_word_digits _)). reflexivity.
  - rewrite !forallb_app. rewrite !(proj2 (hex_word_digits _)). reflexivity.
  - rewrite (utf8_encode_wellFormed_len (length text)) by lia. reflexivity.
Qed.

End Digest.

Section Snippet.

Lemma slice_inside (s : str) (a b : Z) :
  (0 <= a)%Z -> (0 <= b)%Z ->
  slice s a b
  = firstn (Z.to_nat (Z.min b (Z.of_nat (length s)))
            - Z.to_nat (Z.min a (Z.of_nat (length s))))
      (skipn (Z.to_nat (Z.min a (Z.of_nat (length s)))) s).
Proof.
  intros Ha Hb. unfold slice.
  destruct (Z.ltb_spec a 0); [lia|]. destruct (Z.ltb_spec b 0); [lia|].
  f_equal. lia.
Qed.

(** X19: with a selection the snippet is the selected text; without one
    it is a part of the document of at most 2000 code units, the 1000
    before and the 1000 after the cursor, and the whole document when that
    has at most 1000. *)
Theorem getCodeSnippet_bounds (editor : Editor) :
  (selection_isEmpty editor = false ->
   getCodeSnippet editor = selection_text editor)
  /\ (selection_isEmpty editor = true ->
      (length (getCodeSnippet editor) <= 2000)%nat
      /\ (exists before after,
            document_text editor = before ++ getCodeSnippet editor ++ after)
      /\ ((cursor_offset editor <= length (document_text editor))%nat ->
          getCodeSnippet editor
          = skipn (cursor_offset editor - 1000)
              (firstn (cursor_offset editor + 1000) (document_text editor))
          /\ ((length (document_text editor) <= 1000)%nat ->
              getCodeSnippet editor = document_text editor))).
Proof.
  unfold getCodeSnippet. split; [intros ->; reflexivity|].
  intros ->. cbn [negb].
  set (s := document_text editor). set (o := cursor_offset editor).
  rewrite slice_inside by lia.
  set (a := Z.to_nat (Z.min (Z.max 0 (Z.of_nat o - 1000)) (Z.of_nat (length s)))).
  set (b := Z.to_nat (Z.min (Z.min (Z.of_nat (length s)) (Z.of_nat o + 1000))
                        (Z.of_nat (length s)))).
  assert (Ha : a = Nat.min (o - 1000) (length s)) by (unfold a; lia).
  assert (Hb : b = Nat.min (length s) (o + 1000)) by (unfold b; lia).
  clearbody a b. subst a b.
  split; [|split].
  - rewrite length_firstn. lia.
  - exists (firstn (Nat.min (o - 1000) (length s)) s). eexists.
    rewrite firstn_skipn. rewrite firstn_skipn. reflexivity.
  - intros Ho. split.
    + rewrite skipn_firstn_comm.
      replace (Nat.min (o - 1000) (length s)) with (o - 1000)%nat by lia.
      destruct (Nat.le_gt_cases (o + 1000) (length s)) as [Hle|Hgt].
      * f_equal. lia.
      * rewrite !firstn_all2 by (rewrite length_skipn; lia). reflexivity.
    + intros Hs. replace (Nat.min (o - 1000) (length s)) with O by lia.
      cbn [skipn]. apply firstn_all2. lia.
Qed.

End Snippet.

(** ** The prompt *)

Section Trimming.

Lemma trimStart_head (s : str) :
  trimStart s = []
  \/ exists c r, trimStart s = c :: r /\ is_js_space c = false.
Proof.
  induction s as [|c s IH]; [left; reflexivity|]. cbn [trimStart].
  destruct (is_js_space c) eqn:E; [exact IH|]. right. eauto.
Qed.

Lemma trimStart_snoc (x : str) (c : N) :
  is_js_space c = false ->
  exists y, trimStart (x ++ [c]) = y ++ [c]
            /\ (y = [] \/ exists a y', y = a :: y' /\ is_js_space a = false).
Proof.
  intros Hc. induction x as [|a x IH]; cbn [app trimStart].
  - rewrite Hc. exists []. auto.
  - destruct (is_js_space a) eqn:Ea; [exact IH|].
    exists (a :: x). split; [reflexivity|]. right. eauto.
Qed.

(** A trimmed text is empty or starts and ends with something that is not
    white space. *)
Lemma trim_shape (s : str) :
  trim s = []
  \/ (exists c, trim s = [c] /\ is_js_space c = false)
  \/ exists c mid c', trim s = c :: mid ++ [c']
                      /\ is_js_space c = false /\ is_js_space c' = false.
Proof.
  unfold trim, trimEnd.
  destruct (trimStart_head s) as [-> | (c & r & -> & Hc)]; [left; reflexivity|].
  right. cbn [rev].
  destruct (trimStart_snoc (rev r) c Hc) as (y & -> & [-> | (a & y' & -> & Ha)]).
  - left. exists c. auto.
  - right. exists c, (rev y'), a. rewrite rev_app_distr. cbn [rev app].
    auto.
Qed.

Lemma trim_idempotent (s : str) : trim (trim s) = trim s.
Proof.
  destruct (trim_shape s) as [-> | [(c & -> & Hc) | (c & mid & c' & -> & Hc & Hc')]].
  - reflexivity.
  - unfold trim, trimEnd. cbn [trimStart]. rewrite Hc. cbn [rev app trimStart].
    rewrite Hc. reflexivity.
  - apply trim_bracketed; assumption.
Qed.

End Trimming.

Section Prompts.
Context {engine : Engine} {service : Service}.

Lemma captureFromClipboard_run (retries : nat) :
  forall s : Session,
  exists r s' n,
    captureFromClipboard retries s = (Normal r, s')
    /\ (1 <= n <= S retries)%nat
    /\ world s' = world s /\ shown s' = shown s
    /\ clipboard_reads s' = skipn n (clipboard_reads s)
    /\ timers s' = (timers s + (n - 1))%nat
    /\ (forall i, (i < n - 1)%nat -> trim (nth i (clipboard_reads s) []) = [])
    /\ r = match trim (nth (n - 1) (clipboard_reads s) []) with
           | [] => None
           | t => Some t
           end
    /\ (r = None -> n = S retries).
Proof.
  induction retries as [|retries IH]; intros s.
  - cbn [captureFromClipboard]. unfold task_bind, readText.
    destruct (clipboard_reads s) as [|text later] eqn:Ec.
    + exists None, s, 1%nat. cbn [world shown clipboard_reads timers skipn nth Nat.sub Nat.add]. rewrite Ec.
      repeat split; try lia; try (intros i Hi; lia).
    + destruct (trim text) as [|c t] eqn:Et.
      * eexists None, _, 1%nat. split; [reflexivity|].
        rewrite ?Ec. cbn [world shown clipboard_reads timers skipn nth Nat.sub Nat.add]. rewrite ?Et.
        repeat split; try lia; try (intros i Hi; lia).
      * eexists (Some (c :: t)), _, 1%nat. split; [reflexivity|].
        rewrite ?Ec. cbn [world shown clipboard_reads timers skipn nth Nat.sub Nat.add]. rewrite ?Et.
        repeat split; try lia; try discriminate; try (intros i Hi; lia).
  - cbn [captureFromClipboard]. unfold task_bind, readText.
    destruct (clipboard_reads s) as [|text later] eqn:Ec.
    + change (trim []) with (@nil N). cbv beta iota. unfold wait_100ms.
      match goal with
      | |- context [captureFromClipboard retries ?s1] =>
          destruct (IH s1) as (r & s' & n & Hrun & Hn & Hw & Hs & Hc & Ht & Hb & Hr & Hnone)
      end.
      cbn [world shown clipboard_reads timers] in *.
      exists r, s', (S n). rewrite Hrun. split; [reflexivity|].
      rewrite ?Ec in *. rewrite ?skipn_nil in *.
      repeat split; try lia; try assumption.
      * intros i Hi. destruct i; reflexivity.
      * rewrite Hr. destruct n; [lia|]. cbn [Nat.sub]. rewrite Nat.sub_0_r.
        destruct n; reflexivity.
      * intros E. rewrite (Hnone E). reflexivity.
    + destruct (trim text) as [|c t] eqn:Et.
      * unfold wait_100ms.
        match goal with
        | |- context [captureFromClipboard retries ?s1] =>
            destruct (IH s1) as (r & s' & n & Hrun & Hn & Hw & Hs & Hc & Ht & Hb & Hr & Hnone)
        end.
        cbn [world shown clipboard_reads timers] in *.
        exists r, s', (S n). rewrite Hrun. split; [reflexivity|].
        rewrite ?Ec. cbn [skipn].
        repeat split; try lia; try assumption.
        -- intros i Hi. destruct i as [|i]; [exact Et|]. cbn [nth].
           apply Hb. lia.
        -- rewrite Hr. destruct n; [lia|]. cbn [Nat.sub]. rewrite Nat.sub_0_r.
           reflexivity.
        -- intros E. rewrite (Hnone E). reflexivity.
      * eexists (Some (c :: t)), _, 1%nat. split; [reflexivity|].
        rewrite ?Ec. cbn [world shown clipboard_reads timers skipn nth Nat.sub Nat.add]. rewrite ?Et.
        repeat split; try lia; try discriminate; try (intros i Hi; lia).
Qed.

(** X20: the clipboard is read at most [retries + 1] times, with one timer
    between two reads; the result is the first text that is not blank,
    trimmed, and is undefined only after every read gave a blank text;
    nothing else changes. *)
Theorem captureFromClipboard_spec (retries : nat) (s : Session) :
  exists r s' n,
    captureFromClipboard retries s = (Normal r, s')
    /\ (1 <= n <= S retries)%nat
    /\ world s' = world s /\ shown s' = shown s
    /\ clipboard_reads s' = skipn n (clipboard_reads s)
    /\ timers s' = (timers s + (n - 1))%nat
    /\ (forall i, (i < n - 1)%nat -> trim (nth i (clipboard_reads s) []) = [])
    /\ r = match trim (nth (n - 1) (clipboard_reads s) []) with
           | [] => None
           | t => Some t
           end
    /\ (r = None -> n = S retries)
    /\ (forall t, r = Some t -> t <> [] /\ trim t = t).
Proof.
  destruct (captureFromClipboard_run retries s)
    as (r & s' & n & Hrun & Hn & Hw & Hs & Hc & Ht & Hb & Hr & Hnone).
  exists r, s', n.
  split; [exact Hrun|]. split; [exact Hn|]. split; [exact Hw|].
  split; [exact Hs|]. split; [exact Hc|]. split; [exact Ht|].
  split; [exact Hb|]. split; [exact Hr|]. split; [exact Hnone|].
  intros t E. rewrite Hr in E.
  destruct (trim (nth (n - 1) (clipboard_reads s) [])) eqn:Et; [discriminate|].
  injection E as <-. split; [discriminate|].
  rewrite <- Et. apply trim_idempotent.
Qed.


Lemma captureFromActiveInput_run (editor : option Editor) (s : Session) :
  (exists e, editor = Some e /\ selection_isEmpty e = false
             /\ trim (selection_text e) <> []
             /\ captureFromActiveInput editor s
                = (Normal (Some (trim (selection_text e))), s))
  \/ ((forall e, editor = Some e ->
         negb (selection_isEmpty e)
         && negb (Nat.eqb (length (trim (selection_text e))) 0) = false)
      /\ captureFromActiveInput editor s = captureFromClipboard 3 s).
Proof.
  unfold captureFromActiveInput. destruct editor as [e|].
  - destruct (selection_isEmpty e) eqn:Ei; cbn [negb].
    + right. split; [|reflexivity]. intros e' [= <-]. rewrite Ei. reflexivity.
    + destruct (trim (selection_text e)) as [|c t] eqn:Et.
      * right. split; [|reflexivity]. intros e' [= <-]. rewrite Ei, Et.
        reflexivity.
      * left. exists e. rewrite Et. repeat split; congruence.
  - right. split; [|reflexivity]. intros e [=].
Qed.

(** What [resolvePrompt] returns and what it changes. *)
Lemma resolvePrompt_run (d : Desk) (mode : str) (editor : option Editor)
    (s : Session) :
  exists r s',
    resolvePrompt d mode editor s = (Normal r, s')
    /\ world s' = world s
    /\ (forall text source, r = Some (text, source) ->
          text <> [] /\ shown s' = shown s
          /\ match source with
             | manual =>
                 mode <> lit "clipboard" /\ mode <> lit "activeInputCapture"
                 /\ text_input d = Some text
                 /\ clipboard_reads s' = clipboard_reads s
             | activeInputCapture =>
                 mode = lit "activeInputCapture"
                 /\ clipboard_reads s' = clipboard_reads s
                 /\ exists e, editor = Some e /\ selection_isEmpty e = false
                              /\ text = trim (selection_text e)
             | clipboard =>
                 (mode = lit "clipboard" \/ mode = lit "activeInputCapture")
                 /\ exists n, (1 <= n <= 4)%nat
                      /\ text = trim (nth (n - 1) (clipboard_reads s) [])
                      /\ clipboard_reads s' = skipn n (clipboard_reads s)
             end)
    /\ (r = None ->
        (mode = lit "clipboard" /\ shown s' = shown s ++ [WarnClipboardEmpty])
        \/ (mode = lit "activeInputCapture"
            /\ shown s' = shown s ++ [WarnNothingSelected])
        \/ (shown s' = shown s /\ falsy (text_input d) = true)).
Proof.
  unfold resolvePrompt, str_eqb.
  destruct (decide (mode = lit "clipboard")) as [Hm|Hm].
  - rewrite bool_decide_eq_true_2 by exact Hm. unfold task_bind.
    destruct (captureFromClipboard_run 3 s)
      as (r & s' & n & Hrun & Hn & Hw & Hs & Hc & _ & _ & Hr & _).
    rewrite Hrun.
    destruct (trim (nth (n - 1) (clipboard_reads s) [])) as [|c t] eqn:Et;
      subst r; cbn [falsy].
    + eexists _, _. split; [reflexivity|].
      cbn [world shown show_message]. split; [exact Hw|].
      split; [discriminate|]. intros _. left. rewrite Hs. auto.
    + eexists _, _. split; [reflexivity|]. split; [exact Hw|].
      split; [|discriminate]. intros text source [= <- <-].
      split; [discriminate|]. split; [exact Hs|]. split; [auto|].
      exists n. rewrite Et. auto.
  - rewrite bool_decide_eq_false_2 by exact Hm.
    destruct (decide (mode = lit "activeInputCapture")) as [Ha|Ha].
    + rewrite bool_decide_eq_true_2 by exact Ha. unfold task_bind.
      destruct (captureFromActiveInput_run editor s)
        as [(e & He & Hi & Ht & ->) | (Hsel & ->)].
      * destruct (trim (selection_text e)) as [|c t] eqn:Et; [congruence|].
        cbn [falsy]. subst editor. rewrite Hi, Et. cbn.
        eexists _, _. split; [reflexivity|]. split; [reflexivity|].
        split; [|discriminate]. intros text source [= <- <-].
        split; [discriminate|]. split; [reflexivity|].
        split; [exact Ha|]. split; [reflexivity|].
        exists e. rewrite Et. auto.
      * destruct (captureFromClipboard_run 3 s)
          as (r & s' & n & Hrun & Hn & Hw & Hs & Hc & _ & _ & Hr & _).
        rewrite Hrun.
        destruct (trim (nth (n - 1) (clipboard_reads s) [])) as [|c t] eqn:Et;
          subst r; cbn [falsy].
        -- eexists _, _. split; [reflexivity|].
           cbn [world shown show_message]. split; [exact Hw|].
           split; [discriminate|]. intros _. right. left. rewrite Hs. auto.
        -- assert (Hsrc : match editor with
                          | Some e => negb (selection_isEmpty e)
                                      && negb (Nat.eqb (length (trim (selection_text e))) 0)
                          | None => false
                          end = false).
           { destruct editor as [e|]; [apply Hsel; reflexivity|reflexivity]. }
           rewrite Hsrc.
           eexists _, _. split; [reflexivity|]. split; [exact Hw|].
           split; [|discriminate]. intros text source [= <- <-].
           split; [discriminate|]. split; [exact Hs|]. split; [auto|].
           exists n. rewrite Et. auto.
    + rewrite bool_decide_eq_false_2 by exact Ha.
      destruct (text_input d) as [[|c t]|] eqn:Ei; cbn [falsy].
      * eexists _, _. split; [reflexivity|]. split; [reflexivity|].
        split; [discriminate|]. intros _. right. right. auto.
      * eexists _, _. split; [reflexivity|]. split; [reflexivity|].
        split; [|discriminate]. intros text source [= <- <-].
        split; [discriminate|]. split; [reflexivity|]. auto.
      * eexists _, _. split; [reflexivity|]. split; [reflexivity|].
        split; [discriminate|]. intros _. right. right. auto.
Qed.


End Prompts.

(** ** The logging commands *)

Section LoggingCommands.
Context {engine : Engine} {service : Service}.

Lemma run_eq {A} (m : M A) (s : Session) :
  run m s = (fst (m (world s)), with_world (snd (m (world s))) s).
Proof. unfold run. destruct (m (world s)); reflexivity. Qed.

Lemma with_world_same (s : Session) : with_world (world s) s = s.
Proof. destruct s; reflexivity. Qed.

(** [logActivity] from the point where the description is known. *)
Lemma logActivity_run (d : Desk) (s : Session) (c : N) (t : str) :
  text_input d = Some (c :: t) ->
  exists k w1,
    getOrPromptApiKey (host d) (world s) = (Normal k, w1)
    /\ disk w1 = disk (world s)
    /\ let s0 := match activeTextEditor d with
                 | Some _ => s
                 | None => with_message InfoNoActiveEditor s
                 end in
       if falsy k
       then logActivity d s
            = (Normal tt, with_message ErrKeyRequiredToLog (with_world w1 s0))
       else
         exists text w2,
           summarizeCode (default [] k) (snd (code_context (activeTextEditor d)))
             (Some (c :: t)) w1 = (Normal text, w2)
           /\ disk w2 = disk w1
           /\ match resolveLogFilePath (host d) (slice (ist_timestamp d) 0 10) with
              | None =>
                  logActivity d s
                  = (Normal tt, with_message ErrNoWorkspaceFolder (with_world w2 s0))
              | Some lp =>
                  let entry := logged_entry (ist_timestamp d) (c :: t)
                                 (activeTextEditor d) text manual in
                  logActivity d s
                  = match appendLogEntry lp entry w2 with
                    | (Normal _, w3) =>
                        (Normal tt,
                         with_message (InfoActivityLogged (ist_timestamp d))
                           (with_world w3 s0))
                    | (Throw err, w3) =>
                        (Normal tt,
                         with_message (ErrWriteFailed err) (with_world w3 s0))
                    end
              end.
Proof.
  intros Hin.
  destruct (getOrPromptApiKey_normal (host d) (world s)) as (k & w1 & Hk & Hd1 & _).
  exists k, w1. split; [exact Hk|]. split; [exact Hd1|]. cbn zeta.
  remember (logActivity d s) as L eqn:EL.
  unfold logActivity in EL. rewrite Hin in EL.
  assert (Hctx : forall (K : str * str * str -> Task unit),
    task_bind
      match activeTextEditor d with
      | Some e => task_ret (fsPath e, inferMethodName e, getCodeSnippet e)
      | None => task_bind (show_message InfoNoActiveEditor)
                  (fun _ => task_ret ([], [], []))
      end K s
    = K (code_context (activeTextEditor d))
        match activeTextEditor d with
        | Some _ => s
        | None => with_message InfoNoActiveEditor s
        end).
  { intros K. destruct (activeTextEditor d); reflexivity. }
  rewrite Hctx in EL. clear Hctx.
  set (s0 := match activeTextEditor d with
             | Some _ => s
             | None => with_message InfoNoActiveEditor s
             end) in *.
  assert (Hw0 : world s0 = world s)
    by (unfold s0; destruct (activeTextEditor d); reflexivity).
  unfold logged_entry.
  destruct (code_context (activeTextEditor d)) as [[file method] snippet].
  cbn [fst snd] in *.
  unfold task_bind at 1 in EL. rewrite run_eq, Hw0, Hk in EL.
  cbn [fst snd] in EL.
  destruct (falsy k) eqn:Ef; [exact EL|].
  destruct (summarizeCode_frame (default [] k) snippet (Some (c :: t)) w1)
    as (text & w2 & Hsum & Hd2 & _).
  exists text, w2. split; [exact Hsum|]. split; [exact Hd2|].
  unfold task_bind at 1, task_attempt in EL. rewrite run_eq in EL.
  cbn [world with_world] in EL. rewrite Hsum in EL. cbn [fst snd] in EL.
  destruct (resolveLogFilePath (host d) (slice (ist_timestamp d) 0 10)) as [lp|];
    [|exact EL].
  unfold task_bind, task_attempt in EL. rewrite run_eq in EL.
  cbn [world with_world] in EL.
  destruct (appendLogEntry lp _ w2) as [[[]|err] w3]; exact EL.
Qed.


(** X22: [logActivity] never throws and never reads the clipboard; a
    dismissed or empty input box ends it with nothing changed; it changes
    no path but the day's log and, without a workspace, none at all. *)
Theorem logActivity_never_throws (d : Desk) (s : Session) :
  exists s',
    logActivity d s = (Normal tt, s')
    /\ clipboard_reads s' = clipboard_reads s /\ timers s' = timers s
    /\ (falsy (text_input d) = true -> s' = s)
    /\ (forall lp,
          resolveLogFilePath (host d) (slice (ist_timestamp d) 0 10) = Some lp ->
          kept_but lp (disk (world s)) (disk (world s')))
    /\ (workspaceFolder (host d) = None -> disk (world s') = disk (world s)).
Proof.
  destruct (text_input d) as [[|c t]|] eqn:Hin.
  1,3: exists s; unfold logActivity; rewrite Hin;
       repeat split; auto using kept_but_refl.
  destruct (logActivity_run d s c t Hin) as (k & w1 & Hk & Hd1 & Hrun).
  cbn zeta in Hrun.
  set (s0 := match activeTextEditor d with
             | Some _ => s
             | None => with_message InfoNoActiveEditor s
             end) in *.
  assert (Hs0 : clipboard_reads s0 = clipboard_reads s /\ timers s0 = timers s)
    by (unfold s0; destruct (activeTextEditor d); auto).
  destruct Hs0 as [Hc0 Ht0].
  assert (Hws : workspaceFolder (host d) = None ->
                resolveLogFilePath (host d) (slice (ist_timestamp d) 0 10) = None).
  { intros H. unfold resolveLogFilePath. rewrite H. reflexivity. }
  destruct (falsy k).
  { eexists. split; [exact Hrun|]. cbn [world with_world with_message clipboard_reads timers].
    rewrite Hd1. repeat split; auto using kept_but_refl; discriminate. }
  destruct Hrun as (text & w2 & Hsum & Hd2 & Hrun).
  destruct (resolveLogFilePath (host d) (slice (ist_timestamp d) 0 10)) as [lp|] eqn:Hres.
  - cbn zeta in Hrun.
    pose proof (appendLogEntry_kept lp
                  (logged_entry (ist_timestamp d) (c :: t) (activeTextEditor d)
                     text manual) w2) as [Hkept _].
    destruct (appendLogEntry lp _ w2) as [[[]|err] w3]; cbn [snd] in Hkept;
      (eexists; split; [exact Hrun|]);
      cbn [world with_world with_message clipboard_reads timers];
      (split; [exact Hc0|]); (split; [exact Ht0|]);
      (split; [discriminate|]);
      (split; [intros lp' [= <-]; rewrite <- Hd1, <- Hd2; exact Hkept|]);
      intros H; specialize (Hws H); congruence.
  - eexists. split; [exact Hrun|].
    cbn [world with_world with_message clipboard_reads timers].
    rewrite Hd2, Hd1. repeat split; auto; discriminate.
Qed.

(** X23: with a task typed in, a key and a readable log, the command
    appends exactly one record: the task as description and prompt, the
    file, method and snippet hash of the editor, the summary the service
    gave, and the source manual. *)
Theorem logActivity_logs (d : Desk) (s : Session) (description apiKey : str)
    (w1 : World) (text : str) (w2 : World) (lp : path) (es : list LogEntry) :
  text_input d = Some description -> description <> [] ->
  getOrPromptApiKey (host d) (world s) = (Normal (Some apiKey), w1) ->
  summarizeCode apiKey (snd (code_context (activeTextEditor d)))
    (Some description) w1 = (Normal text, w2) ->
  resolveLogFilePath (host d) (slice (ist_timestamp d) 0 10) = Some lp ->
  ancestors_clear (disk (world s)) lp ->
  fst (readLogFile lp (world s)) = Normal (LogEntries_value es) ->
  exists s',
    logActivity d s = (Normal tt, s')
    /\ readLogFile lp (world s')
       = (Normal (LogEntries_value
                    (es ++ [logged_entry (ist_timestamp d) description
                              (activeTextEditor d) text manual])),
          world s')
    /\ shown s'
       = shown s
         ++ match activeTextEditor d with
            | Some _ => []
            | None => [InfoNoActiveEditor]
            end
         ++ [InfoActivityLogged (ist_timestamp d)]
    /\ requests (world s') = requests w2
    /\ kept_but lp (disk (world s)) (disk (world s')).
Proof.
  intros Hin Hne Hkey Hsum Hres Hclear Hread.
  destruct description as [|c t]; [congruence|].
  destruct (logActivity_run d s c t Hin) as (k & w1' & Hk & Hd1 & Hrun).
  rewrite Hkey in Hk. injection Hk as <- <-.
  cbn zeta in Hrun.
  rewrite (getOrPromptApiKey_truthy _ _ _ _ Hkey) in Hrun.
  destruct Hrun as (text' & w2' & Hsum' & Hd2 & Hrun).
  change (default [] (Some apiKey)) with apiKey in Hsum'.
  rewrite Hsum in Hsum'. injection Hsum' as <- <-.
  rewrite Hres in Hrun. cbn zeta in Hrun.
  set (entry := logged_entry (ist_timestamp d) (c :: t) (activeTextEditor d)
                  text manual) in *.
  assert (Hclear2 : ancestors_clear (disk w2) lp) by (rewrite Hd2, Hd1; exact Hclear).
  assert (Hread2 : fst (readLogFile lp w2) = Normal (LogEntries_value es)).
  { rewrite readLogFile_node in *. cbn [fst] in *. rewrite Hd2, Hd1. exact Hread. }
  destruct (appendLogEntry_run lp entry w2 (List.map LogEntry_value es)
              Hclear2 Hread2) as (d' & Happ & Hdir & Hkeep & Hfiles).
  pose proof (appendLogEntry_kept lp entry w2) as [Hkept _].
  rewrite Happ in Hrun, Hkept. cbn [snd] in Hkept.
  assert (Hlp : lp <> []).
  { intros ->. rewrite readLogFile_node in Hread. discriminate Hread. }
  eexists. split; [exact Hrun|].
  cbn [world with_world with_message shown].
  split; [|split; [|split; [reflexivity|]]].
  - apply readLogFile_written;
      [apply LogEntries_value_canonical|exact Hlp|].
    cbn [disk set_disk]. rewrite lookup_insert_eq.
    unfold LogEntries_value. rewrite List.map_app. reflexivity.
  - destruct (activeTextEditor d); cbn [shown with_message app];
      rewrite <- ?app_assoc; reflexivity.
  - rewrite <- Hd1, <- Hd2. exact Hkept.
Qed.

(** X24: the workspace is looked for only after the summary: without
    a workspace folder the command still obtains the key and asks the
    service, then shows the error and writes nothing. *)
Theorem logActivity_without_workspace (d : Desk) (s : Session)
    (description apiKey : str) (w1 : World) (text : str) (w2 : World) :
  text_input d = Some description -> description <> [] ->
  workspaceFolder (host d) = None ->
  getOrPromptApiKey (host d) (world s) = (Normal (Some apiKey), w1) ->
  summarizeCode apiKey (snd (code_context (activeTextEditor d)))
    (Some description) w1 = (Normal text, w2) ->
  exists s',
    logActivity d s = (Normal tt, s')
    /\ world s' = w2
    /\ disk w2 = disk (world s)
    /\ shown s'
       = shown s
         ++ match activeTextEditor d with
            | Some _ => []
            | None => [InfoNoActiveEditor]
            end
         ++ [ErrNoWorkspaceFolder].
Proof.
  intros Hin Hne Hws Hkey Hsum.
  destruct description as [|c t]; [congruence|].
  destruct (logActivity_run d s c t Hin) as (k & w1' & Hk & Hd1 & Hrun).
  rewrite Hkey in Hk. injection Hk as <- <-.
  cbn zeta in Hrun.
  rewrite (getOrPromptApiKey_truthy _ _ _ _ Hkey) in Hrun.
  destruct Hrun as (text' & w2' & Hsum' & Hd2 & Hrun).
  change (default [] (Some apiKey)) with apiKey in Hsum'.
  rewrite Hsum in Hsum'. injection Hsum' as <- <-.
  assert (Hres : resolveLogFilePath (host d) (slice (ist_timestamp d) 0 10) = None).
  { unfold resolveLogFilePath. rewrite Hws. reflexivity. }
  rewrite Hres in Hrun.
  eexists. split; [exact Hrun|].
  cbn [world with_world with_message shown].
  split; [reflexivity|]. split; [congruence|].
  destruct (activeTextEditor d); cbn [shown with_message app];
    rewrite <- ?app_assoc; reflexivity.
Qed.


(** [captureAIPromptAndLog] step by step, in a workspace. *)
Lemma captureAIPromptAndLog_run (d : Desk) (s : Session) (lp : path) :
  resolveLogFilePath (host d) (slice (ist_timestamp d) 0 10) = Some lp ->
  exists r s1,
    resolvePrompt d
      match promptCaptureMode d with
      | Some m => m
      | None => lit "clipboard"
      end (activeTextEditor d) s = (Normal r, s1)
    /\ world s1 = world s
    /\ match r with
       | None => captureAIPromptAndLog d s = (Normal tt, s1)
       | Some (p, src) =>
           p <> [] /\ shown s1 = shown s
           /\ match fst (isDuplicateEntry lp p (world s)) with
              | Throw e => captureAIPromptAndLog d s = (Throw e, s1)
              | Normal true =>
                  captureAIPromptAndLog d s
                  = (Normal tt, with_message InfoDuplicateSkipped s1)
              | Normal false =>
                  exists k w1,
                    getOrPromptApiKey (host d) (world s) = (Normal k, w1)
                    /\ if falsy k
                       then captureAIPromptAndLog d s
                            = (Normal tt,
                               with_message ErrKeyRequiredToLog (with_world w1 s1))
                       else captureAIPromptAndLog d s
                            = match appendLogEntry lp
                                      (logged_entry (ist_timestamp d) p
                                         (activeTextEditor d)
                                         SUMMARY_UNAVAILABLE src) w1 with
                              | (Normal _, w2) =>
                                  (Normal tt,
                                   with_message
                                     (InfoPromptLogged src (ist_timestamp d))
                                     (with_world w2 s1))
                              | (Throw err, w2) =>
                                  (Normal tt,
                                   with_message (ErrWriteFailed err)
                                     (with_world w2 s1))
                              end
              end
       end.
Proof.
  intros Hres.
  destruct (resolvePrompt_run d
              match promptCaptureMode d with
              | Some m => m
              | None => lit "clipboard"
              end (activeTextEditor d) s)
    as (r & s1 & Hrp & Hw & Hsome & _).
  exists r, s1. split; [exact Hrp|]. split; [exact Hw|].
  remember (captureAIPromptAndLog d s) as L eqn:EL.
  unfold captureAIPromptAndLog in EL. rewrite Hres in EL.
  unfold task_bind at 1 in EL. rewrite Hrp in EL.
  destruct r as [[p src]|]; [|exact EL].
  destruct (Hsome p src eq_refl) as (Hp & Hs & _).
  split; [exact Hp|]. split; [exact Hs|].
  unfold task_bind at 1 in EL. rewrite run_eq, Hw in EL.
  pose proof (proj1 (isDuplicateEntry_outcome lp p (world s))) as Hpure.
  destruct (isDuplicateEntry lp p (world s)) as [[[|]|e] w0];
    cbn [fst snd] in *; subst w0; rewrite <- Hw, with_world_same in EL.
  - exact EL.
  - destruct (getOrPromptApiKey_normal (host d) (world s)) as (k & w1 & Hk & _).
    exists k, w1. split; [exact Hk|].
    unfold logged_entry.
    destruct (code_context (activeTextEditor d)) as [[file method] snippet] eqn:Ectx.
    unfold code_context in Ectx. rewrite Ectx in EL.
    unfold task_bind at 1 in EL. rewrite run_eq, Hw, Hk in EL.
    cbn [fst snd] in *.
    destruct (falsy k); [exact EL|].
    unfold task_bind, task_attempt in EL. rewrite run_eq in EL.
    cbn [world with_world] in EL.
    destruct (appendLogEntry lp _ w1) as [[[]|err] w2]; exact EL.
  - exact EL.
Qed.

(** X25: [captureAIPromptAndLog] never asks the service: the requests, the
    service's state and the console are as before. It throws only what the
    guard throws, and then has written nothing. *)
Theorem captureAIPromptAndLog_offline (d : Desk) (s : Session) :
  exists r s',
    captureAIPromptAndLog d s = (r, s')
    /\ requests (world s') = requests (world s)
    /\ remote (world s') = remote (world s)
    /\ console (world s') = console (world s)
    /\ (forall e, r = Throw e ->
          disk (world s') = disk (world s)
          /\ exists lp,
               resolveLogFilePath (host d) (slice (ist_timestamp d) 0 10)
               = Some lp
               /\ (e = TypeError \/ exists cause, e = LogParseError lp cause)).
Proof.
  destruct (resolveLogFilePath (host d) (slice (ist_timestamp d) 0 10))
    as [lp|] eqn:Hres.
  2:{ unfold captureAIPromptAndLog. rewrite Hres.
      eexists _, _. split; [reflexivity|]. repeat split; congruence. }
  destruct (captureAIPromptAndLog_run d s lp Hres) as (r & s1 & _ & Hw & Hrun).
  destruct r as [[p src]|].
  2:{ eexists _, _. split; [exact Hrun|]. rewrite Hw. repeat split; congruence. }
  destruct Hrun as (_ & _ & Hrun).
  pose proof (proj2 (isDuplicateEntry_outcome lp p (world s))) as Herr.
  destruct (fst (isDuplicateEntry lp p (world s))) as [[|]|e].
  - eexists _, _. split; [exact Hrun|]. cbn [world with_message].
    rewrite Hw. repeat split; congruence.
  - destruct Hrun as (k & w1 & Hk & Hrun).
    destruct (getOrPromptApiKey_normal (host d) (world s))
      as (k' & w1' & Hk' & _ & _ & Hr1 & Hm1 & Hc1).
    rewrite Hk in Hk'. injection Hk' as <- <-.
    destruct (falsy k).
    + eexists _, _. split; [exact Hrun|]. cbn [world with_message with_world].
      repeat split; congruence.
    + pose proof (appendLogEntry_kept lp
                    (logged_entry (ist_timestamp d) p (activeTextEditor d)
                       SUMMARY_UNAVAILABLE src) w1) as [_ Hsame].
      destruct (appendLogEntry lp _ w1) as [[[]|err] w2]; cbn [snd] in Hsame;
        destruct Hsame as (_ & Hm2 & Hr2 & Hc2 & _);
        (eexists _, _; split; [exact Hrun|]);
        cbn [world with_message with_world];
        repeat split; congruence.
  - eexists _, _. split; [exact Hrun|]. rewrite Hw.
    split; [reflexivity|]. split; [reflexivity|]. split; [reflexivity|].
    intros e' [= <-]. split; [reflexivity|]. exists lp. split; [reflexivity|].
    apply Herr. reflexivity.
Qed.

(** X26: after a prompt was captured and logged, capturing the same
    prompt again into the same log, while the clock is less than two
    minutes past the record's timestamp, is skipped: the message is shown
    and the disk is untouched. *)
Theorem captureAIPromptAndLog_skips_repeat (d : Desk) (s : Session) (lp : path)
    (p : str) (src : LogSource) (s1 : Session) (es : list LogEntry)
    (apiKey : str) (w1 : World) :
  resolveLogFilePath (host d) (slice (ist_timestamp d) 0 10) = Some lp ->
  resolvePrompt d
    match promptCaptureMode d with
    | Some m => m
    | None => lit "clipboard"
    end (activeTextEditor d) s = (Normal (Some (p, src)), s1) ->
  ancestors_clear (disk (world s)) lp ->
  fst (readLogFile lp (world s)) = Normal (LogEntries_value es) ->
  fst (isDuplicateEntry lp p (world s)) = Normal false ->
  getOrPromptApiKey (host d) (world s) = (Normal (Some apiKey), w1) ->
  exists s2,
    captureAIPromptAndLog d s = (Normal tt, s2)
    /\ shown s2 = shown s ++ [InfoPromptLogged src (ist_timestamp d)]
    /\ readLogFile lp (world s2)
       = (Normal (LogEntries_value
                    (es ++ [logged_entry (ist_timestamp d) p (activeTextEditor d)
                              SUMMARY_UNAVAILABLE src])),
          world s2)
    /\ forall d' s3 src' s4,
         resolveLogFilePath (host d') (slice (ist_timestamp d') 0 10) = Some lp ->
         disk (world s3) = disk (world s2) ->
         resolvePrompt d'
           match promptCaptureMode d' with
           | Some m => m
           | None => lit "clipboard"
           end (activeTextEditor d') s3 = (Normal (Some (p, src')), s4) ->
         elapsed_below TWO_MINUTES_MS (Date_time (JStr (ist_timestamp d)))
           (clock (world s3)) = true ->
         captureAIPromptAndLog d' s3
         = (Normal tt, with_message InfoDuplicateSkipped s4)
         /\ disk (world s4) = disk (world s2).
Proof.
  intros Hres Hrp Hclear Hread Hdup Hkey.
  destruct (captureAIPromptAndLog_run d s lp Hres) as (r & s1' & Hrp' & Hw & Hrun).
  rewrite Hrp in Hrp'. injection Hrp' as <- <-.
  destruct Hrun as (Hp & Hs & Hrun). rewrite Hdup in Hrun.
  destruct Hrun as (k & w1' & Hk & Hrun).
  rewrite Hkey in Hk. injection Hk as <- <-.
  rewrite (getOrPromptApiKey_truthy _ _ _ _ Hkey) in Hrun.
  destruct (getOrPromptApiKey_normal (host d) (world s)) as (k' & w1' & Hk' & Hd1 & _).
  rewrite Hkey in Hk'. injection Hk' as <- <-.
  set (entry := logged_entry (ist_timestamp d) p (activeTextEditor d)
                  SUMMARY_UNAVAILABLE src) in *.
  assert (Hclear1 : ancestors_clear (disk w1) lp) by (rewrite Hd1; exact Hclear).
  assert (Hread1 : fst (readLogFile lp w1) = Normal (LogEntries_value es)).
  { rewrite readLogFile_node in *. cbn [fst] in *. rewrite Hd1. exact Hread. }
  destruct (appendLogEntry_run lp entry w1 (List.map LogEntry_value es)
              Hclear1 Hread1) as (d1 & Happ & _).
  rewrite Happ in Hrun.
  assert (Hlp : lp <> []).
  { intros ->. rewrite readLogFile_node in Hread. discriminate Hread. }
  assert (Hwritten : forall w, disk w = <[lp := File (toWellFormed (JSON_stringify (JArr (List.map LogEntry_value es ++ [LogEntry_value entry]))))]> d1 ->
            readLogFile lp w = (Normal (LogEntries_value (es ++ [entry])), w)).
  { intros w Hd. apply readLogFile_written;
      [apply LogEntries_value_canonical|exact Hlp|].
    rewrite Hd, lookup_insert_eq.
    unfold LogEntries_value. rewrite List.map_app. reflexivity. }
  eexists. split; [exact Hrun|].
  cbn [world with_world with_message shown].
  split; [rewrite Hs; reflexivity|]. split; [apply Hwritten; reflexivity|].
  intros d' s3 src' s4 Hres' Hd3 Hrp3 Hnear.
  destruct (captureAIPromptAndLog_run d' s3 lp Hres') as (r & s4' & Hrp' & Hw4 & Hrun').
  rewrite Hrp3 in Hrp'. injection Hrp' as <- <-.
  destruct Hrun' as (_ & _ & Hrun').
  assert (Hguard : isDuplicateEntry lp p (world s3) = (Normal true, world s3)).
  { pose proof (Hwritten (world s3) Hd3) as Hr3.
    unfold LogEntries_value in Hr3. rewrite List.map_app in Hr3.
    rewrite (isDuplicateEntry_last_record lp p (world s3)
               (List.map LogEntry_value es) _ p (f_equal fst Hr3) eq_refl).
    rewrite bool_decide_eq_true_2 by reflexivity.
    change (Date_getTime _) with (Date_time (JStr (ist_timestamp d))).
    rewrite Hnear. reflexivity. }
  rewrite Hguard in Hrun'. cbn [fst] in Hrun'.
  split; [exact Hrun'|]. rewrite Hw4. exact Hd3.
Qed.

(** X27: a dismissed or empty input box leaves everything as it was; a key
    typed in replaces the stored one, touches nothing on disk, and is what
    [getOrPromptApiKey] returns from then on without asking. *)
Theorem setGeminiApiKey_spec (newKey : option str) (s : Session) :
  (falsy newKey = true -> setGeminiApiKey newKey s = (Normal tt, s))
  /\ (forall key,
        newKey = Some key -> key <> [] ->
        exists s',
          setGeminiApiKey newKey s = (Normal tt, s')
          /\ secret (world s') = Some key
          /\ shown s' = shown s ++ [InfoKeyUpdated]
          /\ disk (world s') = disk (world s)
          /\ forall h, getOrPromptApiKey h (world s')
                       = (Normal (Some key), world s')).
Proof.
  unfold setGeminiApiKey. split.
  - intros ->. reflexivity.
  - intros key -> Hne. destruct key as [|c k]; [congruence|]. cbn [falsy].
    eexists. split; [reflexivity|].
    cbn [world shown secret set_secret disk].
    repeat split.
Qed.

End LoggingCommands.

(** ** The earlier revision *)

Section EarlierRevision.

Context {engine : Engine} {service : Service} {calendar : Calendar}.

(** The earlier [summarizeCode] always returns, after at most one
    request, and leaves the disk alone. *)
Lemma Earlier_summarizeCode_run (apiKey codeSnippet : str) (w : World) :
  exists text w',
    Earlier.summarizeCode apiKey codeSnippet w = (Normal text, w')
    /\ disk w' = disk w
    /\ (trim codeSnippet = [] -> text = NO_CONTEXT /\ w' = w)
    /\ (trim codeSnippet <> [] ->
        requests w'
        = requests w
          ++ [request_of apiKey (Earlier.summary_prompt codeSnippet)
                Earlier.MODEL_NAME]
        /\ match fst (generateContent apiKey Earlier.MODEL_NAME
                        (Earlier.summary_prompt codeSnippet) (remote w)) with
           | inr answer => text = trim answer
           | inl _ => text = SUMMARY_UNAVAILABLE
           end).
Proof.
  unfold Earlier.summarizeCode.
  destruct (trim codeSnippet) as [|c t].
  - eexists _, _. split; [reflexivity|]. repeat split; congruence.
  - unfold try_catch, bind, model_generateContent, console_log, ret.
    destruct (generateContent apiKey Earlier.MODEL_NAME
                (Earlier.summary_prompt codeSnippet) (remote w)) as [[err|answer] r];
      eexists _, _; (split; [reflexivity|]); cbn [fst];
      repeat split; congruence.
Qed.

(** The earlier [captureAIPromptAndLog] step by step, in a workspace. *)
Lemma Earlier_captureAIPromptAndLog_run (d : Desk) (s : Session) (lp : path) :
  let timestamp := Date_toISOString (clock (world s)) in
  resolveLogFilePath (host d) (slice timestamp 0 10) = Some lp ->
  forall r s1,
    Earlier.resolvePrompt d
      match promptCaptureMode d with
      | Some m => m
      | None => lit "clipboard"
      end (activeTextEditor d) s = (Normal r, s1) ->
    world s1 = world s ->
    match r with
    | None => Earlier.captureAIPromptAndLog d s = (Normal tt, s1)
    | Some (p, src) =>
        match fst (isDuplicateEntry lp p (world s)) with
        | Throw e => Earlier.captureAIPromptAndLog d s = (Throw e, s1)
        | Normal true =>
            Earlier.captureAIPromptAndLog d s
            = (Normal tt, with_message InfoDuplicateSkipped s1)
        | Normal false =>
            exists k w1,
              getOrPromptApiKey (host d) (world s) = (Normal k, w1)
              /\ if falsy k
                 then Earlier.captureAIPromptAndLog d s
                      = (Normal tt,
                         with_message ErrKeyRequiredToLog (with_world w1 s1))
                 else
                   exists text w2,
                     Earlier.summarizeCode (default [] k)
                       (snd (code_context (activeTextEditor d))) w1
                     = (Normal text, w2)
                     /\ Earlier.captureAIPromptAndLog d s
                        = match appendLogEntry lp
                                  (logged_entry timestamp p (activeTextEditor d)
                                     text src) w2 with
                          | (Normal _, w3) =>
                              (Normal tt,
                               with_message (InfoPromptLogged src timestamp)
                                 (with_world w3 s1))
                          | (Throw err, w3) =>
                              (Normal tt,
                               with_message (ErrWriteFailed err)
                                 (with_world w3 s1))
                          end
        end
    end.
Proof.
  intros timestamp Hres r s1 Hrp Hw.
  remember (Earlier.captureAIPromptAndLog d s) as L eqn:EL.
  unfold Earlier.captureAIPromptAndLog in EL.
  unfold task_bind at 1 in EL. rewrite run_eq in EL. unfold Date_now in EL.
  cbn [fst snd] in EL. rewrite with_world_same in EL.
  fold timestamp in EL. rewrite Hres in EL.
  unfold task_bind at 1 in EL. rewrite Hrp in EL.
  destruct r as [[p src]|]; [|exact EL].
  unfold task_bind at 1 in EL. rewrite run_eq, Hw in EL.
  pose proof (proj1 (isDuplicateEntry_outcome lp p (world s))) as Hpure.
  destruct (isDuplicateEntry lp p (world s)) as [[[|]|e] w0];
    cbn [fst snd] in *; subst w0; rewrite <- Hw, with_world_same in EL.
  - exact EL.
  - destruct (getOrPromptApiKey_normal (host d) (world s)) as (k & w1 & Hk & _).
    exists k, w1. split; [exact Hk|].
    unfold logged_entry.
    destruct (code_context (activeTextEditor d)) as [[file method] snippet] eqn:Ectx.
    unfold code_context in Ectx. rewrite Ectx in EL.
    unfold task_bind at 1 in EL. rewrite run_eq, Hw, Hk in EL.
    cbn [fst snd] in *.
    destruct (falsy k); [exact EL|].
    destruct (Earlier_summarizeCode_run (default [] k) snippet w1)
      as (text & w2 & Hsum & _).
    exists text, w2. split; [exact Hsum|].
    unfold task_bind at 1, task_attempt in EL. rewrite run_eq in EL.
    cbn [world with_world] in EL. rewrite Hsum in EL. cbn [fst snd] in EL.
    unfold task_bind, task_attempt in EL. rewrite run_eq in EL.
    cbn [world with_world] in EL.
    destruct (appendLogEntry lp _ w2) as [[[]|err] w3]; exact EL.
  - exact EL.
Qed.


Lemma Earlier_captureFromClipboard_run (s : Session) :
  exists r s',
    Earlier.captureFromClipboard s = (Normal r, s')
    /\ world s' = world s /\ shown s' = shown s
    /\ clipboard_reads s' = skipn 1 (clipboard_reads s)
    /\ r = match trim (nth 0 (clipboard_reads s) []) with
           | [] => None
           | t => Some t
           end.
Proof.
  unfold Earlier.captureFromClipboard, task_bind, readText.
  destruct (clipboard_reads s) as [|text later] eqn:Ec.
  - exists None, s. rewrite Ec. repeat split.
  - cbn [nth skipn]. destruct (trim text); eexists _, _; repeat split.
Qed.

Lemma Earlier_resolvePrompt_run (d : Desk) (mode : str)
    (editor : option Editor) (s : Session) :
  exists r s',
    Earlier.resolvePrompt d mode editor s = (Normal r, s')
    /\ world s' = world s
    /\ (forall text source, r = Some (text, source) ->
          text <> [] /\ shown s' = shown s).
Proof.
  unfold Earlier.resolvePrompt, str_eqb.
  assert (Hclip : forall (src : LogSource) (warning : Message),
    exists r s',
      task_bind Earlier.captureFromClipboard
        (fun text =>
           if falsy text
           then task_bind (show_message warning) (fun _ => task_ret None)
           else task_ret (Some (default [] text, src))) s = (Normal r, s')
      /\ world s' = world s
      /\ (forall text source, r = Some (text, source) ->
            text <> [] /\ shown s' = shown s)).
  { intros src warning. unfold task_bind.
    destruct (Earlier_captureFromClipboard_run s)
      as (r & s' & Hrun & Hw & Hs & _ & Hr).
    rewrite Hrun.
    destruct (trim (nth 0 (clipboard_reads s) [])) as [|c t]; subst r;
      cbn [falsy].
    - eexists _, _. split; [reflexivity|]. split; [exact Hw|]. discriminate.
    - eexists _, _. split; [reflexivity|]. split; [exact Hw|].
      intros text source [= <- <-]. split; [discriminate|exact Hs]. }
  destruct (bool_decide (mode = lit "clipboard")); [apply Hclip|].
  destruct (bool_decide (mode = lit "activeInputCapture")).
  - unfold Earlier.captureFromActiveInput.
    destruct editor as [e|]; [|apply Hclip].
    destruct (selection_isEmpty e); cbn [negb]; [apply Hclip|].
    unfold task_bind at 1.
    destruct (trim (selection_text e)) as [|c t]; cbn [falsy].
    + eexists _, _. split; [reflexivity|]. split; [reflexivity|]. discriminate.
    + eexists _, _. split; [reflexivity|]. split; [reflexivity|].
      intros text source [= <- <-]. split; [discriminate|reflexivity].
  - destruct (text_input d) as [[|c t]|]; cbn [falsy];
      eexists _, _; (split; [reflexivity|]); (split; [reflexivity|]);
      try discriminate.
    intros text source [= <- <-]. split; [discriminate|reflexivity].
Qed.

(** X28: on a selection of white space only, the earlier revision gives
    up with a warning and does not read the clipboard; the later one reads
    the clipboard and labels what it finds as coming from the clipboard. *)
Theorem blank_selection_fallback (d : Desk) (e : Editor) (s : Session) :
  selection_isEmpty e = false ->
  trim (selection_text e) = [] ->
  Earlier.resolvePrompt d (lit "activeInputCapture") (Some e) s
  = (Normal None, with_message WarnNothingSelected s)
  /\ exists r s' n,
       resolvePrompt d (lit "activeInputCapture") (Some e) s = (Normal r, s')
       /\ (1 <= n <= 4)%nat
       /\ clipboard_reads s' = skipn n (clipboard_reads s)
       /\ r = match trim (nth (n - 1) (clipboard_reads s) []) with
              | [] => None
              | t => Some (t, clipboard)
              end.
Proof.
  intros Hsel Hblank. split.
  - unfold Earlier.resolvePrompt, Earlier.captureFromActiveInput, str_eqb.
    rewrite bool_decide_eq_false_2 by discriminate.
    rewrite bool_decide_eq_true_2 by reflexivity.
    rewrite Hsel. cbn [negb]. unfold task_bind at 1. rewrite Hblank.
    reflexivity.
  - unfold resolvePrompt, captureFromActiveInput, str_eqb.
    rewrite bool_decide_eq_false_2 by discriminate.
    rewrite bool_decide_eq_true_2 by reflexivity.
    rewrite Hsel, Hblank. cbn [negb length Nat.eqb andb].
    unfold task_bind at 1.
    destruct (captureFromClipboard_run 3 s)
      as (r & s' & n & Hrun & Hn & _ & _ & Hc & _ & _ & Hr & _).
    rewrite Hrun.
    destruct (trim (nth (n - 1) (clipboard_reads s) [])) as [|c t] eqn:Et;
      subst r; cbn [falsy].
    + eexists _, _, n. split; [reflexivity|].
      cbn [clipboard_reads]. rewrite Et. auto.
    + eexists _, _, n. split; [reflexivity|]. rewrite Et. auto.
Qed.

(** X29: in the earlier revision the record's timestamp is the clock of the
    run. After a prompt was logged at [now], a capture of the same prompt
    into the same log is skipped when the clock is less than two minutes
    past [now], and is no duplicate from two minutes on. The summary of the
    record is what the one model of that revision gave. *)
Theorem Earlier_capture_window (d : Desk) (s : Session) (lp : path)
    (p : str) (src : LogSource) (s1 : Session) (es : list LogEntry)
    (apiKey : str) (w1 : World) :
  let now := clock (world s) in
  let timestamp := Date_toISOString now in
  Date_time (JStr timestamp) = Some now ->
  resolveLogFilePath (host d) (slice timestamp 0 10) = Some lp ->
  Earlier.resolvePrompt d
    match promptCaptureMode d with
    | Some m => m
    | None => lit "clipboard"
    end (activeTextEditor d) s = (Normal (Some (p, src)), s1) ->
  ancestors_clear (disk (world s)) lp ->
  fst (readLogFile lp (world s)) = Normal (LogEntries_value es) ->
  fst (isDuplicateEntry lp p (world s)) = Normal false ->
  getOrPromptApiKey (host d) (world s) = (Normal (Some apiKey), w1) ->
  exists s2 summary,
    Earlier.captureAIPromptAndLog d s = (Normal tt, s2)
    /\ shown s2 = shown s ++ [InfoPromptLogged src timestamp]
    /\ readLogFile lp (world s2)
       = (Normal (LogEntries_value
                    (es ++ [logged_entry timestamp p (activeTextEditor d)
                              summary src])),
          world s2)
    /\ fst (Earlier.summarizeCode apiKey
              (snd (code_context (activeTextEditor d))) w1) = Normal summary
    /\ forall d' s3 src' s4,
         resolveLogFilePath (host d')
           (slice (Date_toISOString (clock (world s3))) 0 10) = Some lp ->
         disk (world s3) = disk (world s2) ->
         Earlier.resolvePrompt d'
           match promptCaptureMode d' with
           | Some m => m
           | None => lit "clipboard"
           end (activeTextEditor d') s3 = (Normal (Some (p, src')), s4) ->
         ((clock (world s3) - now < TWO_MINUTES_MS)%Z ->
          Earlier.captureAIPromptAndLog d' s3
          = (Normal tt, with_message InfoDuplicateSkipped s4))
         /\ ((TWO_MINUTES_MS <= clock (world s3) - now)%Z ->
             fst (isDuplicateEntry lp p (world s3)) = Normal false).
Proof.
  intros now timestamp Hcal Hres Hrp Hclear Hread Hdup Hkey.
  subst now timestamp.
  set (now := clock (world s)) in *.
  set (timestamp := Date_toISOString now) in *.
  destruct (Earlier_resolvePrompt_run d
              match promptCaptureMode d with
              | Some m => m
              | None => lit "clipboard"
              end (activeTextEditor d) s) as (r & s1' & Hrp' & Hw & Hsome).
  rewrite Hrp in Hrp'. injection Hrp' as <- <-.
  destruct (Hsome p src eq_refl) as (Hp & Hs).
  pose proof (Earlier_captureAIPromptAndLog_run d s lp Hres _ _ Hrp Hw) as Hrun.
  cbv beta iota in Hrun. rewrite Hdup in Hrun.
  destruct Hrun as (k & w1' & Hk & Hrun).
  rewrite Hkey in Hk. injection Hk as <- <-.
  rewrite (getOrPromptApiKey_truthy _ _ _ _ Hkey) in Hrun.
  destruct Hrun as (text & w2 & Hsum & Hrun).
  change (default [] (Some apiKey)) with apiKey in Hsum.
  destruct (getOrPromptApiKey_normal (host d) (world s)) as (k' & w1' & Hk' & Hd1 & _).
  rewrite Hkey in Hk'. injection Hk' as <- <-.
  destruct (Earlier_summarizeCode_run apiKey
              (snd (code_context (activeTextEditor d))) w1)
    as (text' & w2' & Hsum' & Hd2 & _).
  rewrite Hsum in Hsum'. injection Hsum' as <- <-.
  set (entry := logged_entry timestamp p (activeTextEditor d) text src) in *.
  assert (Hclear2 : ancestors_clear (disk w2) lp) by (rewrite Hd2, Hd1; exact Hclear).
  assert (Hread2 : fst (readLogFile lp w2) = Normal (LogEntries_value es)).
  { rewrite readLogFile_node in *. cbn [fst] in *. rewrite Hd2, Hd1. exact Hread. }
  destruct (appendLogEntry_run lp entry w2 (List.map LogEntry_value es)
              Hclear2 Hread2) as (d1 & Happ & _).
  change (logged_entry (Date_toISOString (clock (world s))) p
            (activeTextEditor d) text src) with entry in Hrun.
  change (Date_toISOString (clock (world s))) with timestamp in Hrun.
  rewrite Happ in Hrun.
  assert (Hlp : lp <> []).
  { intros ->. rewrite readLogFile_node in Hread. discriminate Hread. }
  assert (Hwritten : forall w, disk w = <[lp := File (toWellFormed (JSON_stringify (JArr (List.map LogEntry_value es ++ [LogEntry_value entry]))))]> d1 ->
            readLogFile lp w = (Normal (LogEntries_value (es ++ [entry])), w)).
  { intros w Hd. apply readLogFile_written;
      [apply LogEntries_value_canonical|exact Hlp|].
    rewrite Hd, lookup_insert_eq.
    unfold LogEntries_value. rewrite List.map_app. reflexivity. }
  eexists _, text. split; [exact Hrun|].
  cbn [world with_world with_message shown].
  split; [rewrite Hs; reflexivity|]. split; [apply Hwritten; reflexivity|].
  split; [rewrite Hsum; reflexivity|].
  intros d' s3 src' s4 Hres' Hd3 Hrp3.
  destruct (Earlier_resolvePrompt_run d'
              match promptCaptureMode d' with
              | Some m => m
              | None => lit "clipboard"
              end (activeTextEditor d') s3) as (r & s4' & Hrp' & Hw4 & _).
  rewrite Hrp3 in Hrp'. injection Hrp' as <- <-.
  pose proof (Earlier_captureAIPromptAndLog_run d' s3 lp Hres' _ _ Hrp3 Hw4)
    as Hrun'.
  cbv beta iota in Hrun'.
  assert (Hguard : isDuplicateEntry lp p (world s3)
                   = (Normal (Z.ltb (clock (world s3) - now) TWO_MINUTES_MS),
                      world s3)).
  { pose proof (Hwritten (world s3) Hd3) as Hr3.
    unfold LogEntries_value in Hr3. rewrite List.map_app in Hr3.
    rewrite (isDuplicateEntry_last_record lp p (world s3)
               (List.map LogEntry_value es) _ p (f_equal fst Hr3) eq_refl).
    rewrite bool_decide_eq_true_2 by reflexivity.
    change (Date_getTime _) with (Date_time (JStr timestamp)).
    rewrite Hcal. reflexivity. }
  rewrite Hguard in *. cbn [fst] in *. split.
  - intros Hlt. apply Z.ltb_lt in Hlt. rewrite Hlt in Hrun'. exact Hrun'.
  - intros Hge. f_equal. apply Z.ltb_ge. exact Hge.
Qed.

End EarlierRevision.

(** ** Worked examples *)

(** Equality of two closed terms, decided by evaluation. *)
Ltac vm_refl :=
  lazymatch goal with
  | |- ?l = ?r => exact (@eq_refl _ r <: l = r)
  end.








Lemma generateTimesheetFromLogs_example_witness :
  generateTimesheetFromLogs (service := svc_fenced) (lit "AIza-example")
    (LogEntries_value [fix_bug]) (lit "2026-02-28")
    (world0 svc_fenced tt disk_logged 0)
  = (Normal (Timesheet_value example_timesheet),
     set_remote (service := svc_fenced) tt
       (request_of (lit "AIza-example")
          (timesheet_prompt (JSON_stringify (LogEntries_value [fix_bug]))
             (lit "2026-02-28"))
          (lit "gemini-3-flash-preview"))
       (world0 svc_fenced tt disk_logged 0)).
Proof.
  apply (generateTimesheetFromLogs_example (service := svc_fenced) _ _ _
           (FENCE ++ lit "json" ++ [10] ++ example_response ++ [10] ++ FENCE)).
  - vm_refl.
  - right. exists (lit "json"), [10], [10].
    repeat split; try reflexivity. right. reflexivity.
Defined.

(** C6, the claim as stated fails: the content [{}] is not empty and is
    not a serialized sequence of records, and the read returns it without
    an error. *)
Lemma readLogFile_accepts_any_json :
  ~ serialized_records (lit "{}")
  /\ readLogFile (service := svc_down) log_path
       (world0 svc_down tt (disk_with (lit "{}")) 0)
     = (Normal (JObj []), world0 svc_down tt (disk_with (lit "{}")) 0).
Proof.
  split.
  - intros [es H].
    assert (E : JSON_parse (trim (lit "{}")) = Some (JObj [])) by vm_refl.
    rewrite E in H. discriminate H.
  - vm_refl.
Qed.

Lemma readLogFile_spec_witness :
  readLogFile (service := svc_down) log_path
    (world0 svc_down tt (disk_with (lit "not a log")) 0)
  = (Throw (LogParseError log_path SyntaxError),
     world0 svc_down tt (disk_with (lit "not a log")) 0).
Proof.
  apply (proj1 (proj2 (proj2 (readLogFile_spec (service := svc_down) log_path
                         (world0 svc_down tt (disk_with (lit "not a log")) 0))
                       (lit "not a log") eq_refl))).
  - vm_compute. discriminate.
  - vm_refl.
Defined.

Lemma appendLogEntry_spec_witness :
  exists w',
    appendLogEntry (service := svc_down) log_path fix_bug
      (world0 svc_down tt ∅ 0) = (Normal tt, w')
    /\ node_at (disk w') (dirname log_path) = Some Dir
    /\ disk w' !! log_path
       = Some (File (JSON_stringify (LogEntries_value [fix_bug])))
    /\ readLogFile log_path w' = (Normal (LogEntries_value [fix_bug]), w').
Proof.
  apply (proj2 (appendLogEntry_spec (service := svc_down) log_path fix_bug
                  (world0 svc_down tt ∅ 0)
                  ltac:(intros k c Hk;
                        destruct k as [|[|[|k]]];
                        [vm_compute; discriminate ..
                        |vm_compute in Hk; lia]))).
  vm_refl.
Defined.

(** C8, the claim as stated fails: the parent of the path does not exist,
    and the write throws instead of creating it; nothing is written. *)
Lemma writeLogFile_needs_parent :
  node_at (∅ : gmap path node) (dirname log_path) = None
  /\ writeLogFile (service := svc_down) log_path (LogEntries_value [fix_bug])
       (world0 svc_down tt ∅ 0)
     = (Throw (SystemError ENOENT log_path), world0 svc_down tt ∅ 0).
Proof. split; vm_refl. Qed.

Lemma writeLogFile_spec_witness :
  writeLogFile (service := svc_down) log_path (LogEntries_value [fix_bug])
    (world0 svc_down tt (disk_with (lit "stale")) 0)
  = (Normal tt,
     set_disk (fun d => <[log_path :=
                            File (toWellFormed
                                    (serialize 0 (LogEntries_value [fix_bug])))]> d)
       (world0 svc_down tt (disk_with (lit "stale")) 0)).
Proof.
  apply (proj1 (writeLogFile_spec (service := svc_down) log_path
                  (LogEntries_value [fix_bug])
                  (world0 svc_down tt (disk_with (lit "stale")) 0))).
  - vm_refl.
  - vm_compute. discriminate.
Defined.

Lemma write_read_roundtrip_witness :
  exists w',
    writeLogFile (service := svc_down) log_path
      (LogEntries_value [fix_bug; fix_bug]) (world0 svc_down tt disk_dirs 0)
    = (Normal tt, w')
    /\ readLogFile log_path w'
       = (Normal (LogEntries_value [fix_bug; fix_bug]), w').
Proof.
  apply (write_read_roundtrip (service := svc_down) log_path
           [fix_bug; fix_bug] (world0 svc_down tt disk_dirs 0)).
  - vm_refl.
  - vm_compute. discriminate.
Defined.

(** C10, the claim as stated fails: the content [[1]] is not empty and is
    not a serialized sequence of records, and the guard returns a boolean
    all the same. *)
Lemma isDuplicateEntry_answers_on_non_records :
  ~ serialized_records (lit "[1]")
  /\ isDuplicateEntry (engine := example_engine) (service := svc_down)
       log_path (lit "fix bug") (world0 svc_down tt (disk_with (lit "[1]")) 0)
     = (Normal false, world0 svc_down tt (disk_with (lit "[1]")) 0).
Proof.
  split.
  - intros [es H].
    assert (E : JSON_parse (trim (lit "[1]")) = Some (JArr [JNum [49]]))
      by vm_refl.
    rewrite E in H. destruct es as [|e es]; discriminate H.
  - vm_refl.
Qed.

Lemma isDuplicateEntry_propagates_witness :
  isDuplicateEntry (engine := example_engine) (service := svc_down)
    log_path (lit "fix bug") (world0 svc_down tt (disk_with (lit "[1,")) 0)
  = (Throw (LogParseError log_path SyntaxError),
     world0 svc_down tt (disk_with (lit "[1,")) 0).
Proof.
  apply (proj1 (proj2 (proj2 (isDuplicateEntry_propagates
                         (engine := example_engine) (service := svc_down)
                         log_path (lit "fix bug")
                         (world0 svc_down tt (disk_with (lit "[1,")) 0))
                       (lit "[1,") eq_refl))).
  - vm_compute. discriminate.
  - vm_refl.
Defined.

(** No ancestor of a path of three components is a file. *)
Ltac clear_ancestors :=
  let k := fresh "k" in
  let c := fresh "c" in
  let Hk := fresh "Hk" in
  intros k c Hk; destruct k as [|[|[|k]]];
  [vm_compute; discriminate .. | vm_compute in Hk; lia].

Lemma writeTimesheetFile_spec_witness :
  exists w',
    writeTimesheetFile (service := svc_down) timesheet_path
      (Timesheet_value example_timesheet) (world0 svc_down tt ∅ 0)
    = (Normal tt, w')
    /\ node_at (disk w') (dirname timesheet_path) = Some Dir
    /\ disk w' !! timesheet_path
       = Some (File (JSON_stringify (Timesheet_value example_timesheet)))
    /\ JSON_parse (trim (JSON_stringify (Timesheet_value example_timesheet)))
       = Some (Timesheet_value example_timesheet).
Proof.
  destruct (writeTimesheetFile_spec (service := svc_down) timesheet_path
              (Timesheet_value example_timesheet) (world0 svc_down tt ∅ 0)
              ltac:(clear_ancestors) ltac:(vm_compute; discriminate))
    as (w' & Hrun & Hdir & _ & _ & _ & _ & Hrec).
  exists w'. destruct (Hrec example_timesheet eq_refl) as [Hfile Hparse].
  repeat split; assumption.
Defined.

Lemma appendLogEntry_sequence_witness :
  exists w',
    appendLogEntries (service := svc_down)
      log_path [fix_bug; add_test] (world0 svc_down tt ∅ 0) = (Normal tt, w')
    /\ readLogFile log_path w'
       = (Normal (LogEntries_value [fix_bug; add_test]), w').
Proof.
  destruct (appendLogEntry_sequence
              (service := svc_down) log_path [fix_bug; add_test] []
              (world0 svc_down tt ∅ 0) ltac:(clear_ancestors) ltac:(vm_refl))
    as (w' & Hrun & Hread & _).
  exists w'. split; assumption.
Defined.

Lemma appendLogEntry_keeps_unreadable_log_witness :
  appendLogEntry (service := svc_down) log_path fix_bug
    (world0 svc_down tt (disk_with (lit "not json")) 0)
  = (Throw (LogParseError log_path SyntaxError),
     world0 svc_down tt (disk_with (lit "not json")) 0).
Proof.
  apply (proj1 (appendLogEntry_keeps_unreadable_log (service := svc_down)
                  log_path fix_bug
                  (world0 svc_down tt (disk_with (lit "not json")) 0)
                  (lit "not json")
                  ltac:(vm_refl)
                  ltac:(intros k Hk; destruct k as [|[|[|k]]];
                        [vm_refl .. | vm_compute in Hk; lia])
                  ltac:(vm_compute; discriminate))).
  vm_refl.
Defined.

Lemma isDuplicateEntry_after_append_witness :
  exists w1,
    appendLogEntry (service := svc_down) log_path add_test
      (world0 svc_down tt disk_logged (T_fix_bug + 60000)) = (Normal tt, w1)
    /\ isDuplicateEntry (engine := example_engine) log_path (lit "add test")
         (world0 svc_down tt (disk w1) (T_fix_bug + 90000))
       = (Normal true, world0 svc_down tt (disk w1) (T_fix_bug + 90000))
    /\ isDuplicateEntry (engine := example_engine) log_path (lit "fix bug")
         (world0 svc_down tt (disk w1) (T_fix_bug + 90000))
       = (Normal false, world0 svc_down tt (disk w1) (T_fix_bug + 90000)).
Proof.
  destruct (isDuplicateEntry_after_append (engine := example_engine)
              (service := svc_down) log_path add_test [fix_bug]
              (world0 svc_down tt disk_logged (T_fix_bug + 60000))
              ltac:(clear_ancestors) ltac:(vm_refl))
    as (w1 & Hrun & Hguard).
  exists w1. split; [exact Hrun|]. split.
  - exact (Hguard (world0 svc_down tt (disk w1) (T_fix_bug + 90000))
             (lit "add test") eq_refl).
  - exact (Hguard (world0 svc_down tt (disk w1) (T_fix_bug + 90000))
             (lit "fix bug") eq_refl).
Defined.

Lemma generateTimesheetFromLogs_strips_fences_witness :
  generateTimesheetFromLogs (service := svc_upper_fence) (lit "AIza-example")
    (LogEntries_value [fix_bug]) (lit "2026-02-28")
    (world0 svc_upper_fence tt disk_logged 0)
  = (Normal (Timesheet_value example_timesheet),
     snd (generateContentWithFallback (service := svc_upper_fence)
            (lit "AIza-example")
            (timesheet_prompt (JSON_stringify (LogEntries_value [fix_bug]))
               (lit "2026-02-28"))
            FALLBACK_MODELS (world0 svc_upper_fence tt disk_logged 0))).
Proof.
  apply (proj2 (generateTimesheetFromLogs_strips_fences
                  (service := svc_upper_fence) (lit "AIza-example")
                  (LogEntries_value [fix_bug]) (lit "2026-02-28")
                  (FENCE ++ lit "JSON" ++ [10]
                   ++ JSON_stringify (Timesheet_value example_timesheet)
                   ++ [10] ++ FENCE)
                  (world0 svc_upper_fence tt disk_logged 0)
                  (snd (generateContentWithFallback (lit "AIza-example")
                          (timesheet_prompt
                             (JSON_stringify (LogEntries_value [fix_bug]))
                             (lit "2026-02-28"))
                          FALLBACK_MODELS
                          (world0 svc_upper_fence tt disk_logged 0)))
                  (FENCE ++ lit "JSON" ++ [10])
                  (JSON_stringify (Timesheet_value example_timesheet))
                  ([10] ++ FENCE)
                  ltac:(vm_refl)
                  (or_intror (ex_intro _ (lit "JSON")
                     (ex_intro _ [10]
                        (conj (or_intror eq_refl) (conj eq_refl eq_refl)))))
                  (or_intror (ex_intro _ [10] (conj eq_refl eq_refl)))
                  ltac:(vm_refl))).
  - apply Timesheet_value_canonical.
  - reflexivity.
Defined.

Lemma generateTimesheet_saves_witness :
  exists w3,
    generateTimesheet (engine := example_engine) (service := svc_fenced) host0
      (world0 svc_fenced tt disk_logged 0) = (Normal tt, w3)
    /\ disk w3 !! timesheet_path
       = Some (File (JSON_stringify (Timesheet_value example_timesheet)))
    /\ disk w3 !! log_path = disk_logged !! log_path
    /\ notifications w3
       = [InfoKeySaved; InfoSaved (lit "2026-02-28.timesheet.json")].
Proof.
  destruct (generateTimesheet_saves (engine := example_engine)
              (service := svc_fenced) host0
              (world0 svc_fenced tt disk_logged 0) log_path timesheet_path
              (LogEntries_value [fix_bug]) (lit "AIza-example")
              (snd (getOrPromptApiKey host0 (world0 svc_fenced tt disk_logged 0)))
              (FENCE ++ lit "json" ++ [10] ++ example_response ++ [10] ++ FENCE)
              (snd (generateContentWithFallback (lit "AIza-example")
                      (timesheet_prompt
                         (JSON_stringify (LogEntries_value [fix_bug]))
                         (lit "2026-02-28"))
                      FALLBACK_MODELS
                      (snd (getOrPromptApiKey host0
                              (world0 svc_fenced tt disk_logged 0)))))
              (Timesheet_value example_timesheet)
              ltac:(vm_refl) ltac:(vm_refl) ltac:(vm_refl) ltac:(vm_refl)
              ltac:(vm_refl) ltac:(vm_refl) ltac:(vm_refl)
              ltac:(clear_ancestors) ltac:(vm_compute; discriminate))
    as (w3 & Hrun & _ & Hlog & Hshown & Hcanon).
  exists w3. split; [exact Hrun|].
  split; [exact (proj1 (Hcanon (Timesheet_value_canonical example_timesheet)))|].
  split; [exact Hlog|]. exact Hshown.
Defined.

Lemma inferMethodName_needs_parenthesis_witness :
  inferMethodName
    {| fsPath := lit "/ws/src/limits.ts"; selection_isEmpty := true;
       selection_text := []; document_text := lit "const limit = 3;";
       cursor_offset := 5; lines_to_cursor := [lit "const limit = 3;"] |}
  = [].
Proof.
  apply inferMethodName_needs_parenthesis.
  intros line [<- | []] H. vm_compute in H.
  repeat (destruct H as [H|H]; [discriminate H|]). exact H.
Defined.

Lemma logActivity_logs_witness :
  exists s',
    logActivity (service := svc_third) desk0
      (session0 svc_third (world0 svc_third tt disk_logged T_fix_bug) [])
    = (Normal tt, s')
    /\ readLogFile log_path (world s')
       = (Normal (LogEntries_value
                    [fix_bug;
                     {| timestamp := lit "2026-02-28T16:30:00.000Z";
                        description := lit "fix bug";
                        aiPrompt := lit "fix bug";
                        file := lit "/ws/src/user.ts";
                        method := lit "authenticate";
                        codeContextSnippetHash :=
                          hashSnippet (document_text example_editor);
                        summary := lit "Adds a null check.";
                        source := manual |}]),
          world s')
    /\ shown s' = [InfoActivityLogged (lit "2026-02-28T16:30:00.000Z")]
    /\ length (requests (world s')) = 3%nat.
Proof.
  destruct (logActivity_logs (service := svc_third)
              desk0
              (session0 svc_third (world0 svc_third tt disk_logged T_fix_bug) [])
              (lit "fix bug") (lit "AIza-example")
              (snd (getOrPromptApiKey host0
                      (world0 svc_third tt disk_logged T_fix_bug)))
              (lit "Adds a null check.")
              (snd (summarizeCode (lit "AIza-example")
                      (document_text example_editor) (Some (lit "fix bug"))
                      (snd (getOrPromptApiKey host0
                              (world0 svc_third tt disk_logged T_fix_bug)))))
              log_path [fix_bug]
              ltac:(vm_refl) ltac:(discriminate) ltac:(vm_refl) ltac:(vm_refl)
              ltac:(vm_refl) ltac:(clear_ancestors) ltac:(vm_refl))
    as (s' & Hrun & Hread & Hshown & Hreq & _).
  exists s'. split; [exact Hrun|]. split; [|split].
  - rewrite Hread. f_equal; f_equal; vm_refl.
  - exact Hshown.
  - rewrite Hreq. vm_refl.
Defined.

Lemma logActivity_without_workspace_witness :
  exists s',
    logActivity (service := svc_third) desk_without_workspace
      (session0 svc_third (world0 svc_third tt disk_logged T_fix_bug) [])
    = (Normal tt, s')
    /\ disk (world s') = disk_logged
    /\ length (requests (world s')) = 3%nat
    /\ shown s' = [ErrNoWorkspaceFolder].
Proof.
  destruct (logActivity_without_workspace
              (service := svc_third) desk_without_workspace
              (session0 svc_third (world0 svc_third tt disk_logged T_fix_bug) [])
              (lit "fix bug") (lit "AIza-example")
              (snd (getOrPromptApiKey (host desk_without_workspace)
                      (world0 svc_third tt disk_logged T_fix_bug)))
              (lit "Adds a null check.")
              (snd (summarizeCode (lit "AIza-example")
                      (document_text example_editor) (Some (lit "fix bug"))
                      (snd (getOrPromptApiKey (host desk_without_workspace)
                              (world0 svc_third tt disk_logged T_fix_bug)))))
              ltac:(vm_refl) ltac:(discriminate) ltac:(vm_refl) ltac:(vm_refl)
              ltac:(vm_refl))
    as (s' & Hrun & Hw & Hd & Hshown).
  exists s'. split; [exact Hrun|]. rewrite Hw. split; [|split].
  - vm_refl.
  - vm_refl.
  - exact Hshown.
Defined.

Lemma blank_selection_fallback_witness :
  Earlier.resolvePrompt (service := svc_down) desk0
    (lit "activeInputCapture") (Some blank_selection_editor)
    (session0 svc_down (world0 svc_down tt disk_logged T_fix_bug)
       [lit " fix bug "])
  = (Normal None,
     with_message WarnNothingSelected
       (session0 svc_down (world0 svc_down tt disk_logged T_fix_bug)
          [lit " fix bug "]))
  /\ fst (resolvePrompt (service := svc_down) desk0
            (lit "activeInputCapture") (Some blank_selection_editor)
            (session0 svc_down (world0 svc_down tt disk_logged T_fix_bug)
               [lit " fix bug "]))
     = Normal (Some (lit "fix bug", clipboard)).
Proof.
  destruct (blank_selection_fallback (service := svc_down) desk0
              blank_selection_editor
              (session0 svc_down (world0 svc_down tt disk_logged T_fix_bug)
                 [lit " fix bug "])
              ltac:(vm_refl) ltac:(vm_refl))
    as (Hearlier & _).
  split; [exact Hearlier|]. vm_refl.
Defined.

Lemma captureAIPromptAndLog_skips_repeat_witness :
  exists s2,
    captureAIPromptAndLog (engine := example_engine) (service := svc_down)
      desk_capture
      (session0 svc_down (world0 svc_down tt disk_logged (T_fix_bug + 60000))
         [lit " add test "])
    = (Normal tt, s2)
    /\ shown s2 = [InfoPromptLogged clipboard (lit "2026-02-28T16:31:00.000Z")]
    /\ captureAIPromptAndLog (engine := example_engine) (service := svc_down)
         desk_capture_again
         (session0 svc_down
            (world0 svc_down tt (disk (world s2)) (T_fix_bug + 150000))
            [lit "add test"])
       = (Normal tt,
          with_message InfoDuplicateSkipped
            (session0 svc_down
               (world0 svc_down tt (disk (world s2)) (T_fix_bug + 150000)) [])).
Proof.
  destruct (captureAIPromptAndLog_skips_repeat (engine := example_engine)
              (service := svc_down) desk_capture
              (session0 svc_down
                 (world0 svc_down tt disk_logged (T_fix_bug + 60000))
                 [lit " add test "])
              log_path (lit "add test") clipboard
              (session0 svc_down
                 (world0 svc_down tt disk_logged (T_fix_bug + 60000)) [])
              [fix_bug] (lit "AIza-example")
              (snd (getOrPromptApiKey host0
                      (world0 svc_down tt disk_logged (T_fix_bug + 60000))))
              ltac:(vm_refl) ltac:(vm_refl) ltac:(clear_ancestors)
              ltac:(vm_refl) ltac:(vm_refl) ltac:(vm_refl))
    as (s2 & Hrun & Hshown & _ & Hagain).
  exists s2. split; [exact Hrun|]. split; [exact Hshown|].
  refine (proj1 (Hagain desk_capture_again
                   (session0 svc_down
                      (world0 svc_down tt (disk (world s2)) (T_fix_bug + 150000))
                      [lit "add test"])
                   clipboard
                   (session0 svc_down
                      (world0 svc_down tt (disk (world s2)) (T_fix_bug + 150000))
                      [])
                   _ eq_refl eq_refl _)).
  - vm_refl.
  - vm_refl.
Defined.

(** The same two runs of the earlier revision, which stamps the record
    itself; and a third run after the two minutes. *)
Lemma Earlier_capture_window_witness :
  exists s2,
    Earlier.captureAIPromptAndLog (engine := example_engine)
      (service := svc_up) (calendar := example_calendar) desk_capture
      (session0 svc_up (world0 svc_up tt disk_logged (T_fix_bug + 60000))
         [lit " add test "])
    = (Normal tt, s2)
    /\ shown s2 = [InfoPromptLogged clipboard (lit "2026-02-28T16:31:00.000Z")]
    /\ Earlier.captureAIPromptAndLog (engine := example_engine)
         (service := svc_up) (calendar := example_calendar) desk_capture_again
         (session0 svc_up
            (world0 svc_up tt (disk (world s2)) (T_fix_bug + 150000))
            [lit "add test"])
       = (Normal tt,
          with_message InfoDuplicateSkipped
            (session0 svc_up
               (world0 svc_up tt (disk (world s2)) (T_fix_bug + 150000)) []))
    /\ fst (isDuplicateEntry (engine := example_engine) log_path (lit "add test")
              (world0 svc_up tt (disk (world s2)) (T_fix_bug + 180000)))
       = Normal false.
Proof.
  destruct (Earlier_capture_window (engine := example_engine)
              (service := svc_up) (calendar := example_calendar) desk_capture
              (session0 svc_up
                 (world0 svc_up tt disk_logged (T_fix_bug + 60000))
                 [lit " add test "])
              log_path (lit "add test") clipboard
              (session0 svc_up
                 (world0 svc_up tt disk_logged (T_fix_bug + 60000)) [])
              [fix_bug] (lit "AIza-example")
              (snd (getOrPromptApiKey host0
                      (world0 svc_up tt disk_logged (T_fix_bug + 60000))))
              ltac:(vm_refl) ltac:(vm_refl) ltac:(vm_refl) ltac:(clear_ancestors)
              ltac:(vm_refl) ltac:(vm_refl) ltac:(vm_refl))
    as (s2 & summary & Hrun & Hshown & _ & _ & Hagain).
  exists s2. split; [exact Hrun|]. split; [exact Hshown|]. split.
  - refine (proj1 (Hagain desk_capture_again
                     (session0 svc_up
                        (world0 svc_up tt (disk (world s2)) (T_fix_bug + 150000))
                        [lit "add test"])
                     clipboard
                     (session0 svc_up
                        (world0 svc_up tt (disk (world s2)) (T_fix_bug + 150000))
                        [])
                     _ eq_refl eq_refl) _).
    + vm_refl.
    + vm_compute. reflexivity.
  - refine (proj2 (Hagain desk_capture_again
                     (session0 svc_up
                        (world0 svc_up tt (disk (world s2)) (T_fix_bug + 180000))
                        [lit "add test"])
                     clipboard
                     (session0 svc_up
                        (world0 svc_up tt (disk (world s2)) (T_fix_bug + 180000))
                        [])
                     _ eq_refl eq_refl) _).
    + vm_refl.
    + vm_compute. discriminate.
Defined.

(** ** Numbers, the hash, the patterns and the calendar on known values *)

(** Numbers are written as the doubles they denote: without a fraction or
    an exponent that is not needed, with the exponent from 1e21 on and
    below 1e-6, rounded to the nearest double, and as [null] when not
    finite. *)
Example number_text_known_values :
  List.map number_text
    [lit "1.0"; lit "1e2"; lit "1.50"; lit "-0"; lit "1e400"; lit "0.1";
     lit "1e21"; lit "123456789012345680000"; lit "0.000001"; lit "1e-7";
     lit "-2.50E+3"; lit "9007199254740993"; lit "0.30000000000000004";
     lit "5e-324"; lit "2e-324"; lit "1.7976931348623157e308"]
  = [lit "1"; lit "100"; lit "1.5"; lit "0"; lit "null"; lit "0.1";
     lit "1e+21"; lit "123456789012345680000"; lit "0.000001"; lit "1e-7";
     lit "-2500"; lit "9007199254740992"; lit "0.30000000000000004";
     lit "5e-324"; lit "0"; lit "1.7976931348623157e+308"].
Proof. vm_refl. Qed.

(** A log of numbers, read and written back. *)
Example JSON_stringify_parsed_numbers :
  option_map JSON_stringify (JSON_parse (qlit "[1.0, 1e2, {'n': -0}]"))
  = Some (lit "[" ++ [10] ++ lit "  1," ++ [10] ++ lit "  100," ++ [10]
          ++ lit "  {" ++ [10] ++ qlit "    'n': 0" ++ [10] ++ lit "  }"
          ++ [10] ++ lit "]").
Proof. vm_refl. Qed.

(** The digests of the empty text, of the one-block and the two-block
    messages of the standard's examples, of a text with code points of
    two, three and four bytes, and of a lone surrogate. *)
Example hashSnippet_known_digests :
  hashSnippet []
  = lit "e3b0c44298fc1c149afbf4c8996fb92427ae41e4649b934ca495991b7852b855"
  /\ hashSnippet (lit "abc")
     = lit "ba7816bf8f01cfea414140de5dae2223b00361a396177a9cb410ff61f20015ad"
  /\ hashSnippet
       (lit "abcdbcdecdefdefgefghfghighijhijkijkljklmklmnlmnomnopnopq")
     = lit "248d6a61d20638b8e5c026930c3e6039a33ce45964ff2167f6ecedd419db06c1"
  /\ hashSnippet [233; 8364; 55357; 56832]
     = lit "df9226927fd572c1ee66eec85de1bb139497614899f36e4e90474cb71f6ef9d0"
  /\ hashSnippet [55357]
     = lit "83d544ccc223c057d2bf80d3f2a32982c32c3c0db8e2674820da5064783fb097".
Proof. repeat split; vm_refl. Qed.

(** One line for each pattern; a keyword taken for a method; lines without
    a match. *)
Example inferMethodName_known_lines :
  List.map (fun line => inferMethodName (editor_on [line]))
    [lit "async function load(id) {";
     lit "const total = async (a, b) => a + b;";
     lit "  private static run(x: number): void {";
     lit "  if (ready) {";
     lit "return x + 1;";
     lit "  if (!user) return;"]
  = [lit "load"; lit "total"; lit "run"; lit "if"; []; []].
Proof. vm_refl. Qed.

(** The line nearest to the cursor that has a match decides. *)
Example inferMethodName_nearest_line :
  inferMethodName example_editor = lit "authenticate"
  /\ inferMethodName
       (editor_on [lit "function first() {"; lit "function second() {";
                   lit "  return 1;"])
     = lit "second".
Proof. split; vm_refl. Qed.

(** The text of the instant of the first record. *)
Example Date_toISOString_known_instant :
  Date_toISOString (Calendar := example_calendar) T_fix_bug
  = lit "2026-02-28T16:30:00.000Z"
  /\ @Date_time example_engine
       (JStr (Date_toISOString (Calendar := example_calendar) T_fix_bug))
     = Some T_fix_bug.
Proof. split; vm_refl. Qed.

(** A log that holds [null] makes the timesheet command throw. *)
Example generateTimesheet_null_log :
  generateTimesheet (engine := example_engine) host0
    (world0 svc_down tt (disk_with (lit "null")) T_fix_bug)
  = (Throw TypeError, world0 svc_down tt (disk_with (lit "null")) T_fix_bug).
Proof. vm_refl. Qed.
